(** * MoodFlow: the data-access layer, the sign-in and sign-up handlers and
    the statistics of the profile view, embedded in Rocq.

    Sources embedded here:
    - [services/db.ts]   (username directory, profile store, mood store),
    - [components/Auth.tsx]  ([handleLogin], [handleRegister]),
    - [components/Profile.tsx]  ([getAverage], the week and month windows,
      [stats], [sortedMoods], [displayName]),
    - [components/Search.tsx]  ([handleSearch]),
    - [components/Calendar.tsx]  ([daysInMonth], [startDayOffset],
      [calendarDays]),
    - [App.tsx]  ([handleSaveMood], [handleDeleteMood], [handleChangeMonth]),
    - [types.ts]  ([MoodValue], [MoodLog], [UserProfile]).

    The hosted database, the hosted authentication provider and the
    JavaScript built-ins the code calls ([String.prototype.trim], [Date],
    [Number.prototype.toFixed], ...) are not part of the repository; each
    is given a small executable model, described where it is defined. *)

From Stdlib Require Import ZArith Lia Ascii String List Bool.
From Stdlib Require Import Floats.SpecFloat DecimalString Sorting.Permutation.
From stdpp Require Import base strings list gmap fin_maps.

(* ===================================================================== *)
(** * JavaScript strings

    A JavaScript string is a sequence of UTF-16 code units.  It is held
    here as the bytes of its UTF-8 form, one [ascii] per byte: a code
    point below U+0080 is one byte, the others are two to four bytes, and
    a surrogate that is not half of a pair is the three bytes that the
    same scheme gives it.  [chars] cuts a string into its code points, and
    the functions of ECMAScript that look at characters ([toLowerCase],
    [trim], [length]) work on them, with the case data of Unicode 14.0.
    Bytes that are not the UTF-8 form of a code point stand for no
    JavaScript string; the functions leave them as they are. *)
(* ===================================================================== *)

Module JSString.

Local Open Scope N_scope.

Definition byte (c : ascii) : N := N_of_ascii c.

(** ** Code points *)

(** A continuation byte, 10xxxxxx. *)
Definition isContinuation (c : ascii) : bool :=
  (128 <=? byte c) && (byte c <? 192).

(** The number of continuation bytes that the first byte of a code point
    announces. *)
Definition following (c : ascii) : nat :=
  let n := byte c in
  if n <? 194 then 0%nat
  else if n <? 224 then 1%nat
  else if n <? 240 then 2%nat
  else if n <? 245 then 3%nat
  else 0%nat.

(** The first [n] bytes of [s] are continuation bytes. *)
Fixpoint continued (n : nat) (s : string) : bool :=
  match n with
  | O => true
  | S n' =>
      match s with
      | EmptyString => false
      | String c r => isContinuation c && continued n' r
      end
  end.

(** The pieces of a string: a first byte with the continuation bytes it
    announces, or a single byte when they are not there. *)
Fixpoint chars (s : string) : list string :=
  match s with
  | EmptyString => []
  | String c r =>
      let n := following c in
      if continued n r
      then String c (substring 0 n r) :: drop n (chars r)
      else String c EmptyString :: chars r
  end.

Definition join (pieces : list string) : string :=
  fold_right append EmptyString pieces.

(** The UTF-8 form of a code point. *)
Definition encode (cp : N) : string :=
  if cp <? 128 then String (ascii_of_N cp) EmptyString
  else if cp <? 2048 then
    String (ascii_of_N (192 + cp / 64))
      (String (ascii_of_N (128 + cp mod 64)) EmptyString)
  else if cp <? 65536 then
    String (ascii_of_N (224 + cp / 4096))
      (String (ascii_of_N (128 + (cp / 64) mod 64))
         (String (ascii_of_N (128 + cp mod 64)) EmptyString))
  else
    String (ascii_of_N (240 + cp / 262144))
      (String (ascii_of_N (128 + (cp / 4096) mod 64))
         (String (ascii_of_N (128 + (cp / 64) mod 64))
            (String (ascii_of_N (128 + cp mod 64)) EmptyString))).

Definition decode (piece : string) : N :=
  match piece with
  | String a EmptyString => byte a
  | String a (String b EmptyString) =>
      (byte a - 192) * 64 + (byte b - 128)
  | String a (String b (String c EmptyString)) =>
      (byte a - 224) * 4096 + (byte b - 128) * 64 + (byte c - 128)
  | String a (String b (String c (String d EmptyString))) =>
      (byte a - 240) * 262144 + (byte b - 128) * 4096
      + (byte c - 128) * 64 + (byte d - 128)
  | _ => 0
  end.

(** The code point that a piece is the UTF-8 form of, if any. *)
Definition codePoint (piece : string) : option N :=
  let cp := decode piece in
  if (cp <? 1114112) && String.eqb (encode cp) piece then Some cp else None.

(** ** Case *)

(** The simple lowercase mappings of UnicodeData.txt, as runs
    (first, last, step, lowercase of the first): the code points
    first, first + step, ..., last map to the lowercase of the first plus
    their distance from the first. *)
Definition lowerRuns : list (N * N * N * N) :=
  [ (65, 90, 1, 97); (192, 214, 1, 224); (216, 222, 1, 248);
   (256, 302, 2, 257); (306, 310, 2, 307); (313, 327, 2, 314);
   (330, 374, 2, 331); (376, 376, 1, 255); (377, 381, 2, 378);
   (385, 385, 1, 595); (386, 388, 2, 387); (390, 390, 1, 596);
   (391, 391, 1, 392); (393, 394, 1, 598); (395, 395, 1, 396);
   (398, 398, 1, 477); (399, 399, 1, 601); (400, 400, 1, 603);
   (401, 401, 1, 402); (403, 403, 1, 608); (404, 404, 1, 611);
   (406, 406, 1, 617); (407, 407, 1, 616); (408, 408, 1, 409);
   (412, 412, 1, 623); (413, 413, 1, 626); (415, 415, 1, 629);
   (416, 420, 2, 417); (422, 422, 1, 640); (423, 423, 1, 424);
   (425, 425, 1, 643); (428, 428, 1, 429); (430, 430, 1, 648);
   (431, 431, 1, 432); (433, 434, 1, 650); (435, 437, 2, 436);
   (439, 439, 1, 658); (440, 440, 1, 441); (444, 444, 1, 445);
   (452, 452, 1, 454); (453, 453, 1, 454); (455, 455, 1, 457);
   (456, 456, 1, 457); (458, 458, 1, 460); (459, 475, 2, 460);
   (478, 494, 2, 479); (497, 497, 1, 499); (498, 500, 2, 499);
   (502, 502, 1, 405); (503, 503, 1, 447); (504, 542, 2, 505);
   (544, 544, 1, 414); (546, 562, 2, 547); (570, 570, 1, 11365);
   (571, 571, 1, 572); (573, 573, 1, 410); (574, 574, 1, 11366);
   (577, 577, 1, 578); (579, 579, 1, 384); (580, 580, 1, 649);
   (581, 581, 1, 652); (582, 590, 2, 583); (880, 882, 2, 881);
   (886, 886, 1, 887); (895, 895, 1, 1011); (902, 902, 1, 940);
   (904, 906, 1, 941); (908, 908, 1, 972); (910, 911, 1, 973);
   (913, 929, 1, 945); (931, 939, 1, 963); (975, 975, 1, 983);
   (984, 1006, 2, 985); (1012, 1012, 1, 952); (1015, 1015, 1, 1016);
   (1017, 1017, 1, 1010); (1018, 1018, 1, 1019); (1021, 1023, 1, 891);
   (1024, 1039, 1, 1104); (1040, 1071, 1, 1072); (1120, 1152, 2, 1121);
   (1162, 1214, 2, 1163); (1216, 1216, 1, 1231); (1217, 1229, 2, 1218);
   (1232, 1326, 2, 1233); (1329, 1366, 1, 1377); (4256, 4293, 1, 11520);
   (4295, 4295, 1, 11559); (4301, 4301, 1, 11565); (5024, 5103, 1, 43888);
   (5104, 5109, 1, 5112); (7312, 7354, 1, 4304); (7357, 7359, 1, 4349);
   (7680, 7828, 2, 7681); (7838, 7838, 1, 223); (7840, 7934, 2, 7841);
   (7944, 7951, 1, 7936); (7960, 7965, 1, 7952); (7976, 7983, 1, 7968);
   (7992, 7999, 1, 7984); (8008, 8013, 1, 8000); (8025, 8031, 2, 8017);
   (8040, 8047, 1, 8032); (8072, 8079, 1, 8064); (8088, 8095, 1, 8080);
   (8104, 8111, 1, 8096); (8120, 8121, 1, 8112); (8122, 8123, 1, 8048);
   (8124, 8124, 1, 8115); (8136, 8139, 1, 8050); (8140, 8140, 1, 8131);
   (8152, 8153, 1, 8144); (8154, 8155, 1, 8054); (8168, 8169, 1, 8160);
   (8170, 8171, 1, 8058); (8172, 8172, 1, 8165); (8184, 8185, 1, 8056);
   (8186, 8187, 1, 8060); (8188, 8188, 1, 8179); (8486, 8486, 1, 969);
   (8490, 8490, 1, 107); (8491, 8491, 1, 229); (8498, 8498, 1, 8526);
   (8544, 8559, 1, 8560); (8579, 8579, 1, 8580); (9398, 9423, 1, 9424);
   (11264, 11311, 1, 11312); (11360, 11360, 1, 11361); (11362, 11362, 1, 619);
   (11363, 11363, 1, 7549); (11364, 11364, 1, 637); (11367, 11371, 2, 11368);
   (11373, 11373, 1, 593); (11374, 11374, 1, 625); (11375, 11375, 1, 592);
   (11376, 11376, 1, 594); (11378, 11378, 1, 11379); (11381, 11381, 1, 11382);
   (11390, 11391, 1, 575); (11392, 11490, 2, 11393); (11499, 11501, 2, 11500);
   (11506, 11506, 1, 11507); (42560, 42604, 2, 42561); (42624, 42650, 2, 42625);
   (42786, 42798, 2, 42787); (42802, 42862, 2, 42803); (42873, 42875, 2, 42874);
   (42877, 42877, 1, 7545); (42878, 42886, 2, 42879); (42891, 42891, 1, 42892);
   (42893, 42893, 1, 613); (42896, 42898, 2, 42897); (42902, 42920, 2, 42903);
   (42922, 42922, 1, 614); (42923, 42923, 1, 604); (42924, 42924, 1, 609);
   (42925, 42925, 1, 620); (42926, 42926, 1, 618); (42928, 42928, 1, 670);
   (42929, 42929, 1, 647); (42930, 42930, 1, 669); (42931, 42931, 1, 43859);
   (42932, 42946, 2, 42933); (42948, 42948, 1, 42900); (42949, 42949, 1, 642);
   (42950, 42950, 1, 7566); (42951, 42953, 2, 42952); (42960, 42960, 1, 42961);
   (42966, 42968, 2, 42967); (42997, 42997, 1, 42998); (65313, 65338, 1, 65345);
   (66560, 66599, 1, 66600); (66736, 66771, 1, 66776); (66928, 66938, 1, 66967);
   (66940, 66954, 1, 66979); (66956, 66962, 1, 66995); (66964, 66965, 1, 67003);
   (68736, 68786, 1, 68800); (71840, 71871, 1, 71872); (93760, 93791, 1, 93792);
   (125184, 125217, 1, 125218) ].

Fixpoint lowerIn (runs : list (N * N * N * N)) (cp : N) : N :=
  match runs with
  | [] => cp
  | (first, last, step, target) :: rest =>
      if cp <? first then cp
      else if (cp <=? last) && ((cp - first) mod step =? 0)
      then target + (cp - first)
      else lowerIn rest cp
  end.

Definition simpleLower (cp : N) : N := lowerIn lowerRuns cp.

Definition inRanges (ranges : list (N * N)) (cp : N) : bool :=
  existsb (fun '(first, last) => (first <=? cp) && (cp <=? last)) ranges.

(** The code points with the property Case_Ignorable. *)
Definition caseIgnorableRanges : list (N * N) :=
  [ (39, 39); (46, 46); (58, 58); (94, 94); (96, 96);
   (168, 168); (173, 173); (175, 175); (180, 180); (183, 184);
   (688, 879); (884, 885); (890, 890); (900, 901); (903, 903);
   (1155, 1161); (1369, 1369); (1375, 1375); (1425, 1469); (1471, 1471);
   (1473, 1474); (1476, 1477); (1479, 1479); (1524, 1524); (1536, 1541);
   (1552, 1562); (1564, 1564); (1600, 1600); (1611, 1631); (1648, 1648);
   (1750, 1757); (1759, 1768); (1770, 1773); (1807, 1807); (1809, 1809);
   (1840, 1866); (1958, 1968); (2027, 2037); (2042, 2042); (2045, 2045);
   (2070, 2093); (2137, 2139); (2184, 2184); (2192, 2193); (2200, 2207);
   (2249, 2306); (2362, 2362); (2364, 2364); (2369, 2376); (2381, 2381);
   (2385, 2391); (2402, 2403); (2417, 2417); (2433, 2433); (2492, 2492);
   (2497, 2500); (2509, 2509); (2530, 2531); (2558, 2558); (2561, 2562);
   (2620, 2620); (2625, 2626); (2631, 2632); (2635, 2637); (2641, 2641);
   (2672, 2673); (2677, 2677); (2689, 2690); (2748, 2748); (2753, 2757);
   (2759, 2760); (2765, 2765); (2786, 2787); (2810, 2815); (2817, 2817);
   (2876, 2876); (2879, 2879); (2881, 2884); (2893, 2893); (2901, 2902);
   (2914, 2915); (2946, 2946); (3008, 3008); (3021, 3021); (3072, 3072);
   (3076, 3076); (3132, 3132); (3134, 3136); (3142, 3144); (3146, 3149);
   (3157, 3158); (3170, 3171); (3201, 3201); (3260, 3260); (3263, 3263);
   (3270, 3270); (3276, 3277); (3298, 3299); (3328, 3329); (3387, 3388);
   (3393, 3396); (3405, 3405); (3426, 3427); (3457, 3457); (3530, 3530);
   (3538, 3540); (3542, 3542); (3633, 3633); (3636, 3642); (3654, 3662);
   (3761, 3761); (3764, 3772); (3782, 3782); (3784, 3789); (3864, 3865);
   (3893, 3893); (3895, 3895); (3897, 3897); (3953, 3966); (3968, 3972);
   (3974, 3975); (3981, 3991); (3993, 4028); (4038, 4038); (4141, 4144);
   (4146, 4151); (4153, 4154); (4157, 4158); (4184, 4185); (4190, 4192);
   (4209, 4212); (4226, 4226); (4229, 4230); (4237, 4237); (4253, 4253);
   (4348, 4348); (4957, 4959); (5906, 5908); (5938, 5939); (5970, 5971);
   (6002, 6003); (6068, 6069); (6071, 6077); (6086, 6086); (6089, 6099);
   (6103, 6103); (6109, 6109); (6155, 6159); (6211, 6211); (6277, 6278);
   (6313, 6313); (6432, 6434); (6439, 6440); (6450, 6450); (6457, 6459);
   (6679, 6680); (6683, 6683); (6742, 6742); (6744, 6750); (6752, 6752);
   (6754, 6754); (6757, 6764); (6771, 6780); (6783, 6783); (6823, 6823);
   (6832, 6862); (6912, 6915); (6964, 6964); (6966, 6970); (6972, 6972);
   (6978, 6978); (7019, 7027); (7040, 7041); (7074, 7077); (7080, 7081);
   (7083, 7085); (7142, 7142); (7144, 7145); (7149, 7149); (7151, 7153);
   (7212, 7219); (7222, 7223); (7288, 7293); (7376, 7378); (7380, 7392);
   (7394, 7400); (7405, 7405); (7412, 7412); (7416, 7417); (7468, 7530);
   (7544, 7544); (7579, 7679); (8125, 8125); (8127, 8129); (8141, 8143);
   (8157, 8159); (8173, 8175); (8189, 8190); (8203, 8207); (8216, 8217);
   (8228, 8228); (8231, 8231); (8234, 8238); (8288, 8292); (8294, 8303);
   (8305, 8305); (8319, 8319); (8336, 8348); (8400, 8432); (11388, 11389);
   (11503, 11505); (11631, 11631); (11647, 11647); (11744, 11775); (11823, 11823);
   (12293, 12293); (12330, 12333); (12337, 12341); (12347, 12347); (12441, 12446);
   (12540, 12542); (40981, 40981); (42232, 42237); (42508, 42508); (42607, 42610);
   (42612, 42621); (42623, 42623); (42652, 42655); (42736, 42737); (42752, 42785);
   (42864, 42864); (42888, 42890); (42994, 42996); (43000, 43001); (43010, 43010);
   (43014, 43014); (43019, 43019); (43045, 43046); (43052, 43052); (43204, 43205);
   (43232, 43249); (43263, 43263); (43302, 43309); (43335, 43345); (43392, 43394);
   (43443, 43443); (43446, 43449); (43452, 43453); (43471, 43471); (43493, 43494);
   (43561, 43566); (43569, 43570); (43573, 43574); (43587, 43587); (43596, 43596);
   (43632, 43632); (43644, 43644); (43696, 43696); (43698, 43700); (43703, 43704);
   (43710, 43711); (43713, 43713); (43741, 43741); (43756, 43757); (43763, 43764);
   (43766, 43766); (43867, 43871); (43881, 43883); (44005, 44005); (44008, 44008);
   (44013, 44013); (64286, 64286); (64434, 64450); (65024, 65039); (65043, 65043);
   (65056, 65071); (65106, 65106); (65109, 65109); (65279, 65279); (65287, 65287);
   (65294, 65294); (65306, 65306); (65342, 65342); (65344, 65344); (65392, 65392);
   (65438, 65439); (65507, 65507); (65529, 65531); (66045, 66045); (66272, 66272);
   (66422, 66426); (67456, 67461); (67463, 67504); (67506, 67514); (68097, 68099);
   (68101, 68102); (68108, 68111); (68152, 68154); (68159, 68159); (68325, 68326);
   (68900, 68903); (69291, 69292); (69446, 69456); (69506, 69509); (69633, 69633);
   (69688, 69702); (69744, 69744); (69747, 69748); (69759, 69761); (69811, 69814);
   (69817, 69818); (69821, 69821); (69826, 69826); (69837, 69837); (69888, 69890);
   (69927, 69931); (69933, 69940); (70003, 70003); (70016, 70017); (70070, 70078);
   (70089, 70092); (70095, 70095); (70191, 70193); (70196, 70196); (70198, 70199);
   (70206, 70206); (70367, 70367); (70371, 70378); (70400, 70401); (70459, 70460);
   (70464, 70464); (70502, 70508); (70512, 70516); (70712, 70719); (70722, 70724);
   (70726, 70726); (70750, 70750); (70835, 70840); (70842, 70842); (70847, 70848);
   (70850, 70851); (71090, 71093); (71100, 71101); (71103, 71104); (71132, 71133);
   (71219, 71226); (71229, 71229); (71231, 71232); (71339, 71339); (71341, 71341);
   (71344, 71349); (71351, 71351); (71453, 71455); (71458, 71461); (71463, 71467);
   (71727, 71735); (71737, 71738); (71995, 71996); (71998, 71998); (72003, 72003);
   (72148, 72151); (72154, 72155); (72160, 72160); (72193, 72202); (72243, 72248);
   (72251, 72254); (72263, 72263); (72273, 72278); (72281, 72283); (72330, 72342);
   (72344, 72345); (72752, 72758); (72760, 72765); (72767, 72767); (72850, 72871);
   (72874, 72880); (72882, 72883); (72885, 72886); (73009, 73014); (73018, 73018);
   (73020, 73021); (73023, 73029); (73031, 73031); (73104, 73105); (73109, 73109);
   (73111, 73111); (73459, 73460); (78896, 78904); (92912, 92916); (92976, 92982);
   (92992, 92995); (94031, 94031); (94095, 94111); (94176, 94177); (94179, 94180);
   (110576, 110579); (110581, 110587); (110589, 110590); (113821, 113822); (113824, 113827);
   (118528, 118573); (118576, 118598); (119143, 119145); (119155, 119170); (119173, 119179);
   (119210, 119213); (119362, 119364); (121344, 121398); (121403, 121452); (121461, 121461);
   (121476, 121476); (121499, 121503); (121505, 121519); (122880, 122886); (122888, 122904);
   (122907, 122913); (122915, 122916); (122918, 122922); (123184, 123197); (123566, 123566);
   (123628, 123631); (125136, 125142); (125252, 125259); (127995, 127999); (917505, 917505);
   (917536, 917631); (917760, 917999) ].

(** The code points with the property Cased and without Case_Ignorable. *)
Definition casedRanges : list (N * N) :=
  [ (65, 90); (97, 122); (170, 170); (181, 181); (186, 186);
   (192, 214); (216, 246); (248, 442); (444, 447); (452, 659);
   (661, 687); (880, 883); (886, 887); (891, 893); (895, 895);
   (902, 902); (904, 906); (908, 908); (910, 929); (931, 1013);
   (1015, 1153); (1162, 1327); (1329, 1366); (1376, 1416); (4256, 4293);
   (4295, 4295); (4301, 4301); (4304, 4346); (4349, 4351); (5024, 5109);
   (5112, 5117); (7296, 7304); (7312, 7354); (7357, 7359); (7424, 7467);
   (7531, 7543); (7545, 7578); (7680, 7957); (7960, 7965); (7968, 8005);
   (8008, 8013); (8016, 8023); (8025, 8025); (8027, 8027); (8029, 8029);
   (8031, 8061); (8064, 8116); (8118, 8124); (8126, 8126); (8130, 8132);
   (8134, 8140); (8144, 8147); (8150, 8155); (8160, 8172); (8178, 8180);
   (8182, 8188); (8450, 8450); (8455, 8455); (8458, 8467); (8469, 8469);
   (8473, 8477); (8484, 8484); (8486, 8486); (8488, 8488); (8490, 8493);
   (8495, 8500); (8505, 8505); (8508, 8511); (8517, 8521); (8526, 8526);
   (8544, 8575); (8579, 8580); (9398, 9449); (11264, 11387); (11390, 11492);
   (11499, 11502); (11506, 11507); (11520, 11557); (11559, 11559); (11565, 11565);
   (42560, 42605); (42624, 42651); (42786, 42863); (42865, 42887); (42891, 42894);
   (42896, 42954); (42960, 42961); (42963, 42963); (42965, 42969); (42997, 42998);
   (43002, 43002); (43824, 43866); (43872, 43880); (43888, 43967); (64256, 64262);
   (64275, 64279); (65313, 65338); (65345, 65370); (66560, 66639); (66736, 66771);
   (66776, 66811); (66928, 66938); (66940, 66954); (66956, 66962); (66964, 66965);
   (66967, 66977); (66979, 66993); (66995, 67001); (67003, 67004); (68736, 68786);
   (68800, 68850); (71840, 71903); (93760, 93823); (119808, 119892); (119894, 119964);
   (119966, 119967); (119970, 119970); (119973, 119974); (119977, 119980); (119982, 119993);
   (119995, 119995); (119997, 120003); (120005, 120069); (120071, 120074); (120077, 120084);
   (120086, 120092); (120094, 120121); (120123, 120126); (120128, 120132); (120134, 120134);
   (120138, 120144); (120146, 120485); (120488, 120512); (120514, 120538); (120540, 120570);
   (120572, 120596); (120598, 120628); (120630, 120654); (120656, 120686); (120688, 120712);
   (120714, 120744); (120746, 120770); (120772, 120779); (122624, 122633); (122635, 122654);
   (125184, 125251); (127280, 127305); (127312, 127337); (127344, 127369) ].

Definition caseIgnorable (cp : N) : bool := inRanges caseIgnorableRanges cp.
Definition casedLetter (cp : N) : bool := inRanges casedRanges cp.

(** After any case-ignorable code points comes a cased letter. *)
Fixpoint followedByCased (pieces : list string) : bool :=
  match pieces with
  | [] => false
  | piece :: rest =>
      match codePoint piece with
      | Some cp =>
          if caseIgnorable cp then followedByCased rest else casedLetter cp
      | None => false
      end
  end.

(** The lowercase of the code point [cp], as pieces.  U+03A3 (capital
    sigma) becomes U+03C2 (final sigma) when it follows a cased letter
    and none follows it, case-ignorable code points apart, and U+03C3
    otherwise; U+0130 becomes U+0069 U+0307 (SpecialCasing.txt); a code
    point that has no other lowercase is left as it is written. *)
Definition lowerPiece (afterCased : bool) (piece : string) (cp : N)
    (rest : list string) : list string :=
  if cp =? 931 then
    if afterCased && negb (followedByCased rest)
    then [encode 962] else [encode 963]
  else if cp =? 304 then [encode 105; encode 775]
  else if simpleLower cp =? cp then [piece]
  else [encode (simpleLower cp)].

Fixpoint lowerChars (afterCased : bool) (pieces : list string)
  : list string :=
  match pieces with
  | [] => []
  | piece :: rest =>
      match codePoint piece with
      | Some cp =>
          lowerPiece afterCased piece cp rest
          ++ lowerChars
               (if caseIgnorable cp then afterCased else casedLetter cp) rest
      | None => piece :: lowerChars false rest
      end
  end.

(** [String.prototype.toLowerCase] *)
Definition toLowerCase (s : string) : string :=
  join (lowerChars false (chars s)).

(** ** White space *)

(** WhiteSpace and LineTerminator: TAB, LF, VT, FF, CR, SP, NBSP, the
    other space separators (Zs), LS, PS and ZWNBSP. *)
Definition whiteSpaces : list N :=
  [ 9; 10; 11; 12; 13; 32; 160; 5760;
    8192; 8193; 8194; 8195; 8196; 8197; 8198; 8199; 8200; 8201; 8202;
    8232; 8233; 8239; 8287; 12288; 65279 ].

Definition isWhiteSpace (piece : string) : bool :=
  match codePoint piece with
  | Some cp => existsb (N.eqb cp) whiteSpaces
  | None => false
  end.

Fixpoint trimEndOf (pieces : list string) : list string :=
  match pieces with
  | [] => []
  | piece :: rest =>
      match trimEndOf rest with
      | [] => if isWhiteSpace piece then [] else [piece]
      | rest' => piece :: rest'
      end
  end.

Fixpoint trimStartOf (pieces : list string) : list string :=
  match pieces with
  | [] => []
  | piece :: rest =>
      if isWhiteSpace piece then trimStartOf rest else pieces
  end.

(** [String.prototype.trim] *)
Definition trim (s : string) : string :=
  join (trimEndOf (trimStartOf (chars s))).

(** ** The other functions *)

(** [String.prototype.includes] *)
Fixpoint includes (s sub : string) : bool :=
  String.prefix sub s ||
  match s with
  | EmptyString => false
  | String _ r => includes r sub
  end.

(** [String.prototype.split] with a separator below U+0080, as those of
    the sources are ('-' and '@'). *)
Fixpoint split (sep : ascii) (s : string) : list string :=
  match s with
  | EmptyString => [EmptyString]
  | String c r =>
      if Ascii.eqb c sep then EmptyString :: split sep r
      else match split sep r with
           | h :: t => String c h :: t
           | [] => [String c EmptyString]
           end
  end.

(** The code units of a piece: two for a code point above U+FFFF. *)
Definition units (piece : string) : nat :=
  match codePoint piece with
  | Some cp => if 65536 <=? cp then 2%nat else 1%nat
  | None => 1%nat
  end.

(** [s.length] *)
Definition length (s : string) : nat :=
  fold_right (fun piece n => (units piece + n)%nat) O (chars s).

(** [s.padStart(targetLength, fill)] with a filler below U+0080. *)
Definition padStart (targetLength : nat) (fill : ascii) (s : string) : string :=
  string_of_list_ascii (repeat fill (targetLength - length s)) +:+ s.

(** [if (s)]: a string is truthy when it is not empty. *)
Definition truthy (s : string) : bool :=
  match s with EmptyString => false | _ => true end.

End JSString.

(* ===================================================================== *)
(** * JavaScript numbers

    Two views of the Number type are used.  Calendar arithmetic only ever
    sees integers, so there a number is an [option Z] with [None] for NaN.
    The average is a binary64 value and is computed with the IEEE-754
    operations of [SpecFloat] (precision 53, maximal exponent 1024). *)
(* ===================================================================== *)

Module JSNumber.

Local Open Scope Z_scope.

(** Integer-valued number, or NaN. *)
Definition int := option Z.
Definition NaN : int := None.

Definition digitValue (c : ascii) : option Z :=
  let n := Z.of_N (N_of_ascii c) in
  if (48 <=? n) && (n <=? 57) then Some (n - 48) else None.

Fixpoint decimalDigits (acc : Z) (s : string) : option Z :=
  match s with
  | EmptyString => Some acc
  | String c r =>
      match digitValue c with
      | Some d => decimalDigits (10 * acc + d) r
      | None => None
      end
  end.

(** [Number(s)] (StringToNumber) on the grammar
    [StrWhiteSpace? (+|-)? DecimalDigits StrWhiteSpace?]; the empty and the
    all-blank string give 0.  Literals with a fraction, an exponent, a
    radix prefix, and [Infinity], are outside this fragment and are mapped
    to NaN; none of them is a field of a YYYY-MM-DD date. *)
Definition Number (s : string) : int :=
  match JSString.trim s with
  | EmptyString => Some 0
  | String c r =>
      if Ascii.eqb c "+" then
        match r with EmptyString => NaN | _ => decimalDigits 0 r end
      else if Ascii.eqb c "-" then
        match r with EmptyString => NaN | _ => Z.opp <$> decimalDigits 0 r end
      else decimalDigits 0 (String c r)
  end.

(** [String(n)] and [`${n}`] for an integer [n] of magnitude below 10^21:
    its decimal digits, after a minus sign when it is negative. *)
Definition toString (n : Z) : string := NilZero.string_of_int (Z.to_int n).

(** [x - k] and [x + k] for an integer [k]. *)
Definition minus (x : int) (k : Z) : int := (fun v => v - k) <$> x.
Definition plus (x : int) (k : Z) : int := (fun v => v + k) <$> x.

(** binary64 *)
Definition float := spec_float.
Definition prec := 53.
Definition emax := 1024.

Definition ofZ (z : Z) : float := binary_normalize prec emax z 0 false.
Definition add (x y : float) : float := SFadd prec emax x y.
Definition div (x y : float) : float := SFdiv prec emax x y.
Definition zero : float := S754_zero false.

(** The text produced by [x.toFixed(1)]: either a sign and an integer [n],
    standing for the decimal [n/10] written with one fractional digit, or
    the text of [Number::toString] (NaN, the infinities, and magnitudes of
    at least 10^21), which reads back as [x] itself. *)
Inductive fixedText :=
| Tenths (negative : bool) (n : Z)
| AsToString (x : float).

(** [Number.prototype.toFixed] with one fractional digit: for [x] of
    magnitude below 10^21, [n] is the integer closest to [10 * |x|], the
    larger one on a tie. *)
Definition toFixed1 (x : float) : fixedText :=
  match x with
  | S754_nan | S754_infinity _ => AsToString x
  | S754_zero _ => Tenths false 0
  | S754_finite s m e =>
      let large :=
        if 0 <=? e then 10 ^ 21 <=? Z.pos m * 2 ^ e
        else 10 ^ 21 * 2 ^ (- e) <=? Z.pos m in
      if large then AsToString x
      else
        let n :=
          if 0 <=? e then 10 * Z.pos m * 2 ^ e
          else (20 * Z.pos m + 2 ^ (- e)) / 2 ^ (1 - e) in
        Tenths s n
  end.

(** [parseFloat] on the text of [toFixed(1)]: the binary64 value nearest
    to [n/10], which the correctly rounded quotient of [n] by 10 is as long
    as [n] is below 2^53. *)
Definition parseFloat (t : fixedText) : float :=
  match t with
  | Tenths s n =>
      let q := div (ofZ n) (ofZ 10) in
      if s then SFopp q else q
  | AsToString x => x
  end.

End JSNumber.

(* ===================================================================== *)
(** * JavaScript dates

    A [Date] holds a time value: milliseconds since the epoch, or NaN for
    an invalid date.  The sources only build dates from local-time fields
    and compare them, so time values are kept in local time, that is the
    offset of the local time zone is taken to be constant.  The functions
    are those of ECMA-262, section "Date Objects". *)
(* ===================================================================== *)

Module JSDate.

Local Open Scope Z_scope.

Definition msPerDay : Z := 86400000.
Definition maxTime : Z := 8640000000000000.

Definition Day (t : Z) : Z := t / msPerDay.
Definition TimeWithinDay (t : Z) : Z := t mod msPerDay.

Definition DaysInYear (y : Z) : Z :=
  if negb (y mod 4 =? 0) then 365
  else if negb (y mod 100 =? 0) then 366
  else if negb (y mod 400 =? 0) then 365
  else 366.

Definition DayFromYear (y : Z) : Z :=
  365 * (y - 1970) + (y - 1969) / 4 - (y - 1901) / 100 + (y - 1601) / 400.

(** The largest [y] with [DayFromYear y <= Day t]: an estimate from the
    mean length of a year, corrected by at most one. *)
Definition YearFromTime (t : Z) : Z :=
  let d := Day t in
  let y0 := 1970 + (400 * d) / 146097 in
  if DayFromYear (y0 + 1) <=? d then y0 + 1
  else if d <? DayFromYear y0 then y0 - 1
  else y0.

Definition InLeapYear (y : Z) : Z := if DaysInYear y =? 366 then 1 else 0.

Definition DayWithinYear (t : Z) : Z := Day t - DayFromYear (YearFromTime t).

(** Day number, within its year, of the first day of month [m] (0..11). *)
Definition monthStart (m leap : Z) : Z :=
  if m =? 0 then 0
  else if m =? 1 then 31
  else if m =? 2 then 59 + leap
  else if m =? 3 then 90 + leap
  else if m =? 4 then 120 + leap
  else if m =? 5 then 151 + leap
  else if m =? 6 then 181 + leap
  else if m =? 7 then 212 + leap
  else if m =? 8 then 243 + leap
  else if m =? 9 then 273 + leap
  else if m =? 10 then 304 + leap
  else 334 + leap.

Definition monthOfDay (d leap : Z) : Z :=
  if d <? 31 then 0
  else if d <? 59 + leap then 1
  else if d <? 90 + leap then 2
  else if d <? 120 + leap then 3
  else if d <? 151 + leap then 4
  else if d <? 181 + leap then 5
  else if d <? 212 + leap then 6
  else if d <? 243 + leap then 7
  else if d <? 273 + leap then 8
  else if d <? 304 + leap then 9
  else if d <? 334 + leap then 10
  else 11.

Definition MonthFromTime (t : Z) : Z :=
  monthOfDay (DayWithinYear t) (InLeapYear (YearFromTime t)).

Definition DateFromTime (t : Z) : Z :=
  DayWithinYear t
  - monthStart (MonthFromTime t) (InLeapYear (YearFromTime t)) + 1.

Definition WeekDay (t : Z) : Z := (Day t + 4) mod 7.

Definition MakeTime (hour min sec ms : Z) : Z :=
  hour * 3600000 + min * 60000 + sec * 1000 + ms.

Definition MakeDay (year month date : Z) : Z :=
  let ym := year + month / 12 in
  let mn := month mod 12 in
  DayFromYear ym + monthStart mn (InLeapYear ym) + date - 1.

Definition MakeDate (day time : Z) : Z := day * msPerDay + time.

Definition TimeClip (t : Z) : option Z :=
  if maxTime <? Z.abs t then None else Some t.

(** A [Date] object, by its time value. *)
Definition Date := option Z.

(** [new Date(year, month, date)], each argument an integer or NaN.  A
    year from 0 to 99 stands for 1900 + year. *)
Definition newDate (year month date : JSNumber.int) : Date :=
  match year, month, date with
  | Some y, Some m, Some dt =>
      let yr := if (0 <=? y) && (y <=? 99) then 1900 + y else y in
      TimeClip (MakeDate (MakeDay yr m dt) (MakeTime 0 0 0 0))
  | _, _, _ => None
  end.

Definition getDay (d : Date) : JSNumber.int := WeekDay <$> d.
Definition getDate (d : Date) : JSNumber.int := DateFromTime <$> d.
Definition getMonth (d : Date) : JSNumber.int := MonthFromTime <$> d.
Definition getFullYear (d : Date) : JSNumber.int := YearFromTime <$> d.

(** [d.setDate(date)] *)
Definition setDate (d : Date) (date : JSNumber.int) : Date :=
  match d, date with
  | Some t, Some dt =>
      TimeClip (MakeDate (MakeDay (YearFromTime t) (MonthFromTime t) dt)
                         (TimeWithinDay t))
  | _, _ => None
  end.

(** [d.setMonth(month)] *)
Definition setMonth (d : Date) (month : JSNumber.int) : Date :=
  match d, month with
  | Some t, Some m =>
      TimeClip (MakeDate (MakeDay (YearFromTime t) m (DateFromTime t))
                         (TimeWithinDay t))
  | _, _ => None
  end.

(** [d.setHours(hour, min, sec, ms)] *)
Definition setHours (d : Date) (hour min sec ms : Z) : Date :=
  match d with
  | Some t => TimeClip (MakeDate (Day t) (MakeTime hour min sec ms))
  | None => None
  end.

(** [a >= b] and [a <= b] on dates: comparison of the time values, false
    as soon as one of them is NaN. *)
Definition geb (a b : Date) : bool :=
  match a, b with
  | Some x, Some y => y <=? x
  | _, _ => false
  end.

Definition leb (a b : Date) : bool :=
  match a, b with
  | Some x, Some y => x <=? y
  | _, _ => false
  end.

End JSDate.

(* ===================================================================== *)
(** * [types.ts] *)
(* ===================================================================== *)

Module Types.

Inductive MoodValue :=
| Terrible | VeryBad | Bad | Neutral | Good | VeryGood | Excellent.

(** The numeric value of each member of the enum. *)
Definition MoodValue_toZ (v : MoodValue) : Z :=
  match v with
  | Terrible => -3
  | VeryBad => -2
  | Bad => -1
  | Neutral => 0
  | Good => 1
  | VeryGood => 2
  | Excellent => 3
  end%Z.

Record MoodLog := {
  date : string;        (* YYYY-MM-DD *)
  value : MoodValue;
  timestamp : Z
}.

Record UserProfile := {
  uid : string;
  username : string;
  email : string
}.

End Types.

(* ===================================================================== *)
(** * [components/Profile.tsx]: the statistics *)
(* ===================================================================== *)

Module Profile.

Import Types.
Local Open Scope Z_scope.

(** [Object.values(moods)]; the [moods] prop is kept as the list of its
    entries in property order. *)
Definition moodListOf (moods : list (string * MoodLog)) : list MoodLog :=
  map snd moods.

Definition getAverage (logs : list MoodLog) : JSNumber.float :=
  if Nat.eqb (List.length logs) 0 then JSNumber.zero
  else
    let sum :=
      fold_left
        (fun acc curr => JSNumber.add acc (JSNumber.ofZ (MoodValue_toZ (value curr))))
        logs JSNumber.zero in
    JSNumber.parseFloat
      (JSNumber.toFixed1
         (JSNumber.div sum (JSNumber.ofZ (Z.of_nat (List.length logs))))).

(** The [i]-th element of a destructured array; a missing element is
    [undefined], which [Date] and [-] turn into NaN. *)
Definition element (i : nat) (l : list JSNumber.int) : JSNumber.int :=
  nth i l JSNumber.NaN.

(** [a === b] on numbers: NaN is equal to nothing. *)
Definition strictEq (a b : JSNumber.int) : bool :=
  match a, b with
  | Some x, Some y => x =? y
  | _, _ => false
  end.

Record Stat := {
  label : string;
  average : JSNumber.float;     (* the [value] property *)
  count : nat
}.

Section Stats.

(** The time value of [new Date()] and [Object.values(moods)]. *)
Variable today : Z.
Variable moodList : list MoodLog.

Definition currentDay : Z := JSDate.WeekDay today.

Definition distanceToMonday : Z :=
  if currentDay =? 0 then 6 else currentDay - 1.

Definition monday : JSDate.Date :=
  let monday := Some today in
  let monday :=
    JSDate.setDate monday
      (JSNumber.minus (JSDate.getDate (Some today)) distanceToMonday) in
  JSDate.setHours monday 0 0 0 0.

Definition sunday : JSDate.Date :=
  let sunday := monday in
  let sunday :=
    JSDate.setDate sunday (JSNumber.plus (JSDate.getDate monday) 6) in
  JSDate.setHours sunday 23 59 59 999.

Definition inCurrentWeek (m : MoodLog) : bool :=
  let fields := map JSNumber.Number (JSString.split "-" (date m)) in
  let y := element 0 fields in
  let mo := element 1 fields in
  let d := element 2 fields in
  let dateObj := JSDate.newDate y (JSNumber.minus mo 1) d in
  JSDate.geb dateObj monday && JSDate.leb dateObj sunday.

Definition currentWeekLogs : list MoodLog := List.filter inCurrentWeek moodList.

Definition inCurrentMonth (m : MoodLog) : bool :=
  let fields := map JSNumber.Number (JSString.split "-" (date m)) in
  let y := element 0 fields in
  let mo := element 1 fields in
  strictEq y (JSDate.getFullYear (Some today)) &&
  strictEq (JSNumber.minus mo 1) (JSDate.getMonth (Some today)).

Definition currentMonthLogs : list MoodLog := List.filter inCurrentMonth moodList.

Definition stats : list Stat :=
  [ {| label := "За 7 дней";
       average := getAverage currentWeekLogs;
       count := List.length currentWeekLogs |};
    {| label := "За месяц";
       average := getAverage currentMonthLogs;
       count := List.length currentMonthLogs |};
    {| label := "За всё время";
       average := getAverage moodList;
       count := List.length moodList |} ].

End Stats.

(** The test the view makes before showing an average: [stat.count > 0];
    otherwise it shows a dash and the caption for "no data". *)
Definition hasData (s : Stat) : bool := Nat.ltb 0 (count s).

(** A date in the form YYYY-MM-DD: four digits, two digits, two digits,
    separated by hyphens; the result is the year, the month (1..12 for a
    calendar date) and the day of the month. *)
Definition ymdOfString (s : string) : option (Z * Z * Z) :=
  match s with
  | String y1 (String y2 (String y3 (String y4 (String h1
    (String m1 (String m2 (String h2 (String d1 (String d2 EmptyString))))))))) =>
      if Ascii.eqb h1 "-" && Ascii.eqb h2 "-" then
        a ← JSNumber.digitValue y1; b ← JSNumber.digitValue y2;
        c ← JSNumber.digitValue y3; d ← JSNumber.digitValue y4;
        e ← JSNumber.digitValue m1; f ← JSNumber.digitValue m2;
        g ← JSNumber.digitValue d1; h ← JSNumber.digitValue d2;
        Some (1000 * a + 100 * b + 10 * c + d, 10 * e + f, 10 * g + h)
      else None
  | _ => None
  end.

(** The day number of the Monday that starts the ISO week (Monday to
    Sunday) of the time value [today]. *)
Definition weekStartDay (today : Z) : Z :=
  JSDate.Day today - (JSDate.WeekDay today + 6) mod 7.

(** The day number (days since the epoch) that [new Date(y, m - 1, d)]
    gives to the fields of a date: a year from 0 to 99 is read as
    1900 + year, months and days out of range carry over. *)
Definition dayOfYmd (y m d : Z) : Z :=
  JSDate.MakeDay (if (0 <=? y) && (y <=? 99) then 1900 + y else y) (m - 1) d.

End Profile.

(* ===================================================================== *)
(** * The hosted services

    The database is a JSON tree addressed by slash-separated paths, with
    point reads, point writes, point removals and value listeners; a node
    with no data under it does not exist.  The authentication provider
    keeps accounts (email, password, user identifier) and the signed-in
    user.  Both are reached over the network, so every request may fail:
    the outcomes of the coming requests are part of the state of the
    world.  An [async] function runs from its first to its last step;
    between two calls the SDK may deliver the first events of the
    listeners that await them ([firstEvents]). *)
(* ===================================================================== *)

Module Firebase.

Local Open Scope Z_scope.

(** A JSON value: what the database holds and what [snapshot.val()]
    returns.  Only integers occur as numbers. *)
Inductive JSON :=
| JString (s : string)
| JNumber (z : Z)
| JObject (fields : gmap string JSON).

Fixpoint json_eqb (a b : JSON) : bool :=
  match a, b with
  | JString s, JString t => bool_decide (s = t)
  | JNumber x, JNumber y => bool_decide (x = y)
  | JObject m, JObject n =>
      bool_decide (dom m = dom n) &&
      map_fold
        (fun k v acc =>
           acc && match n !! k with Some v' => json_eqb v v' | None => false end)
        true m
  | _, _ => false
  end.

(** The number of nodes of a value. *)
Fixpoint json_size (j : JSON) : nat :=
  match j with
  | JObject m => S (map_fold (fun _ v acc => json_size v + acc)%nat 0%nat m)
  | _ => 1%nat
  end.

(** A value read from the database, [None] being [null]. *)
Definition sameValue (a b : option JSON) : bool :=
  match a, b with
  | None, None => true
  | Some x, Some y => json_eqb x y
  | _, _ => false
  end.

(** [if (v)] on a value that may be [null] or [undefined]. *)
Definition truthy (v : option JSON) : bool :=
  match v with
  | None => false
  | Some (JString s) => JSString.truthy s
  | Some (JNumber z) => negb (z =? 0)
  | Some (JObject _) => true
  end.

(** [v?.key]: the property of an object; [undefined] on [null], on a
    missing property, and on strings and numbers (which have no own
    property of the names used in the sources). *)
Definition prop (v : option JSON) (key : string) : option JSON :=
  match v with
  | Some (JObject m) => m !! key
  | _ => None
  end.

(** ** Paths and the tree *)

(** The pieces of a path string: its parts between slashes, the empty
    ones dropped. *)
Definition pieces (path : string) : list string :=
  List.filter JSString.truthy (JSString.split "/" path).

(** The characters that the SDK refuses in a path: '.', '#', '$', '[',
    ']' and the control characters (U+0000 to U+001F, and U+007F), each of
    them one byte. *)
Definition invalidPathUnit (c : ascii) : bool :=
  let n := N_of_ascii c in
  ((n <? 32) || (n =? 127) || (n =? 46) || (n =? 35) || (n =? 36)
   || (n =? 91) || (n =? 93))%N.

(** The test [ref] and [child] make of their path argument: a string that
    is not empty and has none of the characters above.  On a path that
    fails it they throw. *)
Definition validPathString (path : string) : bool :=
  JSString.truthy path &&
  forallb (fun c => negb (invalidPathUnit c)) (list_ascii_of_string path).

(** A [DatabaseReference], by the pieces of its path.  [ref(db, path)],
    [ref(db)] and [child(parent, path)], on the paths that pass
    [validPathString]: the references they return there.  That they throw
    on the other paths is not part of these two functions; a statement
    that says what a call returns or writes for strings of the caller's
    choice assumes the strings valid (see [validKey] below), and one that
    needs no such assumption holds of a call that throws as well. *)
Definition ref (path : string) : list string := pieces path.
Definition rootRef : list string := [].
Definition child (parent : list string) (path : string) : list string :=
  parent ++ pieces path.

(** A single key of the tree: a piece of a path, not empty and without a
    slash. *)
Definition isKey (k : string) : bool :=
  JSString.truthy k && negb (JSString.includes k "/").

Definition children (t : option JSON) : gmap string JSON :=
  match t with
  | Some (JObject m) => m
  | _ => ∅
  end.

Fixpoint getAt (p : list string) (t : option JSON) : option JSON :=
  match p with
  | [] => t
  | k :: p' => getAt p' (children t !! k)
  end.

(** Replace the subtree at [p] by [v]; a string or number on the way
    becomes an object, and an object left without properties disappears. *)
Fixpoint setAt (p : list string) (v : option JSON) (t : option JSON)
  : option JSON :=
  match p with
  | [] => v
  | k :: p' =>
      let m := partial_alter (setAt p' v) k (children t) in
      if decide (m = ∅) then None else Some (JObject m)
  end.

(** The tree after a write of [v] ([None] to remove) at [p]. *)
Definition update (p : list string) (v : option JSON) (t : option JSON)
  : option JSON :=
  match v, getAt p t with
  | None, None => t
  | _, _ => setAt p v t
  end.

(** ** Functions passed to and returned by the SDK

    The sources create three closures, all in [subscribeToMoods]; the SDK
    returns a fourth one from [onValue].  A user callback is identified by
    a number, and its invocations are recorded in the world. *)
Inductive Fn :=
| SnapshotHandler (callback : nat)
    (* (snapshot) => { if (snapshot.exists()) callback(snapshot.val());
                       else callback({}); } *)
| Detach (r : list string) (handler : Fn)
    (* the function [onValue] returns: it detaches that registration *)
| OffListener (r : list string) (listener : Fn)
    (* () => off(moodsRef, 'value', listener) *)
| DoNothing.
    (* () => {} *)

Fixpoint Fn_eqb (f g : Fn) : bool :=
  match f, g with
  | SnapshotHandler a, SnapshotHandler b => Nat.eqb a b
  | Detach r h, Detach r' h' => bool_decide (r = r') && Fn_eqb h h'
  | OffListener r l, OffListener r' l' => bool_decide (r = r') && Fn_eqb l l'
  | DoNothing, DoNothing => true
  | _, _ => false
  end.

(** ** The authentication provider *)

Module User.
Record t := { uid : string; email : string }.
End User.

Record Account := { account_user : User.t; account_password : string }.

Record UserCredential := { user : option User.t }.

(** ** The console *)

Inductive Level := LogLevel | WarnLevel | ErrorLevel.

Record LogEntry := { level : Level; args : list string }.

(** ** The world *)

Record World := {
  db : option JSON;                      (* the root of the database *)
  listeners : list (list string * Fn);   (* value listeners, by reference *)
  awaiting : list (list string * Fn);    (* those whose first event is to come *)
  calls : list (nat * JSON);             (* user callback, argument; oldest first *)
  accounts : list Account;
  currentUser : option User.t;
  uidSupply : list string;               (* identifiers of the accounts to come *)
  faults : list (option string);         (* coming requests: [Some msg] fails *)
  console : list LogEntry                (* oldest first *)
}.

Definition withDb (d : option JSON) (w : World) : World :=
  {| db := d; listeners := listeners w; awaiting := awaiting w;
     calls := calls w;
     accounts := accounts w; currentUser := currentUser w;
     uidSupply := uidSupply w; faults := faults w; console := console w |}.

Definition withListeners (l : list (list string * Fn)) (w : World) : World :=
  {| db := db w; listeners := l; awaiting := awaiting w;
     calls := calls w;
     accounts := accounts w; currentUser := currentUser w;
     uidSupply := uidSupply w; faults := faults w; console := console w |}.

Definition withAwaiting (l : list (list string * Fn)) (w : World) : World :=
  {| db := db w; listeners := listeners w; awaiting := l;
     calls := calls w;
     accounts := accounts w; currentUser := currentUser w;
     uidSupply := uidSupply w; faults := faults w; console := console w |}.

Definition withCalls (c : list (nat * JSON)) (w : World) : World :=
  {| db := db w; listeners := listeners w; awaiting := awaiting w;
     calls := c;
     accounts := accounts w; currentUser := currentUser w;
     uidSupply := uidSupply w; faults := faults w; console := console w |}.

Definition withFaults (f : list (option string)) (w : World) : World :=
  {| db := db w; listeners := listeners w; awaiting := awaiting w;
     calls := calls w;
     accounts := accounts w; currentUser := currentUser w;
     uidSupply := uidSupply w; faults := f; console := console w |}.

Definition withConsole (c : list LogEntry) (w : World) : World :=
  {| db := db w; listeners := listeners w; awaiting := awaiting w;
     calls := calls w;
     accounts := accounts w; currentUser := currentUser w;
     uidSupply := uidSupply w; faults := faults w; console := c |}.

Definition withSession (a : list Account) (u : option User.t)
  (s : list string) (w : World) : World :=
  {| db := db w; listeners := listeners w; awaiting := awaiting w;
     calls := calls w;
     accounts := a; currentUser := u;
     uidSupply := s; faults := faults w; console := console w |}.

(** ** Computations: state, and exceptions

    An exception is identified with its [message]. *)

Inductive Result (A : Type) :=
| Ok (a : A)
| Throw (message : string).
Arguments Ok {A} a.
Arguments Throw {A} message.

Definition M (A : Type) : Type := World -> Result A * World.

#[global] Instance M_ret : MRet M := fun A a w => (Ok a, w).

#[global] Instance M_bind : MBind M := fun A B f m w =>
  match m w with
  | (Ok a, w') => f a w'
  | (Throw e, w') => (Throw e, w')
  end.

Definition throw {A} (message : string) : M A := fun w => (Throw message, w).

(** [try { body } catch (e) { handler(e) }] *)
Definition tryCatch {A} (body : M A) (handler : string -> M A) : M A :=
  fun w =>
    match body w with
    | (Ok a, w') => (Ok a, w')
    | (Throw e, w') => handler e w'
    end.

Definition getWorld : M World := fun w => (Ok w, w).
Definition putWorld (w : World) : M unit := fun _ => (Ok tt, w).

Definition consoleWrite (l : Level) (a : list string) : M unit :=
  w ← getWorld;
  putWorld (withConsole (console w ++ [ {| level := l; args := a |} ]) w).

Definition typeError {A} : M A := throw "TypeError".

(** One request to a hosted service: it takes the next outcome. *)
Definition request : M unit :=
  w ← getWorld;
  match faults w with
  | [] => mret tt
  | None :: rest => putWorld (withFaults rest w)
  | Some message :: rest => putWorld (withFaults rest w);; throw message
  end.

(** A world with no data, no account and no listener. *)
Definition emptyWorld : World :=
  {| db := None; listeners := []; awaiting := [];
     calls := []; accounts := [];
     currentUser := None; uidSupply := []; faults := []; console := [] |}.

(** No coming request fails. *)
Definition reliable (w : World) : Prop := faults w = [].

(** ** Database operations *)

(** An event for the function [f] registered as a value listener. *)
Definition deliver (f : Fn) (snapshot : option JSON) (w : World) : World :=
  match f with
  | SnapshotHandler callback =>
      let argument :=
        match snapshot with
        | Some v => v          (* snapshot.exists(): callback(snapshot.val()) *)
        | None => JObject ∅    (* callback({}) *)
        end in
      withCalls (calls w ++ [(callback, argument)]) w
  | _ => w
  end.

(** The registration of [f] at [r] has not received its first event. *)
Definition isAwaiting (r : list string) (f : Fn) (w : World) : bool :=
  existsb (fun '(r', f') => bool_decide (r' = r) && Fn_eqb f' f) (awaiting w).

(** The client holds the data at [r]: a listener that has received its
    first event is registered at [r] or above it. *)
Definition covered (r : list string) (w : World) : bool :=
  existsb
    (fun '(r', f) => bool_decide (r' `prefix_of` r) && negb (isAwaiting r' f w))
    (listeners w).

(** The tree changes from [old] to [new]: every listener that has
    received its first event and whose data changed receives the new
    data.  A listener that still awaits its first event receives nothing
    here: its first event carries the data of the time it is raised
    ([firstEvents]). *)
Definition notify (old new : option JSON) (w : World) : World :=
  fold_left
    (fun w' '(r, f) =>
       if isAwaiting r f w || sameValue (getAt r old) (getAt r new) then w'
       else deliver f (getAt r new) w')
    (listeners w) w.

(** The world after a write of [v] ([None] to remove) at [r]. *)
Definition written (r : list string) (v : option JSON) (w : World) : World :=
  let old := db w in
  let new := update r v old in
  notify old new (withDb new w).

Definition write (r : list string) (v : option JSON) : M unit :=
  w ← getWorld;
  putWorld (written r v w).

(** [get(ref)]: the snapshot, [None] when it does not exist. *)
Definition get (r : list string) : M (option JSON) :=
  request;;
  w ← getWorld;
  mret (getAt r (db w)).

(** [set(ref, value)] *)
Definition set (r : list string) (v : JSON) : M unit :=
  request;; write r (Some v).

(** [remove(ref)] *)
Definition remove (r : list string) : M unit :=
  request;; write r None.

(** [onValue(ref, handler)]: registers the handler.  The first event of
    a listener is raised when the client holds the data of its reference:
    within the call when it holds them already ([covered]), and otherwise
    after the call, when they arrive from the server ([firstEvents]). *)
Definition onValue (r : list string) (handler : Fn) : M Fn :=
  w ← getWorld;
  let registered := withListeners (listeners w ++ [(r, handler)]) w in
  (if covered r w
   then putWorld (deliver handler (getAt r (db w)) registered)
   else putWorld (withAwaiting (awaiting w ++ [(r, handler)]) registered));;
  mret (Detach r handler).

(** The data that the listeners await arrive: each of them receives its
    first event, with the data now at its reference.  This is a step of
    the SDK, between two calls of the sources. *)
Definition firstEvents : M unit :=
  w ← getWorld;
  putWorld
    (withAwaiting []
       (fold_left (fun w' '(r, f) => deliver f (getAt r (db w)) w')
          (awaiting w) w)).

(** [off(ref, 'value', callback)]: detaches the registrations of
    [callback] at [ref]. *)
Definition off (r : list string) (callback : Fn) : M unit :=
  w ← getWorld;
  let others :=
    List.filter
      (fun '(r', f) => negb (bool_decide (r' = r) && Fn_eqb f callback)) in
  putWorld
    (withAwaiting (others (awaiting w))
       (withListeners (others (listeners w)) w)).

(** A call, without arguments, of a function value. *)
Definition invoke (f : Fn) : M unit :=
  match f with
  | DoNothing => mret tt
  | OffListener r listener => off r listener
  | Detach r handler => off r handler
  | SnapshotHandler _ => typeError
  end.

(** ** Authentication operations *)

Definition hasEmail (e : string) (a : Account) : bool :=
  bool_decide (User.email (account_user a) = e).

(** [auth.signInWithEmailAndPassword(email, password)]; the email is
    whatever value the caller holds, possibly [undefined]. *)
Definition signInWithEmailAndPassword (email : option JSON) (password : string)
  : M UserCredential :=
  request;;
  w ← getWorld;
  match email with
  | Some (JString e) =>
      match List.find (fun a => hasEmail e a &&
                                bool_decide (account_password a = password))
                      (accounts w) with
      | Some a =>
          putWorld (withSession (accounts w) (Some (account_user a))
                                (uidSupply w) w);;
          mret {| user := Some (account_user a) |}
      | None => throw "auth/invalid-credential"
      end
  | _ => throw "auth/invalid-email"
  end.

(** [auth.createUserWithEmailAndPassword(email, password)] *)
Definition createUserWithEmailAndPassword (email password : string)
  : M UserCredential :=
  request;;
  w ← getWorld;
  if existsb (hasEmail email) (accounts w)
  then throw "auth/email-already-in-use"
  else
    match uidSupply w with
    | [] => throw "auth/internal-error"
    | uid :: rest =>
        let u := {| User.uid := uid; User.email := email |} in
        putWorld
          (withSession
             (accounts w ++ [ {| account_user := u; account_password := password |} ])
             (Some u) rest w);;
        mret {| user := Some u |}
    end.

End Firebase.

(* ===================================================================== *)
(** * [services/db.ts] *)
(* ===================================================================== *)

Module Db.

Import Firebase.

(** A [UserProfile] and a [MoodLog] as the values handed to [set]. *)
Definition jsonOfProfile (p : Types.UserProfile) : JSON :=
  JObject {[ "uid" := JString (Types.uid p);
             "email" := JString (Types.email p);
             "username" := JString (Types.username p) ]}.

Definition jsonOfMood (m : Types.MoodLog) : JSON :=
  JObject {[ "date" := JString (Types.date m);
             "value" := JNumber (Types.MoodValue_toZ (Types.value m));
             "timestamp" := JNumber (Types.timestamp m) ]}.

(** [!userId || userId.includes('.') || userId.includes('@')] *)
Definition emptyOrReserved (userId : string) : bool :=
  negb (JSString.truthy userId) ||
  JSString.includes userId "." || JSString.includes userId "@".

(** [userId.includes('.') || userId.includes('@')] *)
Definition reserved (userId : string) : bool :=
  JSString.includes userId "." || JSString.includes userId "@".

(** Store mapping: username -> uid *)
Definition registerUsername (username email uid : string) : M unit :=
  let normalizedUsername := JSString.trim (JSString.toLowerCase username) in
  let usernameRef := ref ("usernames/" +:+ normalizedUsername) in
  set usernameRef (JString uid).

Definition getUidByUsername (username : string) : M (option JSON) :=
  let normalizedUsername := JSString.trim (JSString.toLowerCase username) in
  let dbRef := rootRef in
  snapshot ← get (child dbRef ("usernames/" +:+ normalizedUsername));
  match snapshot with
  | Some val => mret (Some val)
  | None => mret None
  end.

Definition saveUserProfile (userId : string) (profile : Types.UserProfile)
  : M unit :=
  if reserved userId then
    consoleWrite WarnLevel
      ["Attempted to save profile with invalid path characters, skipping:";
       userId]
  else
    let userRef := ref ("users/" +:+ userId +:+ "/profile") in
    set userRef (jsonOfProfile profile).

Definition getUserProfile (userId : string) : M (option JSON) :=
  if emptyOrReserved userId then mret None
  else
    let dbRef := rootRef in
    tryCatch
      (snapshot ← get (child dbRef ("users/" +:+ userId +:+ "/profile"));
       match snapshot with
       | Some val => mret (Some val)
       | None => mret None
       end)
      (fun e =>
         consoleWrite ErrorLevel ["Error fetching user profile:"; e];;
         mret None).

Definition saveMood (userId : string) (mood : Types.MoodLog) : M unit :=
  if reserved userId then mret tt
  else
    let moodRef := ref ("users/" +:+ userId +:+ "/moods/" +:+ Types.date mood) in
    set moodRef (jsonOfMood mood).

Definition deleteMood (userId : string) (dateStr : string) : M unit :=
  if reserved userId then mret tt
  else
    let moodRef := ref ("users/" +:+ userId +:+ "/moods/" +:+ dateStr) in
    remove moodRef.

(** The user callback is given by its number; the result is the
    function returned to the caller. *)
Definition subscribeToMoods (userId : string) (callback : nat) : M Fn :=
  if emptyOrReserved userId then
    w ← getWorld;
    putWorld (withCalls (calls w ++ [(callback, JObject ∅)]) w);;
    mret DoNothing
  else
    let moodsRef := ref ("users/" +:+ userId +:+ "/moods") in
    listener ← onValue moodsRef (SnapshotHandler callback);
    mret (OffListener moodsRef listener).

Definition getUserMoods (userId : string) : M JSON :=
  if emptyOrReserved userId then mret (JObject ∅)
  else
    let dbRef := rootRef in
    tryCatch
      (snapshot ← get (child dbRef ("users/" +:+ userId +:+ "/moods"));
       match snapshot with
       | Some val => mret val
       | None => mret (JObject ∅)
       end)
      (fun e =>
         consoleWrite ErrorLevel ["Error fetching user moods:"; e];;
         mret (JObject ∅)).

Definition getEmailByUsername (username : string) : M (option JSON) :=
  uid ← getUidByUsername username;
  if truthy uid then
    match uid with
    | Some (JString value) =>
        if negb (JSString.includes value "@") then
          profile ← getUserProfile value;
          mret (if truthy profile then prop profile "email" else None)
        else
          (* Fallback for legacy data *)
          mret uid
    | _ => typeError      (* uid.includes is not a function *)
    end
  else mret None.

End Db.

(* ===================================================================== *)
(** * [components/Auth.tsx]: the two form handlers *)
(* ===================================================================== *)

Module Auth.

Import Firebase Db.

(** The state of the [Auth] component that the handlers read and set. *)
Record Form := {
  loading : bool;
  error : string;
  email : string;
  username : string;
  password : string;
  confirmPassword : string
}.

Definition setLoading (b : bool) (f : Form) : Form :=
  {| loading := b; error := error f; email := email f;
     username := username f; password := password f;
     confirmPassword := confirmPassword f |}.

Definition setError (e : string) (f : Form) : Form :=
  {| loading := loading f; error := e; email := email f;
     username := username f; password := password f;
     confirmPassword := confirmPassword f |}.

(** The inner [try]/[catch] of [handleLogin], under AUTO-REPAIR LOGIC: we
    logged in using a legacy username mapping, we have the real UID and
    the username, and fix the mapping now. *)
Definition autoRepair (usernameInput loginEmail : string) (u : User.t)
  : M unit :=
  tryCatch
    (consoleWrite LogLevel
       ["Fixing legacy username mapping for:"; usernameInput];;
     registerUsername usernameInput loginEmail (User.uid u);;
     (* Also ensure profile exists at the correct UID path *)
     saveUserProfile (User.uid u)
       {| Types.uid := User.uid u;
          Types.email := loginEmail;
          Types.username := usernameInput |};;
     consoleWrite LogLevel ["Legacy username fixed successfully."])
    (fun fixErr =>
       consoleWrite ErrorLevel
         ["Failed to auto-fix legacy username:"; fixErr]).

(** The body of the outer [try] block of [handleLogin]. *)
Definition handleLogin_try (f : Form) : M unit :=
  let loginEmail := Some (JString (email f)) in
  let usernameInput := JSString.trim (email f) in
  resolved ←
    (* Check if input is a username (doesn't contain @) *)
    (if negb (JSString.includes (email f) "@") then
       lookupValue ← getUidByUsername usernameInput;
       if negb (truthy lookupValue) then
         throw "Пользователь с таким юзернеймом не найден"
       else
         match lookupValue with
         | Some (JString value) =>
             (* Handle Legacy Data: If lookupValue contains @, it's an
                email (Old Format) *)
             if JSString.includes value "@" then mret (lookupValue, true)
             else
               (* It's a proper UID, fetch profile to get email for login *)
               profile ← getUserProfile value;
               if truthy (prop profile "email") then
                 mret (prop profile "email", false)
               else throw "Не удалось получить почту для этого юзернейма"
         | _ => typeError      (* lookupValue.includes is not a function *)
         end
     else mret (loginEmail, false));
  let loginEmail : option JSON := fst resolved in
  let isLegacyUser : bool := snd resolved in
  (* Perform Login *)
  userCredential ← signInWithEmailAndPassword loginEmail (password f);
  (* --- AUTO-REPAIR LOGIC --- *)
  match user userCredential with
  | Some u =>
      if isLegacyUser then
        match loginEmail with
        | Some (JString loginEmail) =>
            if Bool.eqb (negb (JSString.includes loginEmail "@")) false then
              autoRepair usernameInput loginEmail u
            else mret tt
        | _ => typeError    (* loginEmail.includes is not a function *)
        end
      else mret tt
  | None => mret tt
  end.

Definition handleLogin (f : Form) (w : World) : Form * World :=
  let f := setLoading true f in
  let f := setError "" f in
  match handleLogin_try f w with
  | (Ok _, w) => (setLoading false f, w)
  | (Throw err, w) =>
      let w := snd (consoleWrite ErrorLevel [err] w) in
      let f := setError "Ошибка входа. Проверьте данные." f in
      (setLoading false f, w)
  end.

(** The body of the [try] block of [handleRegister]. *)
Definition handleRegister_try (f : Form) : M unit :=
  existingUid ← getUidByUsername (username f);
  if truthy existingUid then throw "Этот юзернейм уже занят"
  else
    userCredential ← createUserWithEmailAndPassword (email f) (password f);
    let user := user userCredential in
    match user with
    | Some user =>
        registerUsername (username f) (email f) (User.uid user);;
        saveUserProfile (User.uid user)
          {| Types.uid := User.uid user;
             Types.email := email f;
             Types.username := username f |}
    | None => mret tt
    end.

Definition handleRegister (f : Form) (w : World) : Form * World :=
  let f := setLoading true f in
  let f := setError "" f in
  if Nat.ltb (JSString.length (username f)) 3 then
    let f := setError "Юзернейм слишком короткий" f in
    (setLoading false f, w)
  else if negb (bool_decide (password f = confirmPassword f)) then
    let f := setError "Пароли не совпадают" f in
    (setLoading false f, w)
  else
    match handleRegister_try f w with
    | (Ok _, w) => (setLoading false f, w)
    | (Throw err, w) =>
        let w := snd (consoleWrite ErrorLevel [err] w) in
        let f :=
          setError (if JSString.truthy err then err else "Ошибка регистрации") f in
        (setLoading false f, w)
    end.

End Auth.

(* ===================================================================== *)
(** * [components/Profile.tsx]: the history and the header *)
(* ===================================================================== *)

Module ProfileDisplay.

Local Open Scope Z_scope.

(** One step of a stable sort with the comparator
    [(a, b) => b.timestamp - a.timestamp]: [a], which came before every
    element of [sorted], goes in front of the first [b] that the
    comparator does not put before it. *)
Fixpoint insertByTimestamp (a : Types.MoodLog) (sorted : list Types.MoodLog)
  : list Types.MoodLog :=
  match sorted with
  | [] => [a]
  | b :: rest =>
      if Types.timestamp b - Types.timestamp a <=? 0 then a :: sorted
      else b :: insertByTimestamp a rest
  end.

(** [[...moodList].sort((a, b) => b.timestamp - a.timestamp)].
    [Array.prototype.sort] is stable, and the comparator is a total
    preorder, so the result is the one stable sorting of the list, which
    insertion from the right computes. *)
Definition sortedMoods (moodList : list Types.MoodLog) : list Types.MoodLog :=
  fold_right insertByTimestamp [] moodList.

(** The [user] prop: [{ email: string | null; username?: string; uid }]. *)
Record User := {
  email : option string;
  username : option string;
  uid : string
}.

(** [user.username || user.email?.split('@')[0] || 'Пользователь'] *)
Definition displayName (user : User) : string :=
  let fromEmail :=
    match email user with
    | Some e =>
        let name := hd EmptyString (JSString.split "@" e) in
        if JSString.truthy name then name else "Пользователь"
    | None => "Пользователь"
    end in
  match username user with
  | Some name => if JSString.truthy name then name else fromEmail
  | None => fromEmail
  end.

End ProfileDisplay.

(* ===================================================================== *)
(** * [components/Search.tsx] *)
(* ===================================================================== *)

Module Search.

Import Firebase Db.

(** The state of the [Search] component; [foundUser] holds the profile
    and the moods it was given. *)
Record State := {
  query : string;
  loading : bool;
  error : string;
  foundUser : option (JSON * JSON)
}.

Definition setLoading (b : bool) (s : State) : State :=
  {| query := query s; loading := b; error := error s;
     foundUser := foundUser s |}.

Definition setError (e : string) (s : State) : State :=
  {| query := query s; loading := loading s; error := e;
     foundUser := foundUser s |}.

Definition setFoundUser (u : option (JSON * JSON)) (s : State) : State :=
  {| query := query s; loading := loading s; error := error s;
     foundUser := u |}.

(** The body of the [try] block of [handleSearch]; the two reads of
    [Promise.all] are issued in the order of the array. *)
Definition handleSearch_try (query : string) : M (JSON * JSON) :=
  uid ← getUidByUsername query;
  if negb (truthy uid) then throw "Пользователь не найден"
  else
    match uid with
    | Some (JString uid) =>
        (* Check for legacy format (email instead of UID) *)
        if JSString.includes uid "@" || JSString.includes uid "." then
          throw "Профиль пользователя устарел. Владелец должен войти в систему, чтобы обновить данные."
        else
          profile ← getUserProfile uid;
          moods ← getUserMoods uid;
          match profile with
          | Some p =>
              if negb (truthy profile) then throw "Данные профиля недоступны"
              else mret (p, moods)
          | None => throw "Данные профиля недоступны"
          end
    | _ => typeError      (* uid.includes is not a function *)
    end.

Definition handleSearch (s : State) (w : World) : State * World :=
  if negb (JSString.truthy (JSString.trim (query s))) then (s, w)
  else
    let s := setLoading true s in
    let s := setError "" s in
    let s := setFoundUser None s in
    match handleSearch_try (query s) w with
    | (Ok found, w) => (setLoading false (setFoundUser (Some found) s), w)
    | (Throw err, w) =>
        let s :=
          setError (if JSString.truthy err then err else "Ошибка поиска") s in
        (setLoading false s, w)
    end.

End Search.

(* ===================================================================== *)
(** * [App.tsx]: the handlers of the mood modal and of the calendar *)
(* ===================================================================== *)

Module App.

Import Firebase Db.

(** The state the handlers read and set. *)
Record State := {
  user : option User.t;
  selectedDateStr : option string;
  isModalOpen : bool;
  tempMood : Types.MoodValue
}.

Definition setIsModalOpen (b : bool) (a : State) : State :=
  {| user := user a; selectedDateStr := selectedDateStr a;
     isModalOpen := b; tempMood := tempMood a |}.

(** [!user || !selectedDateStr]: a date that is [null] or empty. *)
Definition nothingSelected (a : State) : bool :=
  match user a, selectedDateStr a with
  | Some _, Some d => negb (JSString.truthy d)
  | _, _ => true
  end.

(** [handleSaveMood]; [now] is the value of [Date.now()].  A failure of
    [saveMood] is not caught: it leaves the handler. *)
Definition handleSaveMood (now : Z) (a : State) : M State :=
  match user a, selectedDateStr a with
  | Some u, Some selected =>
      if nothingSelected a then mret a
      else
        let moodLog :=
          {| Types.date := selected; Types.value := tempMood a;
             Types.timestamp := now |} in
        saveMood (User.uid u) moodLog;;
        mret (setIsModalOpen false a)
  | _, _ => mret a
  end.

Definition handleDeleteMood (a : State) : M State :=
  match user a, selectedDateStr a with
  | Some u, Some selected =>
      if nothingSelected a then mret a
      else
        tryCatch
          (deleteMood (User.uid u) selected;;
           mret (setIsModalOpen false a))
          (fun error =>
             consoleWrite ErrorLevel ["Error deleting mood:"; error];;
             mret a)
  | _, _ => mret a
  end.

(** [handleChangeMonth]: the new value of [currentDate]. *)
Definition handleChangeMonth (offset : Z) (currentDate : JSDate.Date)
  : JSDate.Date :=
  let newDate := currentDate in
  JSDate.setMonth newDate (JSNumber.plus (JSDate.getMonth newDate) offset).

End App.

(* ===================================================================== *)
(** * [components/Calendar.tsx]: the grid of the month *)
(* ===================================================================== *)

Module Calendar.

Local Open Scope Z_scope.

(** A slot of the grid: [{ day: null }] or [{ day, dateStr }]. *)
Inductive Slot :=
| EmptySlot
| DaySlot (day : Z) (dateStr : string).

Section Grid.

(** The time value of the [currentDate] prop. *)
Variable currentDate : Z.

Definition year : Z := JSDate.YearFromTime currentDate.
Definition month : Z := JSDate.MonthFromTime currentDate.

Definition daysInMonth : JSNumber.int :=
  JSDate.getDate (JSDate.newDate (Some year) (Some (month + 1)) (Some 0)).

(** 0 = Sun, 1 = Mon... *)
Definition firstDayOfMonth : JSNumber.int :=
  JSDate.getDay (JSDate.newDate (Some year) (Some month) (Some 1)).

(** Adjust for Monday start *)
Definition startDayOffset : JSNumber.int :=
  match firstDayOfMonth with
  | Some d => if d =? 0 then Some 6 else Some (d - 1)
  | None => None
  end.

(** Format YYYY-MM-DD *)
Definition dateStr (i : Z) : string :=
  JSNumber.toString year +:+ "-" +:+
  JSString.padStart 2 "0" (JSNumber.toString (month + 1)) +:+ "-" +:+
  JSString.padStart 2 "0" (JSNumber.toString i).

(** The two loops; a bound that is NaN ends its loop at once. *)
Definition calendarDays : list Slot :=
  match startDayOffset with
  | Some n => repeat EmptySlot (Z.to_nat n)
  | None => []
  end ++
  match daysInMonth with
  | Some n => map (fun i => DaySlot i (dateStr i)) (seqZ 1 n)
  | None => []
  end.

End Grid.

End Calendar.

(* ===================================================================== *)
(** * Vocabulary of the statements *)
(* ===================================================================== *)

Module Invariants.

Import Firebase.

(** The normalized form of a username: the key of its mapping. *)
Definition normalized (username : string) : string :=
  JSString.trim (JSString.toLowerCase username).

(** A string made of white space only. *)
Definition blank (s : string) : bool :=
  forallb JSString.isWhiteSpace (JSString.chars s).

(** A piece that is cut the same way whatever follows it: a first byte
    and exactly the continuation bytes that it announces. *)
Definition whole (piece : string) : bool :=
  match piece with
  | EmptyString => false
  | String c r =>
      Nat.eqb (String.length r) (JSString.following c)
      && JSString.continued (JSString.following c) r
  end.

(** A list of pieces that is the cut of the string it spells: each piece
    is whole, or is a first byte whose continuation bytes are not there. *)
Fixpoint wellCut (pieces : list string) : Prop :=
  match pieces with
  | [] => True
  | piece :: rest =>
      (whole piece = true
       \/ exists c, piece = String c EmptyString /\
                    JSString.continued (JSString.following c)
                      (JSString.join rest) = false)
      /\ wellCut rest
  end.

(** The first byte of the string is no continuation byte, or there is
    none. *)
Definition plainStart (s : string) : bool :=
  match s with
  | EmptyString => true
  | String c _ => negb (JSString.isContinuation c)
  end.

(** A code point that [toLowerCase] leaves as it is, wherever it
    stands. *)
Definition settledPoint (cp : N) : bool :=
  negb (cp =? 931)%N && negb (cp =? 304)%N
  && (JSString.simpleLower cp =? cp)%N.

Definition settled (piece : string) : bool :=
  match JSString.codePoint piece with
  | Some cp => settledPoint cp
  | None => true
  end.

(** The code points of a run of [lowerRuns] go to these. *)
Definition runImage (run : N * N * N * N) : list N :=
  let '(first, last, step, target) := run in
  map (fun i => (target + step * N.of_nat i)%N)
      (seq 0 (S (N.to_nat ((last - first) / step)))).

(** The code points that [lowerPiece] writes. *)
Definition lowerImages : list N :=
  flat_map runImage JSString.lowerRuns ++ [962; 963; 105; 775]%N.

(** What the proofs use of a code point that [lowerPiece] writes: its
    UTF-8 form is a whole piece that starts with no continuation byte and
    reads back as the code point, which is settled and is not white
    space. *)
Definition plainImage (cp : N) : bool :=
  whole (JSString.encode cp)
  && match JSString.codePoint (JSString.encode cp) with
     | Some cp' => (cp' =? cp)%N
     | None => false
     end
  && settledPoint cp
  && negb (JSString.isWhiteSpace (JSString.encode cp))
  && plainStart (JSString.encode cp).

(** What the proofs use of a white space: its UTF-8 form is a whole
    piece that starts with no continuation byte, it is settled, and it is
    not a cased letter. *)
Definition plainSpace (cp : N) : bool :=
  whole (JSString.encode cp)
  && settledPoint cp
  && negb (JSString.casedLetter cp)
  && plainStart (JSString.encode cp).

(** The list is empty or ends with a piece that is not white space. *)
Definition endsPlain (pieces : list string) : bool :=
  match last pieces with
  | Some piece => negb (JSString.isWhiteSpace piece)
  | None => true
  end.

(** The list is empty or starts with a piece that is not white space. *)
Definition startsPlain (pieces : list string) : bool :=
  match pieces with
  | piece :: _ => negb (JSString.isWhiteSpace piece)
  | [] => true
  end.

(** A string that the SDK and the store accept as one piece of a path,
    whatever the rest of the paths built here: not empty, without '/',
    without the characters on which [ref] and [child] throw, and of at
    most 128 bytes, so that a path made of two such keys and of the
    fixed pieces of the sources stays below the 768 bytes beyond which
    [set] and [remove] throw. *)
Definition validKey (k : string) : bool :=
  isKey k && validPathString k && Nat.leb (String.length k) 128.

(** A string that [set] accepts as a value: of at most 2^20 bytes
    ([set] throws on a string of more than 10 MB in UTF-8). *)
Definition storable (s : string) : bool :=
  (N.of_nat (String.length s) <=? 1048576)%N.

(** Every profile in the tree sits under the user identifier that its
    own [uid] property names. *)
Definition profilesKeyedByUid (t : option JSON) : Prop :=
  forall u p,
    getAt ["users"; u; "profile"] t = Some p ->
    prop (Some p) "uid" = Some (JString u).

(** The identifiers the authentication provider hands out are single
    keys. *)
Definition uidsAreKeys (w : World) : Prop :=
  Forall (fun a => isKey (User.uid (account_user a)) = true) (accounts w) /\
  Forall (fun u => isKey u = true) (uidSupply w).

(** The user of a credential, if any, has a single key as identifier. *)
Definition keyOwner (c : UserCredential) : Prop :=
  forall u, user c = Some u -> isKey (User.uid u) = true.

(** The two properties above, as one invariant of the world. *)
Definition profileInvariant (w : World) : Prop :=
  uidsAreKeys w /\ profilesKeyedByUid (db w).

(** The computation [m] keeps the property [I] of the world, whether it
    returns or throws, and the value it returns satisfies [Q]. *)
Definition keeps (I : World -> Prop) {A} (m : M A) (Q : A -> Prop) : Prop :=
  forall w,
    I w -> I (snd (m w)) /\ forall a, fst (m w) = Ok a -> Q a.

(** [I] does not depend on the console, on the coming faults, on the
    listeners or on the recorded calls. *)
Definition aboutData (I : World -> Prop) : Prop :=
  forall w,
    I w ->
    (forall c, I (withConsole c w)) /\ (forall f, I (withFaults f w)) /\
    (forall c, I (withCalls c w)) /\ (forall l, I (withListeners l w)).

(** [I] survives a write of [v] at [r]. *)
Definition survivesWrite (I : World -> Prop) (r : list string)
  (v : option JSON) : Prop :=
  forall w, I w -> I (withDb (update r v (db w)) w).

(** The data of [w'] is that of [w]: same tree, same accounts, same
    signed-in user, same identifiers to come. *)
Definition sameData (w w' : World) : Prop :=
  db w' = db w /\ accounts w' = accounts w /\
  currentUser w' = currentUser w /\ uidSupply w' = uidSupply w.

(** The session: the accounts and the signed-in user are those given. *)
Definition sessionIs (a : list Account) (u : option User.t) (w : World)
  : Prop :=
  accounts w = a /\ currentUser w = u.

(** The mood collection a listener or a reader of [users/{userId}/moods]
    sees: the value there, or the empty object. *)
Definition moodCollection (userId : string) (w : World) : JSON :=
  match getAt (ref ("users/" +:+ userId +:+ "/moods")) (db w) with
  | Some v => v
  | None => JObject ∅
  end.

(** The argument of the last call of the user callback [callback]:
    what a mirror that the callback sets holds. *)
Definition lastCall (callback : nat) (w : World) : option JSON :=
  snd <$> last (List.filter (fun c => Nat.eqb (fst c) callback) (calls w)).

(** The callback [callback] listens at the reference [r] and nowhere
    else. *)
Definition listensOnlyAt (callback : nat) (r : list string) (w : World)
  : Prop :=
  In (r, SnapshotHandler callback) (listeners w) /\
  forall r', In (r', SnapshotHandler callback) (listeners w) -> r' = r.

(** The mirror fed by [subscribeToMoods userId callback] is up to date:
    the callback listens at the user's moods and nowhere else, no
    registration of it awaits its first event, and what it was last given
    is the stored collection. *)
Definition mirrored (userId : string) (callback : nat) (w : World) : Prop :=
  listensOnlyAt callback (ref ("users/" +:+ userId +:+ "/moods")) w /\
  (forall r, isAwaiting r (SnapshotHandler callback) w = false) /\
  lastCall callback w = Some (moodCollection userId w).

(** From a world satisfying [P], the computation [m] either returns [a]
    in a world satisfying [Q a], or throws [e] in a world satisfying
    [E e]. *)
Definition runs {A} (P : World -> Prop) (m : M A)
  (Q : A -> World -> Prop) (E : string -> World -> Prop) : Prop :=
  forall w,
    P w ->
    match m w with
    | (Ok a, w') => Q a w'
    | (Throw e, w') => E e w'
    end.

(** Only the console and the coming faults of [w'] differ from those of
    [w]. *)
Definition sameButLog (w w' : World) : Prop :=
  sameData w w' /\ listeners w' = listeners w /\ calls w' = calls w
  /\ awaiting w' = awaiting w.

(** The number of days of month [m] (0..11) of a year of [days] days. *)
Definition monthLength (m days : Z) : Z :=
  (if m =? 1 then (if days =? 366 then 29 else 28)
   else if (m =? 3) || (m =? 5) || (m =? 8) || (m =? 10) then 30
   else 31)%Z.

(** The timestamps of a list go down (weakly). *)
Fixpoint descending (l : list Types.MoodLog) : Prop :=
  match l with
  | [] => True
  | a :: rest =>
      Forall (fun b => (Types.timestamp b <= Types.timestamp a)%Z) rest /\
      descending rest
  end.

End Invariants.

(* ===================================================================== *)
(** * Sample worlds and forms *)
(* ===================================================================== *)

Module Samples.

Import Firebase Auth.

(** The username [bob] still maps to an email: a legacy mapping. *)
Definition legacyWorld : World :=
  {| db := setAt ["usernames"; "bob"] (Some (JString "bob@x.org")) None;
     listeners := []; awaiting := []; calls := [];
     accounts :=
       [ {| account_user := {| User.uid := "UB"; User.email := "bob@x.org" |};
            account_password := "pw" |} ];
     currentUser := None; uidSupply := []; faults := []; console := [] |}.

Definition legacyForm : Form :=
  {| loading := false; error := ""; email := " Bob "; username := "";
     password := "pw"; confirmPassword := "" |}.

(** The username [alice] is taken. *)
Definition takenWorld : World :=
  {| db := setAt ["usernames"; "alice"] (Some (JString "u1")) None;
     listeners := []; awaiting := []; calls := []; accounts := [];
     currentUser := None;
     uidSupply := ["u2"]; faults := []; console := [] |}.

(** The username [alice] is mapped already, to the empty string. *)
Definition emptyMappingWorld : World :=
  {| db := setAt ["usernames"; "alice"] (Some (JString "")) None;
     listeners := []; awaiting := []; calls := []; accounts := [];
     currentUser := None;
     uidSupply := ["u2"]; faults := []; console := [] |}.

Definition takenForm : Form :=
  {| loading := false; error := ""; email := "b@x.org"; username := "Alice";
     password := "pw"; confirmPassword := "pw" |}.

(** Nobody is registered; the provider will hand out [u1]. *)
Definition freshWorld : World :=
  {| db := None; listeners := []; awaiting := [];
     calls := []; accounts := [];
     currentUser := None; uidSupply := ["u1"]; faults := []; console := [] |}.

Definition freshForm : Form :=
  {| loading := false; error := ""; email := "a@x.org"; username := " Alice";
     password := "pw"; confirmPassword := "pw" |}.

Definition may1 : Types.MoodLog :=
  {| Types.date := "2024-05-01"; Types.value := Types.VeryGood;
     Types.timestamp := 1714557600000 |}.

Definition may1Later : Types.MoodLog :=
  {| Types.date := "2024-05-01"; Types.value := Types.Bad;
     Types.timestamp := 1714561200000 |}.

End Samples.

(* ===================================================================== *)
(** * Facts and theorems *)
(* ===================================================================== *)

Import Types Firebase.
Local Open Scope Z_scope.

(* ===================================================================== *)
(** * Strings: pieces, case and white space *)
(* ===================================================================== *)

Module PieceFacts.
Import JSString Invariants.

Lemma append_nil_r (s : string) : s +:+ EmptyString = s.
Proof.
  induction s as [|c s IH]; [done|].
  cbn. unfold String.append in *. simpl. by rewrite IH.
Qed.

Lemma append_assoc (a b c : string) : (a +:+ b) +:+ c = a +:+ (b +:+ c).
Proof.
  induction a as [|x a IH]; [done|].
  cbn. unfold String.append in *. simpl. by rewrite IH.
Qed.

Lemma append_cancel (a x y : string) : a +:+ x = a +:+ y -> x = y.
Proof.
  induction a as [|c a IH]; [done|].
  cbn. unfold String.append in *. simpl. intros [= H]. by apply IH.
Qed.

Lemma append_cons c (a b : string) : String c a +:+ b = String c (a +:+ b).
Proof. reflexivity. Qed.

Lemma length_append (a b : string) :
  String.length (a +:+ b) = (String.length a + String.length b)%nat.
Proof.
  induction a as [|c a IH]; [done|].
  rewrite append_cons. cbn [String.length]. by rewrite IH.
Qed.

Lemma substring_cons c n (s : string) :
  substring 0 (S n) (String c s) = String c (substring 0 n s).
Proof. reflexivity. Qed.

Lemma continued_cons n c (s : string) :
  continued (S n) (String c s) = isContinuation c && continued n s.
Proof. reflexivity. Qed.

Lemma forallb_of_Forall {A} (f : A -> bool) (l : list A) :
  Forall (fun x => f x = true) l -> forallb f l = true.
Proof.
  induction 1 as [|x l Hx _ IH]; [done|]. cbn [forallb]. by rewrite Hx, IH.
Qed.

Lemma Forall_of_forallb {A} (f : A -> bool) (l : list A) :
  forallb f l = true -> Forall (fun x => f x = true) l.
Proof.
  induction l as [|x l IH]; [constructor|]. cbn [forallb].
  intros [Hx Hl]%andb_true_iff. constructor; [done | by apply IH].
Qed.

Lemma join_app (a b : list string) : join (a ++ b) = join a +:+ join b.
Proof.
  induction a as [|x a IH]; [done|]. simpl. fold (join (a ++ b)) (join a).
  by rewrite IH, append_assoc.
Qed.

Lemma join_cons (t : string) (ts : list string) : join (t :: ts) = t +:+ join ts.
Proof. reflexivity. Qed.

(** ** Continuation bytes *)

Lemma following_continuation c : isContinuation c = true -> following c = 0%nat.
Proof.
  unfold isContinuation, following.
  intros [_ H%N.ltb_lt]%andb_true_iff.
  destruct (N.ltb_spec (byte c) 194); [done|lia].
Qed.

Lemma continued_app n : forall a b,
  continued n a = true -> continued n (a +:+ b) = true.
Proof.
  induction n as [|n IH]; intros a b; [done|].
  destruct a as [|c a]; [done|]. simpl.
  intros [-> H]%andb_true_iff. by rewrite (IH _ _ H).
Qed.

Lemma continued_substring n : forall a b,
  continued n a = true ->
  substring 0 n (a +:+ b) = substring 0 n a
  /\ String.length (substring 0 n a) = n.
Proof.
  induction n as [|n IH]; intros a b.
  - intros _. by destruct a, b.
  - destruct a as [|c a]; [done|]. simpl.
    intros [_ H]%andb_true_iff.
    destruct (IH a b H) as [-> ->]. done.
Qed.

Lemma continued_app_plain n : forall a b,
  plainStart b = true -> continued n (a +:+ b) = continued n a.
Proof.
  induction n as [|n IH]; intros a b Hb; [done|].
  destruct a as [|c a].
  - simpl. destruct b as [|c b]; [done|]. simpl in *.
    by destruct (isContinuation c).
  - simpl. by rewrite (IH a b Hb).
Qed.

(** ** The cut of a string *)

Lemma chars_cons c r :
  chars (String c r)
  = if continued (following c) r
    then String c (substring 0 (following c) r) :: drop (following c) (chars r)
    else String c EmptyString :: chars r.
Proof. reflexivity. Qed.

Lemma chars_plain_byte c r :
  following c = 0%nat -> chars (String c r) = String c EmptyString :: chars r.
Proof. intros H. rewrite chars_cons, H. simpl. by destruct r. Qed.

Lemma chars_continuation c r :
  isContinuation c = true -> chars (String c r) = String c EmptyString :: chars r.
Proof. intros H. apply chars_plain_byte, following_continuation, H. Qed.

(** When [n] continuation bytes start [r], they are its first [n]
    pieces. *)
Lemma chars_continued n : forall r,
  continued n r = true ->
  exists front y,
    r = substring 0 n r +:+ y /\ chars r = front ++ chars y
    /\ List.length front = n.
Proof.
  induction n as [|n IH]; intros r H.
  - exists [], r. by destruct r.
  - destruct r as [|c r]; [done|]. simpl in H.
    apply andb_true_iff in H as [Hc H].
    destruct (IH r H) as (front & y & Hr & Hcut & Hlen).
    exists (String c EmptyString :: front), y.
    rewrite (chars_continuation c r Hc), substring_cons, append_cons.
    split; [by rewrite <- Hr|]. split; [by rewrite Hcut|].
    cbn [List.length]. by rewrite Hlen.
Qed.

Lemma whole_cut t y : whole t = true -> chars (t +:+ y) = t :: chars y.
Proof.
  destruct t as [|c r]; [done|]. cbn [whole].
  intros [Hlen%Nat.eqb_eq Hc]%andb_true_iff.
  rewrite append_cons, chars_cons, (continued_app _ r y Hc).
  destruct (continued_substring _ r y Hc) as [Hsub Hn].
  destruct (chars_continued _ (r +:+ y) (continued_app _ r y Hc))
    as (front & y' & Hr & Hcut & Hfront).
  rewrite Hsub in *.
  assert (substring 0 (following c) r = r) as Hall.
  { rewrite <- Hlen. clear. induction r as [|x r IH]; [done|].
    cbn [String.length]. by rewrite substring_cons, IH. }
  rewrite Hall in *. apply append_cancel in Hr as <-.
  by rewrite Hcut, (drop_app_length' front _ _ (eq_sym Hfront)).
Qed.

Lemma wholes_cut ts y :
  Forall (fun t => whole t = true) ts -> chars (join ts +:+ y) = ts ++ chars y.
Proof.
  induction 1 as [|t ts Ht _ IH]; [done|].
  rewrite join_cons, append_assoc, (whole_cut _ _ Ht), IH. done.
Qed.

Lemma join_chars s : join (chars s) = s.
Proof.
  assert (H : forall k s, (String.length s <= k)%nat -> join (chars s) = s).
  { clear s. induction k as [|k IH]; intros s Hk.
    - by destruct s; [|simpl in Hk; lia].
    - destruct s as [|c r]; [done|]. simpl in Hk. rewrite chars_cons.
      destruct (continued (following c) r) eqn:Hc.
      + destruct (chars_continued _ r Hc) as (front & y & Hr & Hcut & Hfront).
        rewrite Hcut, (drop_app_length' front _ _ (eq_sym Hfront)), join_cons, append_cons.
        rewrite IH; [by rewrite <- Hr|].
        assert (String.length r = String.length (substring 0 (following c) r +:+ y))
          as Hl by (by rewrite <- Hr).
        rewrite length_append in Hl. lia.
      + rewrite join_cons, append_cons. rewrite IH; [done|lia]. }
  by apply (H (String.length s)).
Qed.

Lemma wellCut_chars s : wellCut (chars s).
Proof.
  assert (H : forall k s, (String.length s <= k)%nat -> wellCut (chars s)).
  { clear s. induction k as [|k IH]; intros s Hk.
    - by destruct s; [|simpl in Hk; lia].
    - destruct s as [|c r]; [done|]. simpl in Hk. rewrite chars_cons.
      destruct (continued (following c) r) eqn:Hc.
      + destruct (chars_continued _ r Hc) as (front & y & Hr & Hcut & Hfront).
        destruct (continued_substring _ r EmptyString Hc) as [_ Hn].
        rewrite Hcut, (drop_app_length' front _ _ (eq_sym Hfront)). split.
        * left. cbn [whole]. rewrite Hn, Nat.eqb_refl. cbn [andb].
          clear -Hc. revert r Hc. generalize (following c) as n.
          induction n as [|n IH]; intros r Hc; [done|].
          destruct r as [|x r]; [done|]. simpl in *.
          apply andb_true_iff in Hc as [-> Hc]. by apply IH.
        * apply IH.
          assert (String.length r = String.length (substring 0 (following c) r +:+ y))
            as Hl by (by rewrite <- Hr).
          rewrite length_append in Hl. lia.
      + split; [|apply IH; lia].
        right. exists c. split; [done|]. by rewrite join_chars. }
  by apply (H (String.length s)).
Qed.

Lemma chars_join ts : wellCut ts -> chars (join ts) = ts.
Proof.
  induction ts as [|t ts IH]; [done|].
  intros [[Ht | (c & -> & Hc)] Hts]; rewrite join_cons.
  - by rewrite (whole_cut _ _ Ht), IH.
  - rewrite append_cons, chars_cons. change (EmptyString +:+ join ts) with (join ts).
    by rewrite Hc, IH.
Qed.

Lemma wellCut_app_l a b : wellCut (a ++ b) -> wellCut a.
Proof.
  induction a as [|t a IH]; [done|]. simpl.
  intros [[Ht | (c & -> & Hc)] Hts]; (split; [|by apply IH]).
  - by left.
  - right. exists c. split; [done|]. rewrite join_app in Hc.
    destruct (continued (following c) (join a)) eqn:E; [|done].
    by rewrite (continued_app _ _ _ E) in Hc.
Qed.

Lemma wellCut_app_r a b : wellCut (a ++ b) -> wellCut b.
Proof. induction a as [|t a IH]; [done|]. simpl. intros [_ H]. by apply IH. Qed.

Lemma chars_app_plain x y :
  plainStart y = true -> chars (x +:+ y) = chars x ++ chars y.
Proof.
  intros Hy. induction x as [|c x IH]; [done|].
  change (String c x +:+ y) with (String c (x +:+ y)).
  rewrite !chars_cons, (continued_app_plain _ x y Hy), IH.
  destruct (continued (following c) x) eqn:Hc; [|done].
  destruct (continued_substring _ x y Hc) as [-> _].
  destruct (chars_continued _ x Hc) as (front & z & _ & Hcut & Hfront).
  by rewrite Hcut, <- app_assoc, !(drop_app_length' front _ _ (eq_sym Hfront)).
Qed.

End PieceFacts.

Module CaseFacts.
Import JSString Invariants PieceFacts.

(** ** The tables *)

Lemma images_plain : forallb plainImage lowerImages = true.
Proof. by vm_compute. Qed.

Lemma spaces_plain : forallb plainSpace whiteSpaces = true.
Proof. by vm_compute. Qed.

Lemma lowerIn_image runs cp :
  lowerIn runs cp = cp \/ In (lowerIn runs cp) (flat_map runImage runs).
Proof.
  induction runs as [|[[[first last] step] target] rest IH]; [by left|].
  cbn [lowerIn flat_map].
  destruct (N.ltb_spec cp first) as [|Hfirst]; [by left|].
  destruct ((cp <=? last)%N && ((cp - first) mod step =? 0)%N) eqn:E.
  - right. apply in_or_app. left.
    apply andb_true_iff in E as [Hlast%N.leb_le Hstep%N.eqb_eq].
    unfold runImage. apply in_map_iff.
    exists (N.to_nat ((cp - first) / step)). split.
    + rewrite N2Nat.id. f_equal.
      pose proof (N.Div0.div_mod (cp - first) step) as Hdiv. lia.
    + assert ((cp - first) / step <= (last - first) / step)%N
        by (apply N.Div0.div_le_mono; lia).
      apply in_seq. revert H.
      generalize ((cp - first) / step)%N ((last - first) / step)%N. lia.
  - destruct IH as [IH|IH]; [by left|]. right. apply in_or_app. by right.
Qed.

Lemma image_plain cp : In cp lowerImages -> plainImage cp = true.
Proof.
  intros H. pose proof images_plain as Hall.
  rewrite forallb_forall in Hall. by apply Hall.
Qed.

Lemma simpleLower_plain cp :
  simpleLower cp <> cp -> plainImage (simpleLower cp) = true.
Proof.
  intros Hne. apply image_plain, in_or_app. left.
  by destruct (lowerIn_image lowerRuns cp).
Qed.

Lemma space_plain cp :
  existsb (N.eqb cp) whiteSpaces = true -> plainSpace cp = true.
Proof.
  intros (x & Hin & ->%N.eqb_eq)%existsb_exists.
  pose proof spaces_plain as Hall.
  rewrite forallb_forall in Hall. by apply Hall.
Qed.

(** ** Code points *)

Lemma codePoint_encode t cp : codePoint t = Some cp -> encode cp = t.
Proof.
  unfold codePoint.
  destruct ((decode t <? 1114112)%N && (encode (decode t) =? t)%string) eqn:E;
    [|done].
  intros [= <-]. apply andb_true_iff in E as [_ E]. by apply String.eqb_eq.
Qed.

Lemma codePoint_high c :
  isContinuation c = true \/ following c <> 0%nat ->
  codePoint (String c EmptyString) = None.
Proof.
  destruct c as [[] [] [] [] [] [] [] []]; vm_compute; intuition congruence.
Qed.

Lemma plainImage_spec l :
  plainImage l = true ->
  whole (encode l) = true /\ codePoint (encode l) = Some l
  /\ settledPoint l = true /\ isWhiteSpace (encode l) = false
  /\ plainStart (encode l) = true.
Proof.
  unfold plainImage.
  intros [[[[H1 H2]%andb_true_iff H3]%andb_true_iff H4%negb_true_iff]%andb_true_iff
            H5]%andb_true_iff.
  repeat split; try done.
  destruct (codePoint (encode l)) as [l'|]; [|done].
  by apply N.eqb_eq in H2 as ->.
Qed.

Lemma isWhiteSpace_spec t :
  isWhiteSpace t = true ->
  exists cp,
    codePoint t = Some cp /\ whole t = true /\ plainStart t = true
    /\ settledPoint cp = true /\ casedLetter cp = false.
Proof.
  unfold isWhiteSpace. destruct (codePoint t) as [cp|] eqn:Hcp; [|done].
  intros Hs%space_plain. exists cp. split; [done|].
  rewrite <- (codePoint_encode _ _ Hcp).
  unfold plainSpace in Hs.
  apply andb_true_iff in Hs as [[[H1 H2]%andb_true_iff H3%negb_true_iff]%andb_true_iff H4].
  done.
Qed.

Lemma settled_image l : plainImage l = true -> settled (encode l) = true.
Proof.
  intros (_ & Hcp & Hs & _)%plainImage_spec. unfold settled. by rewrite Hcp.
Qed.

(** ** The pieces that [lowerPiece] writes *)

Lemma lowerPiece_shape st t cp rest :
  (lowerPiece st t cp rest = [t] /\ settledPoint cp = true)
  \/ (exists l, lowerPiece st t cp rest = [encode l] /\ plainImage l = true)
  \/ lowerPiece st t cp rest = [encode 105; encode 775].
Proof.
  unfold lowerPiece, settledPoint.
  destruct (cp =? 931)%N.
  { right. left. destruct (st && negb (followedByCased rest));
      eexists; (split; [reflexivity|]); by vm_compute. }
  destruct (cp =? 304)%N; [by right; right|].
  destruct (N.eqb_spec (simpleLower cp) cp) as [|Hne]; [by left|].
  right. left. eexists. split; [reflexivity|]. by apply simpleLower_plain.
Qed.

Lemma plain_105 : plainImage 105 = true.
Proof. by vm_compute. Qed.

Lemma plain_775 : plainImage 775 = true.
Proof. by vm_compute. Qed.

(** What is true of every piece of [lowerPiece st t cp rest], when it is
    true of [t] and of the UTF-8 form of every plain image. *)
Lemma lowerPiece_Forall (P : string -> Prop) st t cp rest :
  (settledPoint cp = true -> P t) ->
  (forall l, plainImage l = true -> P (encode l)) ->
  Forall P (lowerPiece st t cp rest).
Proof.
  intros Ht Himage.
  destruct (lowerPiece_shape st t cp rest)
    as [[-> Hs] | [(l & -> & Hl) | ->]].
  - constructor; [by apply Ht | constructor].
  - constructor; [by apply Himage | constructor].
  - constructor; [apply Himage, plain_105|].
    constructor; [apply Himage, plain_775 | constructor].
Qed.

Lemma lowerPiece_first st t cp rest :
  exists o os, lowerPiece st t cp rest = o :: os
    /\ (o = t \/ exists l, o = encode l /\ plainImage l = true).
Proof.
  destruct (lowerPiece_shape st t cp rest)
    as [[-> Hs] | [(l & -> & Hl) | ->]].
  - eexists _, _. split; [reflexivity|]. by left.
  - eexists _, _. split; [reflexivity|]. right. by exists l.
  - eexists _, _. split; [reflexivity|]. right. exists 105%N.
    split; [done|]. apply plain_105.
Qed.

(** ** Lowercase, on pieces *)

Lemma lowerChars_cons st t rest :
  lowerChars st (t :: rest)
  = match codePoint t with
    | Some cp =>
        lowerPiece st t cp rest
        ++ lowerChars (if caseIgnorable cp then st else casedLetter cp) rest
    | None => t :: lowerChars false rest
    end.
Proof. reflexivity. Qed.

Lemma lowerChars_settled ts :
  forallb settled ts = true -> forall st, lowerChars st ts = ts.
Proof.
  induction ts as [|t ts IH]; [done|]. cbn [forallb].
  intros [Ht Hts]%andb_true_iff st. rewrite lowerChars_cons.
  unfold settled in Ht. destruct (codePoint t) as [cp|]; [|by rewrite IH].
  rewrite IH by done. unfold lowerPiece.
  unfold settledPoint in Ht.
  apply andb_true_iff in Ht as [[H1%negb_true_iff H2%negb_true_iff]%andb_true_iff H3].
  by rewrite H1, H2, H3.
Qed.

Lemma lowerChars_all_settled ts : forall st,
  forallb settled (lowerChars st ts) = true.
Proof.
  induction ts as [|t ts IH]; intros st; [done|]. rewrite lowerChars_cons.
  destruct (codePoint t) as [cp|] eqn:Hcp.
  - rewrite forallb_app, IH, andb_true_r. apply forallb_of_Forall.
    apply lowerPiece_Forall.
    + intros Hs. unfold settled. by rewrite Hcp.
    + apply settled_image.
  - cbn [forallb]. rewrite IH, andb_true_r. unfold settled. by rewrite Hcp.
Qed.

Lemma lowerChars_twice ts st st' :
  lowerChars st' (lowerChars st ts) = lowerChars st ts.
Proof. apply lowerChars_settled, lowerChars_all_settled. Qed.

Lemma lowerChars_nil st ts : lowerChars st ts = [] -> ts = [].
Proof.
  destruct ts as [|t ts]; [done|]. rewrite lowerChars_cons.
  destruct (codePoint t) as [cp|]; [|done].
  destruct (lowerPiece_first st t cp ts) as (o & os & -> & _). done.
Qed.

(** The first byte of what [lowerChars] writes is a continuation byte
    when the first byte read is one. *)
Lemma wellCut_first t ts :
  wellCut (t :: ts) ->
  exists c r, t = String c r
    /\ (isContinuation c = true -> r = EmptyString).
Proof.
  intros [[Ht | (c & -> & _)] _].
  - destruct t as [|c r]; [done|]. exists c, r. split; [done|].
    intros Hc. cbn [whole] in Ht. rewrite (following_continuation c Hc) in Ht.
    apply andb_true_iff in Ht as [Hl%Nat.eqb_eq _]. by destruct r.
  - by exists c, EmptyString.
Qed.

Lemma continued_plain n s :
  plainStart s = true -> s <> EmptyString -> continued (S n) s = false.
Proof.
  destruct s as [|c s]; [done|]. cbn [plainStart]. intros Hc%negb_true_iff _.
  by rewrite continued_cons, Hc.
Qed.

Lemma continued_lower ts : forall n st,
  wellCut ts ->
  continued n (join (lowerChars st ts)) = continued n (join ts).
Proof.
  induction ts as [|t ts IH]; intros n st Hcut; [done|].
  destruct n as [|n]; [done|].
  destruct (wellCut_first _ _ Hcut) as (c & r & -> & Hr).
  destruct Hcut as [_ Hts].
  rewrite lowerChars_cons.
  destruct (isContinuation c) eqn:Hc.
  - rewrite (Hr eq_refl), (codePoint_high c) by (by left).
    rewrite !join_cons, !append_cons, !continued_cons.
    change (EmptyString +:+ ?x) with x. by rewrite IH.
  - rewrite (join_cons (String c r)), append_cons, continued_cons, Hc.
    cbn [andb].
    destruct (codePoint (String c r)) as [cp|].
    + destruct (lowerPiece_first st (String c r) cp ts)
        as (o & os & -> & [-> | (l & -> & Hl)]).
      * cbn [app]. by rewrite join_cons, append_cons, continued_cons, Hc.
      * cbn [app]. rewrite join_cons.
        destruct (plainImage_spec l Hl) as (Hw & _ & _ & _ & Hp).
        destruct (encode l) as [|c' r']; [done|].
        cbn [plainStart] in Hp. apply negb_true_iff in Hp.
        by rewrite append_cons, continued_cons, Hp.
    + by rewrite join_cons, append_cons, continued_cons, Hc.
Qed.

Lemma wellCut_wholes os ts :
  Forall (fun o => whole o = true) os -> wellCut ts -> wellCut (os ++ ts).
Proof.
  induction 1 as [|o os Ho _ IH]; [done|]. intros Hts.
  split; [by left | by apply IH].
Qed.

Lemma wellCut_lower ts : forall st, wellCut ts -> wellCut (lowerChars st ts).
Proof.
  induction ts as [|t ts IH]; intros st Hcut; [done|].
  rewrite lowerChars_cons. destruct Hcut as [Ht Hts].
  destruct (codePoint t) as [cp|] eqn:Hcp.
  - apply wellCut_wholes; [|by apply IH].
    apply lowerPiece_Forall.
    + intros _. destruct Ht as [Ht | (c & -> & Hc)]; [done|].
      rewrite codePoint_high in Hcp; [done|]. right. intros E.
      by rewrite E in Hc.
    + by intros l (Hw & _)%plainImage_spec.
  - split; [|by apply IH].
    destruct Ht as [Ht | (c & -> & Hc)]; [by left|].
    right. exists c. split; [done|]. by rewrite continued_lower.
Qed.

(** ** White space, on pieces *)

Lemma lowerChars_space st t rest :
  isWhiteSpace t = true ->
  exists st', lowerChars st (t :: rest) = t :: lowerChars st' rest
    /\ (st = false -> st' = false).
Proof.
  intros (cp & Hcp & _ & _ & Hs & Hcased)%isWhiteSpace_spec.
  rewrite lowerChars_cons, Hcp.
  exists (if caseIgnorable cp then st else casedLetter cp). split.
  - unfold lowerPiece. unfold settledPoint in Hs.
    apply andb_true_iff in Hs
      as [[H1%negb_true_iff H2%negb_true_iff]%andb_true_iff H3].
    by rewrite H1, H2, H3.
  - intros ->. rewrite Hcased. by destruct (caseIgnorable cp).
Qed.

Lemma lowerChars_spaces_front ws rest :
  forallb isWhiteSpace ws = true ->
  lowerChars false (ws ++ rest) = ws ++ lowerChars false rest.
Proof.
  induction ws as [|t ws IH]; [done|]. cbn [forallb].
  intros [Ht Hws]%andb_true_iff.
  destruct (lowerChars_space false t (ws ++ rest) Ht) as (st' & Heq & Hst').
  cbn [app]. rewrite Heq, (Hst' eq_refl), IH; done.
Qed.

Lemma followedByCased_spaces ws :
  forallb isWhiteSpace ws = true -> followedByCased ws = false.
Proof.
  induction ws as [|t ws IH]; [done|]. cbn [forallb followedByCased].
  intros [(cp & -> & _ & _ & _ & Hcased)%isWhiteSpace_spec Hws]%andb_true_iff.
  rewrite Hcased, IH by done. by destruct (caseIgnorable cp).
Qed.

Lemma followedByCased_app ts ws :
  forallb isWhiteSpace ws = true ->
  followedByCased (ts ++ ws) = followedByCased ts.
Proof.
  intros Hws. induction ts as [|t ts IH]; [by apply followedByCased_spaces|].
  cbn [app followedByCased]. by rewrite IH.
Qed.

Lemma lowerChars_spaces ws : forall st,
  forallb isWhiteSpace ws = true -> lowerChars st ws = ws.
Proof.
  induction ws as [|t ws IH]; intros st; [done|]. cbn [forallb].
  intros [Ht Hws]%andb_true_iff.
  destruct (lowerChars_space st t ws Ht) as (st' & -> & _). by rewrite IH.
Qed.

Lemma lowerChars_spaces_back ts ws : forall st,
  forallb isWhiteSpace ws = true ->
  lowerChars st (ts ++ ws) = lowerChars st ts ++ ws.
Proof.
  induction ts as [|t ts IH]; intros st Hws; [by apply lowerChars_spaces|].
  cbn [app]. rewrite !lowerChars_cons.
  destruct (codePoint t) as [cp|]; [|by rewrite IH].
  rewrite IH, <- app_assoc by done. f_equal.
  unfold lowerPiece. by rewrite followedByCased_app.
Qed.

Lemma trimStartOf_spaces ws ts :
  forallb isWhiteSpace ws = true -> trimStartOf (ws ++ ts) = trimStartOf ts.
Proof.
  induction ws as [|t ws IH]; [done|]. cbn [forallb app trimStartOf].
  intros [-> Hws]%andb_true_iff. by apply IH.
Qed.

Lemma trimStartOf_all_spaces ws :
  forallb isWhiteSpace ws = true -> trimStartOf ws = [].
Proof.
  intros Hws. rewrite <- (app_nil_r ws). by rewrite trimStartOf_spaces.
Qed.

Lemma trimEndOf_cons t ts :
  trimEndOf (t :: ts)
  = match trimEndOf ts with
    | [] => if isWhiteSpace t then [] else [t]
    | rest => t :: rest
    end.
Proof. reflexivity. Qed.

Lemma trimEndOf_all_spaces ws :
  forallb isWhiteSpace ws = true -> trimEndOf ws = [].
Proof.
  induction ws as [|t ws IH]; [done|]. cbn [forallb].
  intros [Ht Hws]%andb_true_iff. by rewrite trimEndOf_cons, IH, Ht.
Qed.

Lemma trimEndOf_spaces ts ws :
  forallb isWhiteSpace ws = true -> trimEndOf (ts ++ ws) = trimEndOf ts.
Proof.
  intros Hws. induction ts as [|t ts IH]; [by apply trimEndOf_all_spaces|].
  cbn [app]. by rewrite !trimEndOf_cons, IH.
Qed.

Lemma trimStartOf_split ts :
  exists ws,
    forallb isWhiteSpace ws = true /\ ts = ws ++ trimStartOf ts
    /\ startsPlain (trimStartOf ts) = true.
Proof.
  induction ts as [|t ts (ws & Hws & Hts & Hplain)]; [by exists []|].
  cbn [trimStartOf]. destruct (isWhiteSpace t) eqn:Ht.
  - exists (t :: ws). cbn [forallb app]. rewrite Ht, Hws, <- Hts. done.
  - exists []. cbn [startsPlain]. by rewrite Ht.
Qed.

Lemma trimEndOf_split ts :
  exists ws,
    forallb isWhiteSpace ws = true /\ ts = trimEndOf ts ++ ws
    /\ endsPlain (trimEndOf ts) = true
    /\ (startsPlain ts = true -> startsPlain (trimEndOf ts) = true).
Proof.
  induction ts as [|t ts (ws & Hws & Hts & Hplain & _)]; [by exists []|].
  rewrite trimEndOf_cons. destruct (trimEndOf ts) as [|u us] eqn:Hend.
  - destruct (isWhiteSpace t) eqn:Ht.
    + exists (t :: ws). cbn [app] in *. subst ws.
      split; [cbn [forallb]; by rewrite Ht, Hws|]. by repeat split.
    + exists ws. cbn [app] in *. subst ws.
      split; [done|]. split; [done|].
      unfold endsPlain. change (last [t]) with (Some t).
      cbn [startsPlain]. by rewrite Ht.
  - exists ws. split; [done|]. split; [by rewrite Hts at 1|].
    split; [|done].
    unfold endsPlain in *. rewrite last_cons.
    destruct (last (u :: us)) eqn:E; [done|]. by apply last_None in E.
Qed.

Lemma trimStartOf_plain ts : startsPlain ts = true -> trimStartOf ts = ts.
Proof.
  destruct ts as [|t ts]; [done|]. cbn [startsPlain trimStartOf].
  by intros ->%negb_true_iff.
Qed.

Lemma trimEndOf_plain ts : endsPlain ts = true -> trimEndOf ts = ts.
Proof.
  unfold endsPlain. induction ts as [|t ts IH]; [done|].
  rewrite last_cons, trimEndOf_cons.
  destruct (last ts) as [u|] eqn:Hlast.
  - intros Hu. rewrite IH by done. destruct ts; [done|done].
  - apply last_None in Hlast as ->. cbn [trimEndOf].
    by intros ->%negb_true_iff.
Qed.

Lemma lowerPiece_no_space st t cp rest :
  codePoint t = Some cp -> isWhiteSpace t = false ->
  Forall (fun o => isWhiteSpace o = false) (lowerPiece st t cp rest).
Proof.
  intros Hcp Ht. apply lowerPiece_Forall; [done|].
  by intros l (_ & _ & _ & Hs & _)%plainImage_spec.
Qed.

Lemma lower_startsPlain ts st :
  startsPlain ts = true -> startsPlain (lowerChars st ts) = true.
Proof.
  destruct ts as [|t ts]; [done|]. cbn [startsPlain].
  intros Ht%negb_true_iff. rewrite lowerChars_cons.
  destruct (codePoint t) as [cp|] eqn:Hcp; [|cbn [startsPlain]; by rewrite Ht].
  pose proof (lowerPiece_no_space st t cp ts Hcp Ht) as Hall.
  destruct (lowerPiece_first st t cp ts) as (o & os & Ho & _).
  rewrite Ho in *. apply Forall_cons in Hall as [Hno _].
  cbn [app startsPlain]. by rewrite Hno.
Qed.

Lemma endsPlain_app os ts :
  Forall (fun o => isWhiteSpace o = false) os ->
  endsPlain ts = true -> endsPlain (os ++ ts) = true.
Proof.
  unfold endsPlain. intros Hos. rewrite last_app.
  destruct (last ts) as [u|]; [done|]. intros _.
  destruct (last os) as [o|] eqn:Hlast; [|done].
  apply last_Some in Hlast as (os' & ->).
  apply Forall_app in Hos as [_ Ho]. apply Forall_cons in Ho as [-> _]. done.
Qed.

Lemma lower_endsPlain ts : forall st,
  endsPlain ts = true -> endsPlain (lowerChars st ts) = true.
Proof.
  induction ts as [|t ts IH]; intros st; [done|].
  unfold endsPlain at 1. rewrite last_cons, lowerChars_cons.
  destruct (last ts) as [u|] eqn:Hlast.
  - intros Hu.
    assert (Hts : endsPlain ts = true) by (unfold endsPlain; by rewrite Hlast).
    destruct (codePoint t) as [cp|].
    + unfold endsPlain. rewrite last_app.
      pose proof (IH (if caseIgnorable cp then st else casedLetter cp) Hts) as Hl.
      unfold endsPlain in Hl.
      destruct (last (lowerChars _ ts)) as [v|] eqn:Hv; [done|].
      apply last_None, lowerChars_nil in Hv. by subst ts.
    + unfold endsPlain. rewrite last_cons.
      pose proof (IH false Hts) as Hl. unfold endsPlain in Hl.
      destruct (last (lowerChars false ts)) as [v|] eqn:Hv; [done|].
      apply last_None, lowerChars_nil in Hv. by subst ts.
  - apply last_None in Hlast as ->. intros Ht%negb_true_iff.
    destruct (codePoint t) as [cp|] eqn:Hcp.
    + rewrite app_nil_r. rewrite <- (app_nil_r (lowerPiece _ _ _ _)).
      apply endsPlain_app; [|done]. by apply lowerPiece_no_space.
    + unfold endsPlain. cbn [lowerChars]. change (last [t]) with (Some t).
      cbn beta iota. by rewrite Ht.
Qed.

(** ** [trim] and [toLowerCase], on pieces *)

Lemma trim_lower_pieces ts :
  trimEndOf (trimStartOf (lowerChars false ts))
  = lowerChars false (trimEndOf (trimStartOf ts)).
Proof.
  destruct (trimStartOf_split ts) as (front & Hfront & Hts & Hstart).
  destruct (trimEndOf_split (trimStartOf ts))
    as (back & Hback & Hmid & Hend & Hkeep).
  specialize (Hkeep Hstart).
  set (mid := trimEndOf (trimStartOf ts)) in *.
  rewrite Hts, Hmid.
  rewrite (lowerChars_spaces_front front _ Hfront).
  rewrite (lowerChars_spaces_back mid back false Hback).
  rewrite (trimStartOf_spaces front _ Hfront).
  destruct mid as [|t mid'] eqn:Emid.
  - cbn [lowerChars app]. by rewrite (trimStartOf_all_spaces back Hback).
  - rewrite <- Emid in *.
    assert (Hs : startsPlain (lowerChars false mid ++ back) = true).
    { pose proof (lower_startsPlain mid false Hkeep) as Hl.
      destruct (lowerChars false mid) as [|o os] eqn:El; [|done].
      apply lowerChars_nil in El. by rewrite Emid in El. }
    rewrite (trimStartOf_plain _ Hs), (trimEndOf_spaces _ back Hback).
    by apply trimEndOf_plain, lower_endsPlain.
Qed.

Lemma trim_twice_pieces ts :
  trimEndOf (trimStartOf (trimEndOf (trimStartOf ts)))
  = trimEndOf (trimStartOf ts).
Proof.
  destruct (trimStartOf_split ts) as (front & _ & _ & Hstart).
  destruct (trimEndOf_split (trimStartOf ts)) as (back & _ & _ & Hend & Hkeep).
  rewrite (trimStartOf_plain _ (Hkeep Hstart)). by apply trimEndOf_plain.
Qed.

Lemma trimStartOf_back ts ws :
  forallb isWhiteSpace ws = true ->
  exists ws', forallb isWhiteSpace ws' = true
    /\ trimStartOf (ts ++ ws) = trimStartOf ts ++ ws'.
Proof.
  intros Hws. induction ts as [|t ts (ws' & Hws' & IH)].
  - exists []. split; [done|]. cbn [app trimStartOf].
    by apply trimStartOf_all_spaces.
  - cbn [app trimStartOf]. destruct (isWhiteSpace t); [by exists ws'|].
    by exists ws.
Qed.

Lemma trim_pad_pieces front ts back :
  forallb isWhiteSpace front = true -> forallb isWhiteSpace back = true ->
  trimEndOf (trimStartOf (front ++ ts ++ back)) = trimEndOf (trimStartOf ts).
Proof.
  intros Hfront Hback. rewrite (trimStartOf_spaces front _ Hfront).
  destruct (trimStartOf_back ts back Hback) as (ws' & Hws' & ->).
  by apply trimEndOf_spaces.
Qed.

Lemma trim_no_space ts :
  Forall (fun t => isWhiteSpace t = false) ts ->
  trimEndOf (trimStartOf ts) = ts.
Proof.
  intros H. rewrite trimStartOf_plain, trimEndOf_plain; [done| |].
  - unfold endsPlain. destruct (last ts) as [u|] eqn:E; [|done].
    apply last_Some in E as (ts' & ->).
    apply Forall_app in H as [_ H]. apply Forall_cons in H as [-> _]. done.
  - destruct ts as [|t ts]; [done|].
    apply Forall_cons in H as [Ht _]. cbn [startsPlain]. by rewrite Ht.
Qed.

Lemma wellCut_trim ts : wellCut ts -> wellCut (trimEndOf (trimStartOf ts)).
Proof.
  intros Hcut.
  destruct (trimStartOf_split ts) as (front & _ & Hts & _).
  destruct (trimEndOf_split (trimStartOf ts)) as (back & _ & Hmid & _).
  rewrite Hts in Hcut. apply wellCut_app_r in Hcut.
  rewrite Hmid in Hcut. by apply wellCut_app_l in Hcut.
Qed.

(** ** [trim] and [toLowerCase], on strings *)

Lemma chars_toLowerCase s : chars (toLowerCase s) = lowerChars false (chars s).
Proof. apply chars_join, wellCut_lower, wellCut_chars. Qed.

Lemma chars_trim s : chars (trim s) = trimEndOf (trimStartOf (chars s)).
Proof. apply chars_join, wellCut_trim, wellCut_chars. Qed.

Lemma toLowerCase_twice s : toLowerCase (toLowerCase s) = toLowerCase s.
Proof.
  unfold toLowerCase at 1. by rewrite chars_toLowerCase, lowerChars_twice.
Qed.

Lemma trim_lower s : trim (toLowerCase s) = toLowerCase (trim s).
Proof.
  unfold trim at 1, toLowerCase at 2.
  by rewrite chars_toLowerCase, chars_trim, trim_lower_pieces.
Qed.

Lemma trim_twice s : trim (trim s) = trim s.
Proof. unfold trim at 1. by rewrite chars_trim, trim_twice_pieces. Qed.

Lemma normalized_trim s : normalized (trim s) = normalized s.
Proof. unfold normalized. by rewrite <- trim_lower, trim_twice. Qed.

Lemma blank_wholes a :
  blank a = true -> Forall (fun t => whole t = true) (chars a).
Proof.
  unfold blank. intros H%Forall_of_forallb.
  eapply Forall_impl; [exact H|]. simpl.
  by intros t (_ & _ & Hw & _)%isWhiteSpace_spec.
Qed.

Lemma blank_plainStart b : blank b = true -> plainStart b = true.
Proof.
  unfold blank. intros H. rewrite <- (join_chars b).
  destruct (chars b) as [|t ts]; [done|]. cbn [forallb] in H.
  apply andb_true_iff in H as [(_ & _ & Hw & Hp & _)%isWhiteSpace_spec _].
  rewrite join_cons. destruct t as [|c r]; [done|]. by rewrite append_cons.
Qed.

Lemma chars_pad a u b :
  blank a = true -> blank b = true ->
  chars (a +:+ u +:+ b) = chars a ++ chars u ++ chars b.
Proof.
  intros Ha Hb. rewrite <- (join_chars a) at 1.
  rewrite (wholes_cut _ _ (blank_wholes a Ha)).
  by rewrite (chars_app_plain u b (blank_plainStart b Hb)).
Qed.

Lemma trim_pad a s b :
  blank a = true -> blank b = true -> trim (a +:+ s +:+ b) = trim s.
Proof.
  intros Ha Hb. unfold trim. by rewrite chars_pad, trim_pad_pieces.
Qed.

Lemma toLowerCase_pad a u b :
  blank a = true -> blank b = true ->
  toLowerCase (a +:+ u +:+ b) = a +:+ toLowerCase u +:+ b.
Proof.
  intros Ha Hb. unfold toLowerCase. rewrite chars_pad by done.
  rewrite (lowerChars_spaces_front _ _ Ha), (lowerChars_spaces_back _ _ _ Hb).
  by rewrite !join_app, !join_chars.
Qed.

Lemma normalized_pad a u b :
  blank a = true -> blank b = true -> normalized (a +:+ u +:+ b) = normalized u.
Proof.
  intros Ha Hb. unfold normalized.
  rewrite toLowerCase_pad by done. by apply trim_pad.
Qed.

End CaseFacts.

Module DateFacts.
Import JSDate.

Lemma monthOfDay_range d l : 0 <= monthOfDay d l <= 11.
Proof. unfold monthOfDay. repeat case_match; lia. Qed.

Lemma MakeDay_of_fields t k :
  MakeDay (YearFromTime t) (MonthFromTime t) (DateFromTime t + k) = Day t + k.
Proof.
  assert (Hm : 0 <= MonthFromTime t <= 11) by apply monthOfDay_range.
  unfold MakeDay, DateFromTime.
  rewrite (Z.div_small (MonthFromTime t) 12) by lia.
  rewrite (Z.mod_small (MonthFromTime t) 12) by lia.
  rewrite Z.add_0_r. unfold DayWithinYear. lia.
Qed.

Lemma Day_MakeDate d r : 0 <= r < msPerDay -> Day (MakeDate d r) = d.
Proof.
  intros Hr. unfold Day, MakeDate, msPerDay in *.
  rewrite Z.add_comm, Z.div_add by lia. rewrite Z.div_small by lia. lia.
Qed.

Lemma TimeWithinDay_range t : 0 <= TimeWithinDay t < msPerDay.
Proof. unfold TimeWithinDay, msPerDay. apply Z.mod_pos_bound. lia. Qed.

Lemma Day_bounds t : Day t * msPerDay <= t < Day t * msPerDay + msPerDay.
Proof.
  unfold Day, msPerDay.
  pose proof (Z.div_mod t 86400000 ltac:(lia)).
  pose proof (Z.mod_pos_bound t 86400000 ltac:(lia)). lia.
Qed.

Lemma TimeClip_in_range t : Z.abs t <= maxTime -> TimeClip t = Some t.
Proof. intros H. unfold TimeClip. case_match; [lia | done]. Qed.

Lemma YearFromTime_spec t :
  DayFromYear (YearFromTime t) <= Day t < DayFromYear (YearFromTime t + 1).
Proof.
  unfold YearFromTime. set (d := Day t). clearbody d.
  unfold DayFromYear.
  repeat case_match; Z.div_mod_to_equations; lia.
Qed.

Lemma DayFromYear_succ y : DayFromYear (y + 1) = DayFromYear y + DaysInYear y.
Proof.
  unfold DayFromYear, DaysInYear.
  replace (y + 1 - 1970) with (y - 1969) by lia.
  replace (y + 1 - 1969) with (y - 1969 + 1) by lia.
  replace (y + 1 - 1901) with (y - 1901 + 1) by lia.
  replace (y + 1 - 1601) with (y - 1601 + 1) by lia.
  destruct (y mod 4 =? 0) eqn:E4; destruct (y mod 100 =? 0) eqn:E100;
    destruct (y mod 400 =? 0) eqn:E400; cbn [negb];
    rewrite ?Z.eqb_eq, ?Z.eqb_neq in *;
    Z.div_mod_to_equations; lia.
Qed.
End DateFacts.

Module StringFacts.
Import JSString JSNumber PieceFacts CaseFacts.

(** Facts about one byte, by enumeration of the 256 values. *)
Ltac by_code_unit c :=
  destruct c as [[] [] [] [] [] [] [] []]; vm_compute; intuition congruence.

Lemma digit_plain c :
  is_Some (digitValue c) ->
  (following c = 0%nat /\ isWhiteSpace (String c EmptyString) = false)
  /\ Ascii.eqb c "-" = false /\ Ascii.eqb c "+" = false.
Proof. intros [d H]. revert H. by_code_unit c. Qed.

Lemma chars_digits s : forall a v,
  decimalDigits a s = Some v ->
  Forall (fun t => isWhiteSpace t = false) (chars s).
Proof.
  induction s as [|c r IH]; intros a v H; [constructor|].
  simpl in H. destruct (digitValue c) as [d|] eqn:Hd; [|done].
  destruct (digit_plain c) as ((Hf & Hw) & _); [by eexists|].
  rewrite (chars_plain_byte c r Hf). constructor; [done|]. by eapply IH.
Qed.

Lemma trim_digits s a v : decimalDigits a s = Some v -> trim s = s.
Proof.
  intros H. unfold trim.
  by rewrite (trim_no_space _ (chars_digits _ _ _ H)), join_chars.
Qed.

Lemma Number_digits s v :
  s <> EmptyString -> decimalDigits 0 s = Some v -> Number s = Some v.
Proof.
  intros Hne H. unfold Number. rewrite (trim_digits _ _ _ H).
  destruct s as [|c r]; [done|].
  assert (is_Some (digitValue c)) as Hc.
  { simpl in H. destruct (digitValue c); [by eexists | done]. }
  destruct (digit_plain c Hc) as (_ & Hm & Hp). by rewrite Hp, Hm.
Qed.

Lemma split_ymd y1 y2 y3 y4 m1 m2 d1 d2 :
  Forall (fun c => is_Some (digitValue c)) [y1; y2; y3; y4; m1; m2; d1; d2] ->
  split "-"
    (String y1 (String y2 (String y3 (String y4 (String "-"
    (String m1 (String m2 (String "-" (String d1 (String d2 EmptyString))))))))))
  = [String y1 (String y2 (String y3 (String y4 EmptyString)));
     String m1 (String m2 EmptyString);
     String d1 (String d2 EmptyString)].
Proof.
  intros H. repeat (apply Forall_cons in H as [?%digit_plain H]).
  simpl. by repeat match goal with
    | H : _ /\ Ascii.eqb ?c "-" = false /\ _ |- _ =>
        destruct H as (_ & -> & _)
    end.
Qed.

End StringFacts.

Module ProfileFacts.
Import JSDate Profile DateFacts StringFacts.

Lemma fields_of_ymd s y mo d :
  ymdOfString s = Some (y, mo, d) ->
  map JSNumber.Number (JSString.split "-" s) = [Some y; Some mo; Some d].
Proof.
  unfold ymdOfString. intros H.
  destruct s as [|y1 s]; [discriminate H|].
  destruct s as [|y2 s]; [discriminate H|].
  destruct s as [|y3 s]; [discriminate H|].
  destruct s as [|y4 s]; [discriminate H|].
  destruct s as [|h1 s]; [discriminate H|].
  destruct s as [|m1 s]; [discriminate H|].
  destruct s as [|m2 s]; [discriminate H|].
  destruct s as [|h2 s]; [discriminate H|].
  destruct s as [|d1 s]; [discriminate H|].
  destruct s as [|d2 s]; [discriminate H|].
  destruct s as [|? s]; [|discriminate H].
  destruct (Ascii.eqb h1 "-") eqn:E1; [|discriminate H].
  destruct (Ascii.eqb h2 "-") eqn:E2; [|discriminate H].
  apply Ascii.eqb_eq in E1, E2. subst h1 h2. simpl andb in H. cbv iota in H.
  destruct (JSNumber.digitValue y1) eqn:D1; [|discriminate H].
  destruct (JSNumber.digitValue y2) eqn:D2; [|discriminate H].
  destruct (JSNumber.digitValue y3) eqn:D3; [|discriminate H].
  destruct (JSNumber.digitValue y4) eqn:D4; [|discriminate H].
  destruct (JSNumber.digitValue m1) eqn:D5; [|discriminate H].
  destruct (JSNumber.digitValue m2) eqn:D6; [|discriminate H].
  destruct (JSNumber.digitValue d1) eqn:D7; [|discriminate H].
  destruct (JSNumber.digitValue d2) eqn:D8; [|discriminate H].
  simpl in H. injection H as <- <- <-.
  rewrite split_ymd by (repeat constructor; by eexists).
  simpl map.
  repeat f_equal.
  all: apply Number_digits; [discriminate|]; simpl;
    rewrite ?D1, ?D2, ?D3, ?D4, ?D5, ?D6, ?D7, ?D8; simpl; f_equal; lia.
Qed.

Lemma distanceToMonday_mod today :
  distanceToMonday today = (WeekDay today + 6) mod 7.
Proof.
  unfold distanceToMonday, currentDay, WeekDay.
  case_match; Z.div_mod_to_equations; lia.
Qed.

Lemma setDate_shift t k :
  setDate (Some t) (Some (DateFromTime t + k))
  = TimeClip (MakeDate (Day t + k) (TimeWithinDay t)).
Proof. unfold setDate. by rewrite MakeDay_of_fields. Qed.

Lemma weekStartDay_bounds today :
  weekStartDay today <= Day today <= weekStartDay today + 6.
Proof. unfold weekStartDay. Z.div_mod_to_equations; lia. Qed.

Lemma weekStartDay_range today :
  Z.abs today <= maxTime - 7 * msPerDay ->
  - maxTime <= weekStartDay today * msPerDay /\
  (weekStartDay today + 7) * msPerDay <= maxTime.
Proof.
  intros H. pose proof (weekStartDay_bounds today).
  pose proof (Day_bounds today). unfold msPerDay, maxTime in *. lia.
Qed.

Lemma monday_value today :
  Z.abs today <= maxTime - 7 * msPerDay ->
  monday today = Some (MakeDate (weekStartDay today) (MakeTime 0 0 0 0)).
Proof.
  intros H. pose proof (weekStartDay_range today H) as Hr.
  pose proof (weekStartDay_bounds today) as Hb.
  pose proof (TimeWithinDay_range today) as Ht.
  unfold monday, getDate, JSNumber.minus. cbn [fmap option_fmap option_map].
  replace (DateFromTime today - distanceToMonday today)
    with (DateFromTime today + - distanceToMonday today) by lia.
  rewrite setDate_shift, distanceToMonday_mod.
  fold (weekStartDay today).
  replace (Day today + - ((WeekDay today + 6) mod 7)) with (weekStartDay today)
    by (unfold weekStartDay; lia).
  rewrite TimeClip_in_range by (unfold MakeDate, msPerDay, maxTime in *; lia).
  unfold setHours. rewrite Day_MakeDate by done.
  apply TimeClip_in_range. unfold MakeDate, MakeTime, msPerDay, maxTime in *. lia.
Qed.

Lemma sunday_value today :
  Z.abs today <= maxTime - 7 * msPerDay ->
  sunday today = Some (MakeDate (weekStartDay today + 6) (MakeTime 23 59 59 999)).
Proof.
  intros H. pose proof (weekStartDay_range today H) as Hr.
  unfold sunday. rewrite (monday_value today H).
  unfold getDate, JSNumber.plus. cbn [fmap option_fmap option_map].
  rewrite setDate_shift.
  assert (Hd : Day (MakeDate (weekStartDay today) (MakeTime 0 0 0 0)) = weekStartDay today).
  { apply Day_MakeDate. unfold MakeTime, msPerDay. lia. }
  assert (Hw : TimeWithinDay (MakeDate (weekStartDay today) (MakeTime 0 0 0 0)) = 0).
  { unfold TimeWithinDay, MakeDate, MakeTime, msPerDay.
    rewrite Z.add_0_r. apply Z.mod_mul. lia. }
  rewrite Hd, Hw.
  rewrite TimeClip_in_range by (unfold MakeDate, msPerDay, maxTime in *; lia).
  unfold setHours. rewrite Day_MakeDate by (unfold msPerDay; lia).
  apply TimeClip_in_range. unfold MakeDate, MakeTime, msPerDay, maxTime in *. lia.
Qed.

Lemma inCurrentWeek_ymd today m y mo d :
  Z.abs today <= maxTime - 7 * msPerDay ->
  ymdOfString (date m) = Some (y, mo, d) ->
  inCurrentWeek today m = true <->
  weekStartDay today <= dayOfYmd y mo d <= weekStartDay today + 6.
Proof.
  intros H Hs. pose proof (weekStartDay_range today H) as Hr.
  unfold inCurrentWeek. rewrite (fields_of_ymd _ _ _ _ Hs).
  rewrite (monday_value today H), (sunday_value today H).
  unfold element; cbn [nth]. unfold JSNumber.minus.
  cbn [fmap option_fmap option_map]. unfold newDate. fold (dayOfYmd y mo d).
  unfold TimeClip, MakeDate, MakeTime, geb, leb, msPerDay, maxTime in *.
  destruct (_ <? _) eqn:E.
  - split; [discriminate|]. lia.
  - rewrite andb_true_iff, !Z.leb_le. lia.
Qed.

Lemma sum_values l1 : forall l2 f,
  map value l1 = map value l2 ->
  fold_left (fun acc curr => JSNumber.add acc (JSNumber.ofZ (MoodValue_toZ (value curr)))) l1 f
  = fold_left (fun acc curr => JSNumber.add acc (JSNumber.ofZ (MoodValue_toZ (value curr)))) l2 f.
Proof.
  induction l1 as [|a l1 IH]; intros [|b l2] f H; try done.
  simpl in *. injection H as Hv H. rewrite Hv. by apply IH.
Qed.

Lemma getAverage_values l1 l2 :
  map value l1 = map value l2 -> getAverage l1 = getAverage l2.
Proof.
  intros H. unfold getAverage.
  assert (Hlen : List.length l1 = List.length l2).
  { by rewrite <- (length_map value l1), H, length_map. }
  by rewrite Hlen, (sum_values l1 l2 _ H).
Qed.

Lemma currentWeekLogs_In today moodList m :
  In m (currentWeekLogs today moodList) <->
  In m moodList /\ inCurrentWeek today m = true.
Proof. apply filter_In. Qed.

End ProfileFacts.

Module TreeFacts.

Lemma getAt_None p : getAt p None = None.
Proof. induction p as [|k p IH]; [done|]. simpl. by rewrite lookup_empty. Qed.

Lemma getAt_app p q t : getAt (p ++ q) t = getAt q (getAt p t).
Proof. revert t. induction p as [|k p IH]; intros t; [done|]. simpl. apply IH. Qed.

Lemma children_setAt_cons k p v t j :
  children (setAt (k :: p) v t) !! j
  = if decide (k = j) then setAt p v (children t !! k) else children t !! j.
Proof.
  simpl. destruct (decide (partial_alter (setAt p v) k (children t) = ∅)) as [E|E].
  - simpl. rewrite lookup_empty.
    assert (H := f_equal (fun m => m !! j) E). simpl in H.
    rewrite lookup_empty in H. rewrite <- H.
    destruct (decide (k = j)) as [->|Hne].
    + by rewrite lookup_partial_alter_eq.
    + by rewrite lookup_partial_alter_ne.
  - simpl. destruct (decide (k = j)) as [->|Hne].
    + by rewrite lookup_partial_alter_eq.
    + by rewrite lookup_partial_alter_ne.
Qed.

Lemma getAt_setAt_app p q v t :
  getAt p (setAt (p ++ q) v t) = setAt q v (getAt p t).
Proof.
  revert t. induction p as [|k p IH]; intros t; [done|].
  change (getAt (k :: p) ?x) with (getAt p (children x !! k)).
  change ((k :: p) ++ q) with (k :: (p ++ q)).
  rewrite children_setAt_cons. rewrite decide_True by done. apply IH.
Qed.

Lemma getAt_setAt p v t : getAt p (setAt p v t) = v.
Proof. rewrite <- (app_nil_r p) at 2. by rewrite getAt_setAt_app. Qed.

Lemma getAt_setAt_diverge c a b p q v t :
  a <> b ->
  getAt (c ++ a :: p) (setAt (c ++ b :: q) v t) = getAt (c ++ a :: p) t.
Proof.
  intros Hne. rewrite !getAt_app, getAt_setAt_app.
  change (getAt (a :: p) ?x) with (getAt p (children x !! a)).
  rewrite children_setAt_cons. by rewrite decide_False by done.
Qed.

Lemma getAt_update p v t : getAt p (update p v t) = v.
Proof.
  unfold update. destruct v as [v|]; [apply getAt_setAt|].
  destruct (getAt p t) eqn:E; [apply getAt_setAt | done].
Qed.

Lemma getAt_update_app p q v t :
  getAt p (update (p ++ q) (Some v) t) = setAt q (Some v) (getAt p t).
Proof. apply getAt_setAt_app. Qed.

Lemma getAt_update_diverge c a b p q v t :
  a <> b ->
  getAt (c ++ a :: p) (update (c ++ b :: q) v t) = getAt (c ++ a :: p) t.
Proof.
  intros Hne. unfold update.
  destruct v; [by apply getAt_setAt_diverge|].
  destruct (getAt _ t); [by apply getAt_setAt_diverge | done].
Qed.

Lemma setAt_singleton k v t :
  exists m, setAt [k] (Some v) t = Some (JObject m) /\ m !! k = Some v.
Proof.
  simpl. set (m := partial_alter _ _ _).
  assert (Hk : m !! k = Some v) by (unfold m; by rewrite lookup_partial_alter_eq).
  destruct (decide (m = ∅)) as [E|E].
  - rewrite E, lookup_empty in Hk. done.
  - by exists m.
Qed.

End TreeFacts.

Module JSONFacts.

Lemma json_size_child (m : gmap string JSON) k v :
  m !! k = Some v -> (json_size v < json_size (JObject m))%nat.
Proof.
  intros Hk. simpl.
  rewrite (map_fold_delete_L _ _ k v m); [lia| |done].
  intros. lia.
Qed.

(** Induction on a value, with the hypothesis for every property of an
    object. *)
Lemma JSON_ind_fields (P : JSON -> Prop) :
  (forall s, P (JString s)) ->
  (forall z, P (JNumber z)) ->
  (forall m : gmap string JSON, map_Forall (fun _ v => P v) m -> P (JObject m)) ->
  forall j, P j.
Proof.
  intros Hs Hn Ho j.
  induction (Nat.lt_wf_0_projected json_size j) as [j _ IH].
  destruct j as [s|z|m]; [apply Hs|apply Hn|].
  apply Ho. intros k v Hk. apply IH. by eapply json_size_child.
Qed.

Lemma all_fields_true {A} (P : string -> A -> bool) (m : gmap string A) :
  map_fold (fun k v acc => acc && P k v) true m = true <->
  map_Forall (fun k v => P k v = true) m.
Proof.
  apply (map_fold_weak_ind
           (fun r m => r = true <-> map_Forall (fun k v => P k v = true) m)).
  - split; [intros _; apply map_Forall_empty | done].
  - intros k v m' r Hk IH. rewrite andb_true_iff, IH.
    rewrite map_Forall_insert by done. tauto.
Qed.

Lemma json_eqb_refl j : json_eqb j j = true.
Proof.
  induction j as [s|z|m IH] using JSON_ind_fields; simpl.
  - by apply bool_decide_eq_true.
  - by apply bool_decide_eq_true.
  - rewrite bool_decide_true by done. simpl.
    apply all_fields_true. intros k v Hk. rewrite Hk. by apply IH in Hk.
Qed.

Lemma json_eqb_eq a b : json_eqb a b = true <-> a = b.
Proof.
  split; [|intros ->; apply json_eqb_refl].
  revert b. induction a as [s|z|m IH] using JSON_ind_fields;
    intros [t|y|n]; simpl; try discriminate.
  - by intros ->%bool_decide_eq_true.
  - by intros ->%bool_decide_eq_true.
  - intros [Hdom%bool_decide_eq_true Hall%all_fields_true]%andb_true_iff.
    f_equal. apply map_eq. intros k.
    destruct (m !! k) as [v|] eqn:Hm.
    + specialize (Hall k v Hm). simpl in Hall.
      destruct (n !! k) as [v'|]; [|done].
      f_equal. by apply (IH k v Hm).
    + apply not_elem_of_dom in Hm. rewrite Hdom in Hm.
      by apply not_elem_of_dom in Hm.
Qed.

Lemma sameValue_eq a b : sameValue a b = true <-> a = b.
Proof.
  destruct a as [a|], b as [b|]; simpl; try (split; done).
  rewrite json_eqb_eq. split; [by intros -> | by intros [= ->]].
Qed.

End JSONFacts.

Module PathFacts.
Import JSString PieceFacts.

Lemma pieces_usernames s : pieces ("usernames/" +:+ s) = "usernames" :: pieces s.
Proof. reflexivity. Qed.

Lemma pieces_users s : pieces ("users/" +:+ s) = "users" :: pieces s.
Proof. reflexivity. Qed.

Lemma includes_unit_cons x r c :
  includes (String x r) (String c EmptyString) = false <->
  c <> x /\ includes r (String c EmptyString) = false.
Proof.
  simpl. destruct (ascii_dec c x) as [->|Hne].
  - destruct r; simpl; split; try done; by intros [? _].
  - simpl. split; [by intros ->|by intros [_ ->]].
Qed.

Lemma split_nonempty c s : split c s <> [].
Proof.
  destruct s as [|x r]; [done|]. simpl.
  destruct (Ascii.eqb x c); [done|]. by destruct (split c r).
Qed.

Lemma split_free c d :
  includes d (String c EmptyString) = false -> split c d = [d].
Proof.
  induction d as [|x r IH]; [done|].
  intros [Hne Hr]%includes_unit_cons. simpl.
  rewrite (proj2 (Ascii.eqb_neq x c)) by congruence.
  by rewrite (IH Hr).
Qed.

Lemma split_app_first c a b :
  includes a (String c EmptyString) = false ->
  split c (a +:+ String c b) = a :: split c b.
Proof.
  induction a as [|x r IH].
  - intros _. change (EmptyString +:+ String c b) with (String c b).
    simpl. by rewrite Ascii.eqb_refl.
  - intros [Hne Hr]%includes_unit_cons.
    change (String x r +:+ String c b) with (String x (r +:+ String c b)).
    simpl. rewrite (proj2 (Ascii.eqb_neq x c)) by congruence.
    by rewrite (IH Hr).
Qed.

Lemma split_app_last c a d :
  includes d (String c EmptyString) = false ->
  split c (a +:+ String c d) = split c a ++ [d].
Proof.
  intros Hd. induction a as [|x r IH].
  - change (EmptyString +:+ String c d) with (String c d).
    simpl. by rewrite Ascii.eqb_refl, (split_free c d Hd).
  - change (String x r +:+ String c d) with (String x (r +:+ String c d)).
    simpl. rewrite IH. destruct (Ascii.eqb x c); [done|].
    pose proof (split_nonempty c r). by destruct (split c r).
Qed.



Lemma pieces_key k : isKey k = true -> pieces k = [k].
Proof.
  intros [Ht Hs%negb_true_iff]%andb_true_iff.
  unfold pieces. rewrite (split_free _ _ Hs). simpl. by rewrite Ht.
Qed.

Lemma pieces_app_key a k :
  isKey k = true -> pieces (a +:+ "/" +:+ k) = pieces a ++ [k].
Proof.
  intros [Ht Hs%negb_true_iff]%andb_true_iff.
  unfold pieces. change ("/" +:+ k) with (String "/" k).
  rewrite (split_app_last _ _ _ Hs), List.filter_app. simpl. by rewrite Ht.
Qed.

Lemma pieces_key_app k b :
  isKey k = true -> pieces (k +:+ "/" +:+ b) = k :: pieces b.
Proof.
  intros [Ht Hs%negb_true_iff]%andb_true_iff.
  unfold pieces. change ("/" +:+ b) with (String "/" b).
  rewrite (split_app_first _ _ _ Hs). simpl. by rewrite Ht.
Qed.

Lemma validKey_isKey k : Invariants.validKey k = true -> isKey k = true.
Proof.
  unfold Invariants.validKey.
  by intros [[? _]%andb_true_iff _]%andb_true_iff.
Qed.

Lemma moodRef_pieces userId d :
  isKey d = true ->
  ref ("users/" +:+ userId +:+ "/moods/" +:+ d)
  = ref ("users/" +:+ userId +:+ "/moods") ++ [d].
Proof.
  intros Hd. unfold ref. rewrite <- (pieces_app_key _ _ Hd).
  f_equal. change ("/moods/" +:+ d) with ("/moods" +:+ "/" +:+ d).
  by rewrite !append_assoc.
Qed.

Lemma profileRef_pieces uid :
  isKey uid = true ->
  ref ("users/" +:+ uid +:+ "/profile") = ["users"; uid; "profile"].
Proof.
  intros Hk. unfold ref. rewrite pieces_users.
  change (uid +:+ "/profile") with (uid +:+ "/" +:+ "profile").
  by rewrite (pieces_key_app _ _ Hk).
Qed.

End PathFacts.

Module RunFacts.
Import TreeFacts.

Lemma bind_run {A B} (m : M A) (f : A -> M B) w :
  (m ≫= f) w =
  match m w with
  | (Ok a, w') => f a w'
  | (Throw e, w') => (Throw e, w')
  end.
Proof. reflexivity. Qed.

Lemma deliver_fields f s w :
  db (deliver f s w) = db w /\ listeners (deliver f s w) = listeners w /\
  accounts (deliver f s w) = accounts w /\
  currentUser (deliver f s w) = currentUser w /\
  uidSupply (deliver f s w) = uidSupply w /\
  faults (deliver f s w) = faults w /\ console (deliver f s w) = console w.
Proof. by destruct f. Qed.

Lemma deliver_awaiting f s w : awaiting (deliver f s w) = awaiting w.
Proof. by destruct f. Qed.

Lemma notify_fold_fields (skip : list string -> Fn -> bool) new l : forall w,
  let w' :=
    fold_left
      (fun w' '(r, f) =>
         if skip r f then w' else deliver f (getAt r new) w') l w in
  db w' = db w /\ listeners w' = listeners w /\ accounts w' = accounts w /\
  currentUser w' = currentUser w /\ uidSupply w' = uidSupply w /\
  faults w' = faults w /\ console w' = console w.
Proof.
  induction l as [|[r f] l IH]; intros w; [done|].
  simpl. destruct (skip r f); [apply IH|].
  destruct (IH (deliver f (getAt r new) w)) as (-> & -> & -> & -> & -> & -> & ->).
  apply deliver_fields.
Qed.

Lemma notify_fold_awaiting (skip : list string -> Fn -> bool) new l : forall w,
  awaiting
    (fold_left
       (fun w' '(r, f) =>
          if skip r f then w' else deliver f (getAt r new) w') l w)
  = awaiting w.
Proof.
  induction l as [|[r f] l IH]; intros w; [done|].
  simpl. destruct (skip r f); [apply IH|].
  by rewrite IH, deliver_awaiting.
Qed.

Lemma notify_fields old new w :
  db (notify old new w) = db w /\ listeners (notify old new w) = listeners w /\
  accounts (notify old new w) = accounts w /\
  currentUser (notify old new w) = currentUser w /\
  uidSupply (notify old new w) = uidSupply w /\
  faults (notify old new w) = faults w /\ console (notify old new w) = console w.
Proof.
  apply (notify_fold_fields
           (fun r f => isAwaiting r f w
                       || sameValue (getAt r old) (getAt r new))).
Qed.

Lemma notify_awaiting old new w : awaiting (notify old new w) = awaiting w.
Proof.
  apply (notify_fold_awaiting
           (fun r f => isAwaiting r f w
                       || sameValue (getAt r old) (getAt r new))).
Qed.

Lemma written_fields r v w :
  db (written r v w) = update r v (db w) /\
  listeners (written r v w) = listeners w /\
  accounts (written r v w) = accounts w /\
  currentUser (written r v w) = currentUser w /\
  uidSupply (written r v w) = uidSupply w /\
  faults (written r v w) = faults w /\ console (written r v w) = console w.
Proof.
  unfold written.
  by destruct (notify_fields (db w) (update r v (db w))
                 (withDb (update r v (db w)) w)) as (-> & -> & -> & -> & -> & -> & ->).
Qed.

Lemma written_db r v w : db (written r v w) = update r v (db w).
Proof. apply written_fields. Qed.

Lemma written_awaiting r v w : awaiting (written r v w) = awaiting w.
Proof. unfold written. by rewrite notify_awaiting. Qed.

Lemma written_reliable r v w : reliable w -> reliable (written r v w).
Proof. unfold reliable. by destruct (written_fields r v w) as (_&_&_&_&_& -> &_). Qed.

Lemma request_reliable w : reliable w -> request w = (Ok tt, w).
Proof. unfold reliable, request. rewrite bind_run. simpl. by intros ->. Qed.

Lemma get_reliable r w : reliable w -> get r w = (Ok (getAt r (db w)), w).
Proof. intros H. unfold get. by rewrite bind_run, (request_reliable w H). Qed.

Lemma set_reliable r v w :
  reliable w -> set r v w = (Ok tt, written r (Some v) w).
Proof. intros H. unfold set. by rewrite bind_run, (request_reliable w H). Qed.

Lemma remove_reliable r w :
  reliable w -> remove r w = (Ok tt, written r None w).
Proof. intros H. unfold remove. by rewrite bind_run, (request_reliable w H). Qed.

End RunFacts.

Module KeepFacts.
Import TreeFacts PathFacts RunFacts Db Invariants.

Section Keeps.
Variable I : World -> Prop.
Hypothesis I_data : aboutData I.

Lemma keeps_ret {A} (a : A) (Q : A -> Prop) : Q a -> keeps I (mret a) Q.
Proof. intros HQ w Hw. split; [done|]. intros a' [= <-]. done. Qed.

Lemma keeps_throw {A} e (Q : A -> Prop) : keeps I (throw e) Q.
Proof. intros w Hw. split; [done|]. intros a' [=]. Qed.

Lemma keeps_bind {A B} (m : M A) (f : A -> M B) (Q : A -> Prop) (R : B -> Prop) :
  keeps I m Q -> (forall a, Q a -> keeps I (f a) R) -> keeps I (m ≫= f) R.
Proof.
  intros Hm Hf w Hw. rewrite bind_run.
  destruct (Hm w Hw) as [Hw' HQ]. destruct (m w) as [[a|e] w']; simpl in *.
  - apply (Hf a); [by apply HQ | done].
  - split; [done|]. intros a' [=].
Qed.

Lemma keeps_weaken {A} (m : M A) (Q R : A -> Prop) :
  keeps I m Q -> (forall a, Q a -> R a) -> keeps I m R.
Proof. intros Hm HQR w Hw. destruct (Hm w Hw) as [? HQ]. split; auto. Qed.

Lemma keeps_tryCatch {A} (body : M A) (handler : string -> M A) (Q : A -> Prop) :
  keeps I body Q -> (forall e, keeps I (handler e) Q) ->
  keeps I (tryCatch body handler) Q.
Proof.
  intros Hb Hh w Hw. unfold tryCatch.
  destruct (Hb w Hw) as [Hw' HQ]. destruct (body w) as [[a|e] w']; simpl in *.
  - split; [done|]. intros a' [= <-]. by apply HQ.
  - by apply Hh.
Qed.

Lemma keeps_getWorld : keeps I getWorld (fun _ => True).
Proof. intros w Hw. by split. Qed.

Lemma keeps_consoleWrite l a : keeps I (consoleWrite l a) (fun _ => True).
Proof. intros w Hw. split; [|done]. simpl. by apply I_data. Qed.

Lemma keeps_request : keeps I request (fun _ => True).
Proof.
  intros w Hw. split; [|done]. unfold request. rewrite bind_run.
  unfold getWorld at 1. cbn [fst snd].
  destruct (faults w) as [|[msg|] rest]; cbn.
  - done.
  - by apply I_data.
  - by apply I_data.
Qed.

Lemma keeps_get r : keeps I (get r) (fun _ => True).
Proof.
  apply keeps_bind with (Q := fun _ => True); [apply keeps_request|].
  intros _ _. apply keeps_bind with (Q := fun _ => True);
    [apply keeps_getWorld | intros; by apply keeps_ret].
Qed.

Lemma notify_fold_calls (skip : list string -> Fn -> bool) new l : forall w0 c,
  exists c',
    fold_left
      (fun w' '(r, f) =>
         if skip r f then w' else deliver f (getAt r new) w') l (withCalls c w0)
    = withCalls c' w0.
Proof.
  induction l as [|[r f] l IH]; intros w0 c; [by exists c|].
  simpl. destruct (skip r f); [apply IH|].
  destruct f; try apply IH. apply (IH w0).
Qed.

Lemma notify_calls old new w : exists c, notify old new w = withCalls c w.
Proof.
  unfold notify.
  destruct (notify_fold_calls
              (fun r f => isAwaiting r f w
                          || sameValue (getAt r old) (getAt r new))
              new (listeners w) w (calls w)) as [c Hc].
  exists c. rewrite <- Hc. by destruct w.
Qed.

Lemma keeps_write r v : survivesWrite I r v -> keeps I (write r v) (fun _ => True).
Proof.
  intros Hs w Hw. split; [|done]. simpl. unfold written.
  destruct (notify_calls (db w) (update r v (db w))
              (withDb (update r v (db w)) w)) as [c ->].
  apply I_data. by apply Hs.
Qed.

Lemma keeps_set r v :
  survivesWrite I r (Some v) -> keeps I (set r v) (fun _ => True).
Proof.
  intros Hs. apply keeps_bind with (Q := fun _ => True); [apply keeps_request|].
  intros _ _. by apply keeps_write.
Qed.

Lemma keeps_getUidByUsername u : keeps I (getUidByUsername u) (fun _ => True).
Proof.
  apply keeps_bind with (Q := fun _ => True); [apply keeps_get|].
  intros [v|] _; by apply keeps_ret.
Qed.

Lemma keeps_getUserProfile u : keeps I (getUserProfile u) (fun _ => True).
Proof.
  unfold getUserProfile. destruct (emptyOrReserved u); [by apply keeps_ret|].
  apply keeps_tryCatch.
  - apply keeps_bind with (Q := fun _ => True); [apply keeps_get|].
    intros [v|] _; by apply keeps_ret.
  - intros e. apply keeps_bind with (Q := fun _ => True);
      [apply keeps_consoleWrite|]. intros _ _. by apply keeps_ret.
Qed.

End Keeps.

Lemma sessionIs_data a u : aboutData (sessionIs a u).
Proof. intros w Hw. by repeat split; intros; destruct Hw. Qed.

Lemma sessionIs_write a u r v : survivesWrite (sessionIs a u) r v.
Proof. by intros w Hw. Qed.

End KeepFacts.

Module AuthFacts.
Import TreeFacts PathFacts RunFacts KeepFacts Db Auth Invariants.

Lemma sameData_data w : aboutData (sameData w).
Proof. intros w' Hw. by repeat split; intros; destruct Hw as (?&?&?&?). Qed.

Lemma request_run w :
  request w =
  match faults w with
  | [] => (Ok tt, w)
  | None :: rest => (Ok tt, withFaults rest w)
  | Some msg :: rest => (Throw msg, withFaults rest w)
  end.
Proof. unfold request. rewrite bind_run. cbn. by destruct (faults w) as [|[?|] ?]. Qed.

Lemma set_run r v w :
  set r v w =
  match faults w with
  | [] => (Ok tt, written r (Some v) w)
  | None :: rest => (Ok tt, written r (Some v) (withFaults rest w))
  | Some msg :: rest => (Throw msg, withFaults rest w)
  end.
Proof.
  unfold set. rewrite bind_run, request_run.
  by destruct (faults w) as [|[?|] ?].
Qed.

Lemma consoleWrite_run l a w :
  consoleWrite l a w
  = (Ok tt, withConsole (console w ++ [ {| level := l; args := a |} ]) w).
Proof. reflexivity. Qed.

Lemma signIn_session e p w cred w' u :
  signInWithEmailAndPassword e p w = (Ok cred, w') ->
  user cred = Some u -> currentUser w' = Some u.
Proof.
  unfold signInWithEmailAndPassword. rewrite bind_run, request_run.
  destruct (faults w) as [|[msg|] rest]; try discriminate.
  all: rewrite bind_run; cbn [getWorld]; destruct e as [[e| |]|]; try discriminate.
  all: destruct (find _ _); try discriminate.
  all: rewrite bind_run; cbn; intros [= <- <-] [= <-]; reflexivity.
Qed.

Lemma autoRepair_returns a b u w : fst (autoRepair a b u w) = Ok tt.
Proof.
  unfold autoRepair, tryCatch.
  match goal with
  | |- fst (match ?body with _ => _ end) = _ =>
      destruct body as [[[]|e] w']; reflexivity
  end.
Qed.

Lemma keeps_registerUsername I u e uid :
  aboutData I ->
  survivesWrite I (ref ("usernames/" +:+ normalized u)) (Some (JString uid)) ->
  keeps I (registerUsername u e uid) (fun _ => True).
Proof. intros HI Hs. by apply keeps_set. Qed.

Lemma keeps_saveUserProfile I uid p :
  aboutData I ->
  (reserved uid = false ->
   survivesWrite I (ref ("users/" +:+ uid +:+ "/profile")) (Some (jsonOfProfile p))) ->
  keeps I (saveUserProfile uid p) (fun _ => True).
Proof.
  intros HI Hs. unfold saveUserProfile. destruct (reserved uid).
  - by apply keeps_consoleWrite.
  - apply keeps_set; auto.
Qed.

Lemma keeps_autoRepair I a b u :
  aboutData I ->
  survivesWrite I (ref ("usernames/" +:+ normalized a)) (Some (JString (User.uid u))) ->
  (reserved (User.uid u) = false ->
   survivesWrite I (ref ("users/" +:+ User.uid u +:+ "/profile"))
     (Some (jsonOfProfile {| Types.uid := User.uid u; Types.email := b;
                             Types.username := a |}))) ->
  keeps I (autoRepair a b u) (fun _ => True).
Proof.
  intros HI H1 H2. unfold autoRepair. apply keeps_tryCatch.
  - apply keeps_bind with (Q := fun _ => True); [by apply keeps_consoleWrite|].
    intros _ _.
    apply keeps_bind with (Q := fun _ => True);
      [by apply keeps_registerUsername|].
    intros _ _.
    apply keeps_bind with (Q := fun _ => True);
      [by apply keeps_saveUserProfile|].
    intros _ _. by apply keeps_consoleWrite.
  - intros e. by apply keeps_consoleWrite.
Qed.

Lemma reliable_withConsole c w : reliable w -> reliable (withConsole c w).
Proof. done. Qed.

Lemma autoRepair_reliable a b u w :
  reliable w -> reserved (User.uid u) = false ->
  db (snd (autoRepair a b u w))
  = update (ref ("users/" +:+ User.uid u +:+ "/profile"))
      (Some (jsonOfProfile {| Types.uid := User.uid u; Types.email := b;
                              Types.username := a |}))
      (update (ref ("usernames/" +:+ normalized a))
         (Some (JString (User.uid u))) (db w)).
Proof.
  intros Hw Hu. unfold autoRepair, tryCatch.
  rewrite bind_run, consoleWrite_run.
  rewrite bind_run. unfold registerUsername. fold (normalized a).
  rewrite set_reliable by done.
  rewrite bind_run. unfold saveUserProfile. rewrite Hu.
  rewrite set_reliable by (by apply written_reliable).
  rewrite consoleWrite_run. cbn [fst snd db withConsole].
  by rewrite !written_db.
Qed.

Lemma autoRepair_first_write_fails a b u w msg rest :
  faults w = Some msg :: rest ->
  last (console (snd (autoRepair a b u w)))
  = Some {| level := ErrorLevel;
            args := ["Failed to auto-fix legacy username:"; msg] |}.
Proof.
  intros Hf. unfold autoRepair, tryCatch.
  rewrite bind_run, consoleWrite_run.
  rewrite bind_run. unfold registerUsername.
  rewrite set_run. cbn [faults withConsole]. rewrite Hf.
  rewrite consoleWrite_run. cbn [snd console withConsole withFaults].
  apply last_snoc.
Qed.

Lemma autoRepair_second_write_fails a b u w msg rest :
  reserved (User.uid u) = false ->
  faults w = None :: Some msg :: rest ->
  last (console (snd (autoRepair a b u w)))
  = Some {| level := ErrorLevel;
            args := ["Failed to auto-fix legacy username:"; msg] |}.
Proof.
  intros Hu Hf. unfold autoRepair, tryCatch.
  rewrite bind_run, consoleWrite_run.
  rewrite bind_run. unfold registerUsername.
  rewrite set_run. cbn [faults withConsole]. rewrite Hf.
  rewrite bind_run. unfold saveUserProfile. rewrite Hu.
  rewrite set_run.
  destruct (written_fields (ref ("usernames/" +:+ JSString.trim (JSString.toLowerCase a)))
    (Some (JString (User.uid u)))
    (withFaults (Some msg :: rest)
       (withConsole (console w ++
          [{| level := LogLevel; args := ["Fixing legacy username mapping for:"; a] |}]) w)))
    as (_ & _ & _ & _ & _ & -> & Hc).
  cbn [faults withFaults]. rewrite consoleWrite_run.
  cbn [snd console withConsole withFaults].
  apply last_snoc.
Qed.

End AuthFacts.

Module ProfileClaims.
Import JSDate Profile DateFacts StringFacts ProfileFacts.

(** C1 (amended): for the empty mood collection each of the three
    summaries has count 0 and, as average, the number 0 itself: the very
    value the all-time summary of a single neutral day has.  Only the count
    tells "no data" from a true average of 0, and [hasData] is the test of
    the count that the view makes. *)
Theorem stats_empty_collection (today : Z) :
  stats today [] =
    [ {| label := "За 7 дней"; average := JSNumber.zero; count := 0 |};
      {| label := "За месяц"; average := JSNumber.zero; count := 0 |};
      {| label := "За всё время"; average := JSNumber.zero; count := 0 |} ]
  /\ Forall (fun s => hasData s = false) (stats today [])
  /\ (forall d ts,
        let neutral := [ {| date := d; value := Neutral; timestamp := ts |} ] in
        average (nth 2 (stats today neutral) (Build_Stat "" JSNumber.zero 0))
          = JSNumber.zero
        /\ hasData (nth 2 (stats today neutral) (Build_Stat "" JSNumber.zero 0))
          = true).
Proof.
  split; [reflexivity|]. split; [by repeat constructor|].
  intros d ts. split; reflexivity.
Qed.

(** C1 as stated fails: no summary of the empty collection has an
    average different from the number 0. *)
Lemma stats_empty_average_is_zero :
  ~ (forall s, In s (stats 1714557600000 []) ->
       count s = 0%nat /\ average s <> JSNumber.zero).
Proof.
  intros H. destruct (H _ (or_introl eq_refl)) as [_ Hne]. by apply Hne.
Qed.

(** C2: with [w] the day number of the Monday of the ISO week of [today]
    (six days before [today] when it is a Sunday), the window runs from
    Monday 00:00:00.000 to Sunday 23:59:59.999; the first summary is the
    average and the count of the records in it; a record dated YYYY-MM-DD
    is in it exactly when the day of its date string lies in [w, w + 6],
    whatever its timestamp; and of the records dated Monday (value 2),
    Wednesday (value -2) and next Monday (value 0) the summary keeps the
    first two: average 0, count 2. *)
Theorem currentWeek_summary (today : Z) (moodList : list MoodLog) :
  Z.abs today <= maxTime - 7 * msPerDay ->
  let w := weekStartDay today in
  (WeekDay (MakeDate w 0) = 1 /\ w <= Day today <= w + 6
   /\ (WeekDay today = 0 -> w = Day today - 6))
  /\ monday today = Some (MakeDate w (MakeTime 0 0 0 0))
  /\ sunday today = Some (MakeDate (w + 6) (MakeTime 23 59 59 999))
  /\ head (stats today moodList)
     = Some {| label := "За 7 дней";
               average := getAverage (currentWeekLogs today moodList);
               count := List.length (currentWeekLogs today moodList) |}
  /\ (forall m y mo d,
        ymdOfString (date m) = Some (y, mo, d) ->
        In m (currentWeekLogs today moodList) <->
        In m moodList /\ w <= dayOfYmd y mo d <= w + 6)
  /\ (forall mon wed nextMon t1 t2 t3 y1 m1 d1 y2 m2 d2 y3 m3 d3,
        ymdOfString mon = Some (y1, m1, d1) -> w <= dayOfYmd y1 m1 d1 <= w + 6 ->
        ymdOfString wed = Some (y2, m2, d2) -> w <= dayOfYmd y2 m2 d2 <= w + 6 ->
        ymdOfString nextMon = Some (y3, m3, d3) ->
        w + 7 <= dayOfYmd y3 m3 d3 <= w + 13 ->
        let records :=
          [ {| date := mon; value := VeryGood; timestamp := t1 |};
            {| date := wed; value := VeryBad; timestamp := t2 |};
            {| date := nextMon; value := Neutral; timestamp := t3 |} ] in
        currentWeekLogs today records = firstn 2 records
        /\ head (stats today records)
           = Some {| label := "За 7 дней"; average := JSNumber.zero; count := 2 |}).
Proof.
  intros Hnow w.
  assert (Hsel : forall l m y mo d,
            ymdOfString (date m) = Some (y, mo, d) ->
            In m (currentWeekLogs today l) <->
            In m l /\ w <= dayOfYmd y mo d <= w + 6).
  { intros l m y mo d Hd.
    by rewrite currentWeekLogs_In, (inCurrentWeek_ymd today m y mo d Hnow Hd). }
  split; [|split; [|split; [|split; [|split]]]].
  - split; [|split].
    + unfold WeekDay. rewrite Day_MakeDate by (unfold msPerDay; lia).
      unfold w, weekStartDay, WeekDay. Z.div_mod_to_equations; lia.
    + apply weekStartDay_bounds.
    + intros Hsun. unfold w, weekStartDay. rewrite Hsun. reflexivity.
  - by apply monday_value.
  - by apply sunday_value.
  - reflexivity.
  - apply Hsel.
  - intros mon wed nextMon t1 t2 t3 y1 m1 d1 y2 m2 d2 y3 m3 d3
      Hmon Hmon_in Hwed Hwed_in Hnext Hnext_out records.
    assert (Hlogs : currentWeekLogs today records = firstn 2 records).
    { unfold currentWeekLogs, records. cbn [List.filter firstn].
      rewrite (proj2 (inCurrentWeek_ymd today (Build_MoodLog mon _ _) _ _ _ Hnow Hmon))
        by done.
      rewrite (proj2 (inCurrentWeek_ymd today (Build_MoodLog wed _ _) _ _ _ Hnow Hwed))
        by done.
      destruct (inCurrentWeek today _) eqn:E; [|done].
      apply (inCurrentWeek_ymd today (Build_MoodLog nextMon _ _) _ _ _ Hnow Hnext) in E.
      fold w in E. lia. }
    split; [exact Hlogs|].
    unfold stats. cbn [head]. rewrite Hlogs. reflexivity.
Qed.

Lemma currentWeek_summary_witness :
  Z.abs 1714557600000 <= maxTime - 7 * msPerDay /\
  head (stats 1714557600000
          [ {| date := "2024-04-29"; value := VeryGood; timestamp := 1 |};
            {| date := "2024-05-01"; value := VeryBad; timestamp := 2 |};
            {| date := "2024-05-06"; value := Neutral; timestamp := 3 |} ])
  = Some {| label := "За 7 дней"; average := JSNumber.zero; count := 2 |}.
Proof.
  assert (Hnow : Z.abs 1714557600000 <= maxTime - 7 * msPerDay) by (vm_compute; discriminate).
  split; [exact Hnow|].
  pose proof (currentWeek_summary 1714557600000 [] Hnow) as (_ & _ & _ & _ & _ & Hex).
  apply (Hex "2024-04-29" "2024-05-01" "2024-05-06" 1 2 3
             2024 4 29 2024 5 1 2024 5 6); try reflexivity;
    vm_compute; split; discriminate.
Defined.

End ProfileClaims.

Module GuardClaims.
Import TreeFacts PathFacts RunFacts Db Invariants Types.

(** C3: for a user identifier containing '.' or '@', [saveMood] and
    [deleteMood] return normally and leave the world (store included) as
    it is, and [getUserProfile] and [getUserMoods] return [null] and the
    empty object, without throwing and without any other effect. *)
Theorem reserved_id_is_silently_rejected (userId : string) :
  JSString.includes userId "." = true \/ JSString.includes userId "@" = true ->
  forall (mood : MoodLog) (dateStr : string) (w : World),
    saveMood userId mood w = (Ok tt, w)
    /\ deleteMood userId dateStr w = (Ok tt, w)
    /\ getUserProfile userId w = (Ok None, w)
    /\ getUserMoods userId w = (Ok (JObject ∅), w).
Proof.
  intros H mood dateStr w.
  assert (Hr : reserved userId = true).
  { unfold reserved. destruct H as [-> | ->]; [done | apply orb_true_r]. }
  assert (He : emptyOrReserved userId = true).
  { unfold emptyOrReserved. unfold reserved in Hr.
    apply orb_true_iff in Hr as [-> | ->];
      rewrite ?orb_true_r; reflexivity. }
  unfold saveMood, deleteMood, getUserProfile, getUserMoods.
  by rewrite Hr, He.
Qed.

Lemma reserved_id_is_silently_rejected_witness :
  JSString.includes "a.b" "." = true /\
  saveMood "a.b" {| date := "2024-05-01"; value := Good; timestamp := 1 |} emptyWorld
  = (Ok tt, emptyWorld).
Proof.
  split; [reflexivity|].
  apply (reserved_id_is_silently_rejected "a.b" (or_introl eq_refl)
           {| date := "2024-05-01"; value := Good; timestamp := 1 |} "" emptyWorld).
Defined.

(** C9: the empty user identifier is refused by the three readers
    ([null], the empty object, an immediate callback with the empty object
    and a function that does nothing) but not by the two writers, which
    issue [set] and [remove] at the path [users//moods/{date}]; when the
    date is a key that the store accepts and the request succeeds, the
    record is in the store, under [users/moods]. *)
Theorem empty_id_guarded_on_reads_only (w : World) (mood : MoodLog)
    (dateStr : string) (callback : nat) :
  getUserProfile "" w = (Ok None, w)
  /\ getUserMoods "" w = (Ok (JObject ∅), w)
  /\ subscribeToMoods "" callback w
     = (Ok DoNothing, withCalls (calls w ++ [(callback, JObject ∅)]) w)
  /\ saveMood "" mood w
     = set (ref ("users//moods/" +:+ date mood)) (jsonOfMood mood) w
  /\ deleteMood "" dateStr w = remove (ref ("users//moods/" +:+ dateStr)) w
  /\ (reliable w -> validKey (date mood) = true ->
      fst (saveMood "" mood w) = Ok tt /\
      getAt ["users"; "moods"; date mood] (db (snd (saveMood "" mood w)))
      = Some (jsonOfMood mood)).
Proof.
  repeat split; try reflexivity.
  - change (saveMood "" mood w)
      with (set (ref ("users//moods/" +:+ date mood)) (jsonOfMood mood) w).
    by rewrite set_reliable.
  - change (saveMood "" mood w)
      with (set (ref ("users//moods/" +:+ date mood)) (jsonOfMood mood) w).
    rewrite set_reliable by done. cbn [fst snd]. rewrite written_db.
    assert (Hp : ref ("users//moods/" +:+ date mood) = ["users"; "moods"; date mood]).
    { change (ref ("users//moods/" +:+ date mood))
        with ("users" :: "moods" :: pieces (date mood)).
      rewrite pieces_key; [done|]. by apply validKey_isKey. }
    rewrite Hp. apply getAt_update.
Qed.

Lemma empty_id_guarded_on_reads_only_witness :
  reliable emptyWorld /\
  getAt ["users"; "moods"; "2024-05-01"]
    (db (snd (saveMood "" Samples.may1 emptyWorld)))
  = Some (jsonOfMood Samples.may1).
Proof.
  split; [reflexivity|].
  destruct (empty_id_guarded_on_reads_only emptyWorld Samples.may1 "" 0)
    as (_ & _ & _ & _ & _ & H).
  exact (proj2 (H eq_refl eq_refl)).
Defined.

End GuardClaims.

Module StoreClaims.
Import TreeFacts PathFacts RunFacts PieceFacts CaseFacts Db Invariants Types.

(** C5: [getUidByUsername] reads, and [registerUsername] writes, the
    mapping at the key obtained by lowercasing and trimming the username;
    so usernames with the same normalized form resolve alike, register
    alike, and, the normalized form being a key that the store accepts
    and the requests succeeding, resolve to what either has registered;
    usernames that differ only by case or by surrounding white space have
    the same normalized form, in every script; "  Alice ", "alice" and
    "ALICE" all give "alice". *)
Theorem resolve_and_register_use_the_normalized_key :
  (forall u w,
     getUidByUsername u w = get (ref ("usernames/" +:+ normalized u)) w)
  /\ (forall u e uid w,
        registerUsername u e uid w
        = set (ref ("usernames/" +:+ normalized u)) (JString uid) w)
  /\ (forall u1 u2,
        normalized u1 = normalized u2 ->
        (forall w, getUidByUsername u1 w = getUidByUsername u2 w) /\
        (forall e1 e2 uid w,
           registerUsername u1 e1 uid w = registerUsername u2 e2 uid w) /\
        (forall e uid w,
           validKey (normalized u1) = true -> storable uid = true ->
           reliable w ->
           fst (getUidByUsername u2 (snd (registerUsername u1 e uid w)))
           = Ok (Some (JString uid))))
  /\ (forall a b u1 u2,
        blank a = true -> blank b = true ->
        JSString.toLowerCase u1 = JSString.toLowerCase u2 ->
        normalized (a +:+ u1 +:+ b) = normalized u2)
  /\ (normalized "  Alice " = "alice" /\ normalized "alice" = "alice"
      /\ normalized "ALICE" = "alice"
      /\ normalized " ЖЕНЯ" = "женя" /\ normalized "Женя " = "женя").
Proof.
  assert (Hget : forall u w,
            getUidByUsername u w = get (ref ("usernames/" +:+ normalized u)) w).
  { intros u w. unfold getUidByUsername. rewrite bind_run.
    change (child rootRef ?p) with (ref p). fold (normalized u).
    destruct (get _ w) as [[[v|]|e] w']; reflexivity. }
  split; [exact Hget|]. split; [reflexivity|]. split; [|split].
  - intros u1 u2 Hn. split; [|split].
    + intros w. by rewrite !Hget, Hn.
    + intros e1 e2 uid w. unfold registerUsername. fold (normalized u1).
      fold (normalized u2). by rewrite Hn.
    + intros e uid w _ _ Hw. rewrite Hget.
      unfold registerUsername. fold (normalized u1). rewrite Hn.
      rewrite set_reliable by done. cbn [fst snd].
      rewrite get_reliable by (by apply written_reliable). cbn [fst snd].
      by rewrite written_db, getAt_update.
  - intros a b u1 u2 Ha Hb Hl. rewrite (normalized_pad a u1 b Ha Hb).
    unfold normalized. by rewrite Hl.
  - by vm_compute.
Qed.

Lemma resolve_and_register_use_the_normalized_key_witness :
  normalized "  Alice " = normalized "ALICE" /\
  fst (getUidByUsername "ALICE"
         (snd (registerUsername "  Alice " "a@x.org" "u1" emptyWorld)))
  = Ok (Some (JString "u1")).
Proof.
  split; [reflexivity|].
  destruct resolve_and_register_use_the_normalized_key as (_ & _ & H & _).
  apply (H "  Alice " "ALICE" eq_refl); reflexivity.
Defined.

(** C6 (amended): for a user identifier without '@' and a record, the
    identifier and the date each a key that the store accepts (not empty,
    at most 128 bytes, without '/', '.', '#', '$', '[', ']' and
    control characters, as every YYYY-MM-DD date is), when the requests
    succeed: after [saveMood], [getUserMoods] returns an object whose
    property [date] is the record; after a second [saveMood] with the
    same date, that property is the later record. *)
Theorem save_then_getAll (userId : string) (mood later : MoodLog) (w : World) :
  emptyOrReserved userId = false ->
  validKey userId = true ->
  validKey (date mood) = true ->
  date later = date mood ->
  reliable w ->
  let w1 := snd (saveMood userId mood w) in
  let w2 := snd (saveMood userId later w1) in
  (exists m, getUserMoods userId w1 = (Ok (JObject m), w1)
             /\ m !! date mood = Some (jsonOfMood mood))
  /\ (exists m, getUserMoods userId w2 = (Ok (JObject m), w2)
                /\ m !! date mood = Some (jsonOfMood later)).
Proof.
  intros Hid _ Hvalid Hdate Hw.
  pose proof (validKey_isKey _ Hvalid) as Hkey.
  assert (Hres : reserved userId = false).
  { unfold emptyOrReserved, reserved in *.
    apply orb_false_iff in Hid as [[_ H1]%orb_false_iff H2]. by rewrite H1, H2. }
  assert (Hsave : forall (r : MoodLog) w0,
            date r = date mood -> reliable w0 ->
            let w' := snd (saveMood userId r w0) in
            reliable w' /\
            exists m, getUserMoods userId w' = (Ok (JObject m), w')
                      /\ m !! date mood = Some (jsonOfMood r)).
  { intros r w0 Hr Hw0. unfold saveMood. rewrite Hres, Hr.
    rewrite set_reliable by done. cbn [fst snd].
    pose proof (written_reliable
      (ref ("users/" +:+ userId +:+ "/moods/" +:+ date mood))
      (Some (jsonOfMood r)) w0 Hw0) as Hw'.
    split; [exact Hw'|].
    unfold getUserMoods. rewrite Hid. unfold tryCatch.
    rewrite bind_run. change (child rootRef ?p) with (ref p).
    rewrite get_reliable by done. rewrite written_db.
    rewrite (moodRef_pieces userId _ Hkey), getAt_update_app.
    destruct (setAt_singleton (date mood) (jsonOfMood r)
                (getAt (ref ("users/" +:+ userId +:+ "/moods")) (db w0)))
      as (m & -> & Hm).
    by exists m. }
  intros w1 w2.
  destruct (Hsave mood w eq_refl Hw) as [Hw1 H1].
  destruct (Hsave later w1 Hdate Hw1) as [_ H2].
  by split.
Qed.

Lemma save_then_getAll_witness :
  exists m,
    getUserMoods "u1"
      (snd (saveMood "u1" {| date := "2024-05-01"; value := Bad; timestamp := 2 |}
         (snd (saveMood "u1" {| date := "2024-05-01"; value := VeryGood; timestamp := 1 |}
                 emptyWorld))))
    = (Ok (JObject m),
       snd (saveMood "u1" {| date := "2024-05-01"; value := Bad; timestamp := 2 |}
         (snd (saveMood "u1" {| date := "2024-05-01"; value := VeryGood; timestamp := 1 |}
                 emptyWorld))))
    /\ m !! "2024-05-01"
       = Some (jsonOfMood {| date := "2024-05-01"; value := Bad; timestamp := 2 |}).
Proof.
  exact (proj2 (save_then_getAll "u1"
           {| date := "2024-05-01"; value := VeryGood; timestamp := 1 |}
           {| date := "2024-05-01"; value := Bad; timestamp := 2 |}
           emptyWorld eq_refl eq_refl eq_refl eq_refl eq_refl)).
Defined.

(** C6 as stated fails: for the identifier "a.b" the record saved is not
    read back. *)
Lemma save_with_reserved_id_is_not_read_back :
  ~ (forall (userId : string) (mood : MoodLog) (w : World),
       reliable w ->
       exists m,
         fst (getUserMoods userId (snd (saveMood userId mood w))) = Ok (JObject m)
         /\ m !! date mood = Some (jsonOfMood mood)).
Proof.
  intros H.
  destruct (H "a.b" {| date := "2024-05-01"; value := VeryGood; timestamp := 1 |}
              emptyWorld eq_refl) as (m & Hm & Hl).
  change (Ok (JObject ∅) = Ok (JObject m)) in Hm.
  injection Hm as <-. by rewrite lookup_empty in Hl.
Qed.




End StoreClaims.

Module AuthClaims.
Import TreeFacts PathFacts RunFacts KeepFacts AuthFacts Db Auth Invariants Samples.

Lemma handleLogin_try_legacy f w w1 w2 legacyEmail u :
  JSString.includes (email f) "@" = false ->
  getUidByUsername (JSString.trim (email f)) w
    = (Ok (Some (JString legacyEmail)), w1) ->
  JSString.includes legacyEmail "@" = true ->
  signInWithEmailAndPassword (Some (JString legacyEmail)) (password f) w1
    = (Ok {| user := Some u |}, w2) ->
  handleLogin_try f w = autoRepair (JSString.trim (email f)) legacyEmail u w2.
Proof.
  intros Hname Hget Hat Hsign. unfold handleLogin_try.
  rewrite bind_run, Hname. cbn [negb].
  rewrite bind_run, Hget.
  assert (Ht : truthy (Some (JString legacyEmail)) = true).
  { by destruct legacyEmail. }
  rewrite Ht. cbn [negb]. rewrite Hat.
  cbn [mret M_ret fst snd]. rewrite bind_run, Hsign.
  cbn [user]. by rewrite Hat.
Qed.

Lemma usernames_users_apart p q v t :
  getAt (ref ("usernames/" +:+ p)) (update (ref ("users/" +:+ q)) v t)
  = getAt (ref ("usernames/" +:+ p)) t.
Proof.
  unfold ref. rewrite pieces_usernames, pieces_users.
  by apply (getAt_update_diverge []).
Qed.

(** C4: when the input is a username whose mapping is a string
    containing '@' and the sign-in with that string succeeds, the sign-in
    completes (no error shown, loading over, the user signed in) whatever
    happens to the repair; when both repair writes succeed (the identifier
    being free of '.' and '@') the mapping of the normalized username is
    the user's identifier and the profile at that identifier is
    {uid, email, username}; when a repair write fails, the failure is the
    last thing logged. *)
Theorem legacy_login_repairs_the_mapping
    (f : Form) (w w1 w2 : World) (legacyEmail : string) (u : User.t) :
  JSString.includes (email f) "@" = false ->
  getUidByUsername (JSString.trim (email f)) w
    = (Ok (Some (JString legacyEmail)), w1) ->
  JSString.includes legacyEmail "@" = true ->
  signInWithEmailAndPassword (Some (JString legacyEmail)) (password f) w1
    = (Ok {| user := Some u |}, w2) ->
  let usernameInput := JSString.trim (email f) in
  let profile :=
    {| Types.uid := User.uid u; Types.email := legacyEmail;
       Types.username := usernameInput |} in
  let f' := fst (handleLogin f w) in
  let w' := snd (handleLogin f w) in
  (error f' = "" /\ loading f' = false
   /\ currentUser w' = Some u /\ accounts w' = accounts w2)
  /\ (reliable w2 -> reserved (User.uid u) = false ->
      getAt (ref ("usernames/" +:+ normalized usernameInput)) (db w')
        = Some (JString (User.uid u))
      /\ getAt (ref ("users/" +:+ User.uid u +:+ "/profile")) (db w')
        = Some (jsonOfProfile profile))
  /\ (forall msg rest,
        faults w2 = Some msg :: rest \/
        (reserved (User.uid u) = false /\ faults w2 = None :: Some msg :: rest) ->
        last (console w')
        = Some {| level := ErrorLevel;
                  args := ["Failed to auto-fix legacy username:"; msg] |}).
Proof.
  intros Hname Hget Hat Hsign usernameInput profile f' w'.
  pose proof (handleLogin_try_legacy (setError "" (setLoading true f))
                w w1 w2 legacyEmail u Hname Hget Hat Hsign) as Htry.
  change (email (setError "" (setLoading true f))) with (email f) in Htry.
  fold usernameInput in Htry.
  pose proof (autoRepair_returns usernameInput legacyEmail u w2) as Hok.
  assert (Hrun : handleLogin f w
                 = (setLoading false (setError "" (setLoading true f)),
                    snd (autoRepair usernameInput legacyEmail u w2))).
  { unfold handleLogin. rewrite Htry.
    destruct (autoRepair usernameInput legacyEmail u w2) as [[[]|e] w3];
      [reflexivity | discriminate Hok]. }
  unfold f', w'. rewrite Hrun. cbn [fst snd].
  split; [|split].
  - split; [reflexivity|]. split; [reflexivity|].
    pose proof (signIn_session _ _ _ _ _ u Hsign eq_refl) as Hcur.
    destruct (keeps_autoRepair (sessionIs (accounts w2) (Some u))
                usernameInput legacyEmail u (sessionIs_data _ _)
                (sessionIs_write _ _ _ _) (fun _ => sessionIs_write _ _ _ _)
                w2 (conj eq_refl Hcur)) as [[Hacc Hcu] _].
    by split.
  - intros Hw Hu. rewrite (autoRepair_reliable _ _ _ _ Hw Hu).
    fold profile. split.
    + by rewrite usernames_users_apart, getAt_update.
    + apply getAt_update.
  - intros msg rest [Hf | [Hu Hf]].
    + by eapply autoRepair_first_write_fails.
    + by eapply autoRepair_second_write_fails.
Qed.

Lemma legacy_login_repairs_the_mapping_witness :
  error (fst (handleLogin legacyForm legacyWorld)) = ""
  /\ getAt ["usernames"; "bob"] (db (snd (handleLogin legacyForm legacyWorld)))
     = Some (JString "UB").
Proof.
  pose proof (legacy_login_repairs_the_mapping legacyForm legacyWorld
                legacyWorld
                (withSession (accounts legacyWorld)
                   (Some {| User.uid := "UB"; User.email := "bob@x.org" |})
                   [] legacyWorld)
                "bob@x.org" {| User.uid := "UB"; User.email := "bob@x.org" |}
                eq_refl eq_refl eq_refl eq_refl) as [[He _] [Hfix _]].
  split; [exact He|].
  exact (proj1 (Hfix eq_refl eq_refl)).
Defined.

(** C7 (amended): when the form passes its local checks and the lookup
    of the chosen username returns a truthy value (any mapping but the
    empty string, the number 0 and [null]), registration ends with the
    error "username taken" and the data (tree, accounts, signed-in user,
    identifiers to come) are those of before; [registerUsername] itself is
    a bare [set]: it reads nothing and, when the normalized username is a
    key that the store accepts and the request succeeds, the mapping is
    the new identifier whatever was there. *)
Theorem taken_username_stops_registration
    (f : Form) (w w1 : World) (existing : option JSON) :
  Nat.ltb (JSString.length (username f)) 3 = false ->
  password f = confirmPassword f ->
  getUidByUsername (username f) w = (Ok existing, w1) ->
  truthy existing = true ->
  (error (fst (handleRegister f w)) = "Этот юзернейм уже занят"
   /\ loading (fst (handleRegister f w)) = false
   /\ sameData w (snd (handleRegister f w)))
  /\ (forall u e uid w0,
        registerUsername u e uid w0
        = set (ref ("usernames/" +:+ normalized u)) (JString uid) w0)
  /\ (forall u e uid w0,
        validKey (normalized u) = true -> storable uid = true ->
        reliable w0 ->
        fst (registerUsername u e uid w0) = Ok tt /\
        getAt (ref ("usernames/" +:+ normalized u))
              (db (snd (registerUsername u e uid w0)))
        = Some (JString uid)).
Proof.
  intros Hlen Hpw Hget Htaken. split; [|split].
  - assert (Hrun : handleRegister f w
      = (setLoading false
           (setError "Этот юзернейм уже занят" (setError "" (setLoading true f))),
         withConsole
           (console w1 ++ [ {| level := ErrorLevel; args := ["Этот юзернейм уже занят"] |} ])
           w1)).
    { unfold handleRegister. cbn [username setError setLoading password confirmPassword].
      rewrite Hlen, Hpw, bool_decide_true by done. cbn [negb].
      unfold handleRegister_try. rewrite bind_run.
      cbn [username setError setLoading]. rewrite Hget, Htaken. reflexivity. }
    rewrite Hrun. cbn [fst snd]. split; [reflexivity|]. split; [reflexivity|].
    destruct (keeps_getUidByUsername (sameData w) (sameData_data w)
                (username f) w) as [Hsame _]; [by repeat split|].
    rewrite Hget in Hsame. cbn [snd] in Hsame.
    by apply (sameData_data w w1 Hsame).
  - reflexivity.
  - intros u e uid w0 _ _ Hw0. unfold registerUsername. fold (normalized u).
    rewrite set_reliable by done. cbn [fst snd].
    split; [reflexivity|]. by rewrite written_db, getAt_update.
Qed.

Lemma taken_username_stops_registration_witness :
  error (fst (handleRegister takenForm takenWorld)) = "Этот юзернейм уже занят"
  /\ sameData takenWorld (snd (handleRegister takenForm takenWorld)).
Proof.
  destruct (taken_username_stops_registration takenForm takenWorld takenWorld
              (Some (JString "u1")) eq_refl eq_refl eq_refl eq_refl)
    as [(He & _ & Hs) _].
  by split.
Defined.

(** C7 as stated fails: a mapping that is the empty string exists, the
    lookup finds it, and registration goes on: no error is shown, the
    account is made and the mapping is overwritten. *)
Lemma empty_mapping_does_not_stop_registration :
  ~ (forall (f : Form) (w : World) (existing : JSON),
       Nat.ltb (JSString.length (username f)) 3 = false ->
       password f = confirmPassword f ->
       fst (getUidByUsername (username f) w) = Ok (Some existing) ->
       error (fst (handleRegister f w)) <> ""
       /\ sameData w (snd (handleRegister f w))).
Proof.
  intros H.
  destruct (H takenForm emptyMappingWorld (JString "")
              eq_refl eq_refl eq_refl) as [Herror _].
  by apply Herror.
Qed.

End AuthClaims.

Module InvariantClaims.
Import TreeFacts PathFacts RunFacts KeepFacts AuthFacts Db Auth Invariants Samples.

Lemma profileInvariant_data : aboutData profileInvariant.
Proof. intros w Hw. by repeat split; intros; destruct Hw as [[? ?] ?]. Qed.

Lemma getAt_update_head a b p q v t :
  a <> b -> getAt (a :: p) (update (b :: q) v t) = getAt (a :: p) t.
Proof. exact (getAt_update_diverge [] a b p q v t). Qed.

Lemma getAt_update_second k a b p q v t :
  a <> b ->
  getAt (k :: a :: p) (update (k :: b :: q) v t) = getAt (k :: a :: p) t.
Proof. exact (getAt_update_diverge [k] a b p q v t). Qed.

Lemma usernames_write_keeps_profiles p v :
  survivesWrite profileInvariant (ref ("usernames/" +:+ p)) v.
Proof.
  intros w [Hu Hp]. split; [exact Hu|].
  intros u q. cbn [db withDb]. unfold ref. rewrite pieces_usernames.
  rewrite getAt_update_head by done. apply Hp.
Qed.

Lemma profile_write_keeps_profiles uid p :
  isKey uid = true -> Types.uid p = uid ->
  survivesWrite profileInvariant (ref ("users/" +:+ uid +:+ "/profile"))
    (Some (jsonOfProfile p)).
Proof.
  intros Hk Hp w [Hu Hinv]. split; [exact Hu|].
  intros u q. cbn [db withDb]. rewrite (profileRef_pieces uid Hk).
  destruct (decide (u = uid)) as [->|Hne].
  - rewrite getAt_update. intros [= <-]. unfold jsonOfProfile. cbn [prop].
    rewrite Hp. by rewrite lookup_insert_eq.
  - rewrite getAt_update_second by done. apply Hinv.
Qed.

Lemma keeps_signIn e p :
  keeps profileInvariant (signInWithEmailAndPassword e p) keyOwner.
Proof.
  unfold signInWithEmailAndPassword.
  apply keeps_bind with (Q := fun _ => True);
    [apply keeps_request, profileInvariant_data|].
  intros _ _ w Hw. rewrite bind_run. cbn [getWorld].
  destruct e as [[e| |]|]; try (split; [done|intros ? [=]]).
  destruct (find _ _) as [a|] eqn:Hfind; [|split; [done|intros ? [=]]].
  rewrite bind_run. cbn. split.
  - by destruct Hw as [[? ?] ?].
  - intros c [= <-] u [= <-].
    apply find_some in Hfind as [Hin _].
    destruct Hw as [[Hacc _] _]. rewrite Forall_forall in Hacc.
    apply Hacc. by apply list_elem_of_In.
Qed.

Lemma keeps_createUser e p :
  keeps profileInvariant (createUserWithEmailAndPassword e p) keyOwner.
Proof.
  unfold createUserWithEmailAndPassword.
  apply keeps_bind with (Q := fun _ => True);
    [apply keeps_request, profileInvariant_data|].
  intros _ _ w Hw. rewrite bind_run. cbn [getWorld].
  destruct (existsb _ _); [split; [done|intros ? [=]]|].
  destruct (uidSupply w) as [|uid rest] eqn:Hs; [split; [done|intros ? [=]]|].
  rewrite bind_run. cbn.
  destruct Hw as [[Hacc Hsup] Hp]. rewrite Hs in Hsup.
  apply Forall_cons in Hsup as [Hk Hrest].
  split.
  - split; [split|exact Hp]; cbn; [|exact Hrest].
    apply Forall_app. split; [exact Hacc|]. by repeat constructor.
  - by intros c [= <-] u [= <-].
Qed.

Lemma keeps_repair a b u :
  isKey (User.uid u) = true ->
  keeps profileInvariant (autoRepair a b u) (fun _ => True).
Proof.
  intros Hk. apply keeps_autoRepair.
  - apply profileInvariant_data.
  - apply usernames_write_keeps_profiles.
  - intros _. by apply profile_write_keeps_profiles.
Qed.

Lemma keeps_handleLogin_try f :
  keeps profileInvariant (handleLogin_try f) (fun _ => True).
Proof.
  pose proof profileInvariant_data as HI.
  unfold handleLogin_try.
  apply keeps_bind with (Q := fun _ => True).
  { destruct (negb _); [|by apply keeps_ret].
    apply keeps_bind with (Q := fun _ => True);
      [by apply keeps_getUidByUsername|].
    intros lookupValue _.
    destruct (negb _); [apply keeps_throw|].
    destruct lookupValue as [[value| |]|]; try apply keeps_throw.
    destruct (JSString.includes value "@"); [by apply keeps_ret|].
    apply keeps_bind with (Q := fun _ => True);
      [by apply keeps_getUserProfile|].
    intros profile _. destruct (truthy _); [by apply keeps_ret|apply keeps_throw]. }
  intros [loginEmail isLegacyUser] _. cbn [fst snd].
  apply keeps_bind with (Q := keyOwner); [apply keeps_signIn|].
  intros c Hc. destruct (user c) as [u|] eqn:Hu; [|by apply keeps_ret].
  destruct isLegacyUser; [|by apply keeps_ret].
  destruct loginEmail as [[loginEmail| |]|]; try apply keeps_throw.
  destruct (Bool.eqb _ _); [|by apply keeps_ret].
  apply keeps_repair. by apply Hc.
Qed.

Lemma keeps_handleRegister_try f :
  keeps profileInvariant (handleRegister_try f) (fun _ => True).
Proof.
  pose proof profileInvariant_data as HI.
  unfold handleRegister_try.
  apply keeps_bind with (Q := fun _ => True);
    [by apply keeps_getUidByUsername|].
  intros existingUid _. destruct (truthy _); [apply keeps_throw|].
  apply keeps_bind with (Q := keyOwner); [apply keeps_createUser|].
  intros c Hc. destruct (user c) as [u|] eqn:Hu; [|by apply keeps_ret].
  apply keeps_bind with (Q := fun _ => True).
  - apply keeps_registerUsername; [done|apply usernames_write_keeps_profiles].
  - intros _ _. apply keeps_saveUserProfile; [done|].
    intros _. apply profile_write_keeps_profiles; [by apply Hc | done].
Qed.

(** C10: if every profile in the tree sits under the identifier that its
    [uid] property names (and the provider's identifiers are single keys),
    this is still so after [handleRegister] and after [handleLogin]: the
    profiles they write are saved under their own uid. *)
Theorem written_profiles_are_keyed_by_their_uid (f : Form) (w : World) :
  profileInvariant w ->
  profileInvariant (snd (handleRegister f w))
  /\ profileInvariant (snd (handleLogin f w)).
Proof.
  intros Hw. split.
  - unfold handleRegister.
    destruct (Nat.ltb _ _); [done|]. destruct (negb _); [done|].
    destruct (keeps_handleRegister_try (setError "" (setLoading true f)) w Hw)
      as [Hw' _].
    destruct (handleRegister_try _ w) as [[[]|e] w']; cbn [fst snd] in *;
      [done|]. by apply profileInvariant_data.
  - unfold handleLogin.
    destruct (keeps_handleLogin_try (setError "" (setLoading true f)) w Hw)
      as [Hw' _].
    destruct (handleLogin_try _ w) as [[[]|e] w']; cbn [fst snd] in *;
      [done|]. by apply profileInvariant_data.
Qed.

Lemma freshWorld_invariant : profileInvariant freshWorld.
Proof.
  split; [split; by repeat constructor|].
  intros u p H. rewrite getAt_None in H. discriminate H.
Defined.

Lemma written_profiles_are_keyed_by_their_uid_witness :
  profileInvariant freshWorld /\
  profileInvariant (snd (handleRegister freshForm freshWorld)).
Proof.
  split; [exact freshWorld_invariant|].
  exact (proj1 (written_profiles_are_keyed_by_their_uid freshForm freshWorld
                  freshWorld_invariant)).
Defined.

End InvariantClaims.

(* ===================================================================== *)
(** * The mood store: deletion, and the footprint of a write *)
(* ===================================================================== *)

Module StoreFacts.
Import TreeFacts JSONFacts PathFacts RunFacts AuthFacts Db Invariants.

Lemma sameValue_refl a : sameValue a a = true.
Proof. by apply sameValue_eq. Qed.

Lemma withDb_same w : withDb (db w) w = w.
Proof. by destruct w. Qed.

Lemma notify_same t w : notify t t w = w.
Proof.
  unfold notify.
  assert (H : forall (skip : list string -> Fn -> bool) l w0,
            fold_left (fun w' '(r, f) =>
                 if skip r f || sameValue (getAt r t) (getAt r t) then w'
                 else deliver f (getAt r t) w') l w0 = w0).
  { intros skip l. induction l as [|[r f] l IH]; intros w0; [done|].
    simpl. by rewrite sameValue_refl, orb_true_r. }
  apply (H (fun r f => isAwaiting r f w)).
Qed.

Lemma update_absent p t : getAt p t = None -> update p None t = t.
Proof. intros H. unfold update. by rewrite H. Qed.

Lemma written_unchanged r v w : update r v (db w) = db w -> written r v w = w.
Proof. intros H. unfold written. by rewrite H, withDb_same, notify_same. Qed.

Lemma written_remove_twice r w :
  written r None (written r None w) = written r None w.
Proof.
  apply written_unchanged. rewrite written_db.
  apply update_absent, getAt_update.
Qed.

Lemma getUserMoods_reliable userId w :
  emptyOrReserved userId = false -> reliable w ->
  getUserMoods userId w = (Ok (moodCollection userId w), w).
Proof.
  intros Hid Hw. unfold getUserMoods, tryCatch, moodCollection. rewrite Hid.
  rewrite bind_run. change (child rootRef ?p) with (ref p).
  rewrite get_reliable by done. by destruct (getAt _ _).
Qed.

Lemma getUserProfile_reliable userId w :
  emptyOrReserved userId = false -> reliable w ->
  getUserProfile userId w
  = (Ok (getAt (ref ("users/" +:+ userId +:+ "/profile")) (db w)), w).
Proof.
  intros Hid Hw. unfold getUserProfile, tryCatch. rewrite Hid.
  rewrite bind_run. change (child rootRef ?p) with (ref p).
  rewrite get_reliable by done. by destruct (getAt _ _).
Qed.

Lemma prop_moodCollection userId w k :
  prop (Some (moodCollection userId w)) k
  = getAt (ref ("users/" +:+ userId +:+ "/moods") ++ [k]) (db w).
Proof.
  unfold moodCollection. rewrite getAt_app.
  destruct (getAt (ref ("users/" +:+ userId +:+ "/moods")) (db w))
    as [[s|z|m]|]; simpl; by rewrite ?lookup_empty.
Qed.

Lemma reserved_of_guard userId :
  emptyOrReserved userId = false -> reserved userId = false.
Proof.
  unfold emptyOrReserved, reserved.
  intros [[_ H1]%orb_false_iff H2]%orb_false_iff. by rewrite H1, H2.
Qed.

Lemma moodsRef_key userId :
  isKey userId = true ->
  ref ("users/" +:+ userId +:+ "/moods") = ["users"; userId; "moods"].
Proof.
  intros Hk. unfold ref. rewrite pieces_users.
  change (userId +:+ "/moods") with (userId +:+ "/" +:+ "moods").
  by rewrite (pieces_key_app _ _ Hk).
Qed.

End StoreFacts.

Module StoreExtras.
Import TreeFacts JSONFacts PathFacts RunFacts AuthFacts StoreFacts Db Invariants.

(** X1: deleting twice is deleting once.  For an identifier and a date
    that the store accepts as keys, when the requests succeed, a second
    [deleteMood] of the same user and date returns normally and leaves the
    whole world (tree, listeners, recorded calls) as the first one left
    it. *)
Theorem deleteMood_twice (userId dateStr : string) (w : World) :
  validKey userId = true ->
  validKey dateStr = true ->
  reliable w ->
  let w1 := snd (deleteMood userId dateStr w) in
  deleteMood userId dateStr w = (Ok tt, w1)
  /\ deleteMood userId dateStr w1 = (Ok tt, w1).
Proof.
  intros _ _ Hw. unfold deleteMood. destruct (reserved userId); [done|].
  rewrite remove_reliable by done. cbn [snd].
  split; [done|].
  rewrite remove_reliable by (by apply written_reliable).
  by rewrite written_remove_twice.
Qed.

Lemma deleteMood_twice_witness :
  deleteMood "u1" "2024-05-01"
    (snd (deleteMood "u1" "2024-05-01"
            (snd (saveMood "u1" Samples.may1 emptyWorld))))
  = (Ok tt,
     snd (deleteMood "u1" "2024-05-01"
            (snd (saveMood "u1" Samples.may1 emptyWorld)))).
Proof.
  exact (proj2 (deleteMood_twice "u1" "2024-05-01"
                  (snd (saveMood "u1" Samples.may1 emptyWorld))
                  eq_refl eq_refl eq_refl)).
Defined.

(** X2: [deleteMood] removes the record of that date and no other.  For
    an identifier that is not reserved and a date, both accepted by the
    store as keys, when the requests succeed, the collection read after
    the deletion has no property for the date, and its other properties
    are those read before. *)
Theorem deleteMood_removes_that_date (userId dateStr : string) (w : World) :
  emptyOrReserved userId = false ->
  validKey userId = true ->
  validKey dateStr = true ->
  reliable w ->
  let w1 := snd (deleteMood userId dateStr w) in
  exists before after,
    getUserMoods userId w = (Ok before, w)
    /\ getUserMoods userId w1 = (Ok after, w1)
    /\ prop (Some after) dateStr = None
    /\ forall other, other <> dateStr ->
         prop (Some after) other = prop (Some before) other.
Proof.
  intros Hid _ Hkey%validKey_isKey Hw w1.
  assert (Hw1 : reliable w1 /\ db w1
            = update (ref ("users/" +:+ userId +:+ "/moods") ++ [dateStr])
                None (db w)).
  { unfold w1, deleteMood. rewrite (reserved_of_guard _ Hid).
    rewrite remove_reliable by done. cbn [snd].
    split; [by apply written_reliable|].
    by rewrite written_db, (moodRef_pieces userId dateStr Hkey). }
  destruct Hw1 as [Hw1 Hdb].
  exists (moodCollection userId w), (moodCollection userId w1).
  split; [by apply getUserMoods_reliable|].
  split; [by apply getUserMoods_reliable|].
  rewrite !prop_moodCollection, Hdb. split.
  - apply getAt_update.
  - intros other Hne. rewrite !prop_moodCollection, Hdb.
    by apply getAt_update_diverge.
Qed.

Lemma deleteMood_removes_that_date_witness :
  exists before after,
    getUserMoods "u1" (snd (saveMood "u1" Samples.may1 emptyWorld))
      = (Ok before, snd (saveMood "u1" Samples.may1 emptyWorld))
    /\ getUserMoods "u1"
         (snd (deleteMood "u1" "2024-05-01"
                 (snd (saveMood "u1" Samples.may1 emptyWorld))))
       = (Ok after,
          snd (deleteMood "u1" "2024-05-01"
                 (snd (saveMood "u1" Samples.may1 emptyWorld))))
    /\ prop (Some after) "2024-05-01" = None.
Proof.
  destruct (deleteMood_removes_that_date "u1" "2024-05-01"
              (snd (saveMood "u1" Samples.may1 emptyWorld))
              eq_refl eq_refl eq_refl eq_refl) as (b & a & H1 & H2 & H3 & _).
  exists b, a. exact (conj H1 (conj H2 H3)).
Defined.

(** X3: [saveMood] touches the record of that user and date only.  For
    identifiers that are single keys, the saving one neither empty nor
    reserved, and a date that is a single key: the other dates of the
    user, the mood collection of every other user, every profile and
    every username mapping are as before, whether the request succeeds or
    fails. *)
Theorem saveMood_touches_one_record
    (userId : string) (mood : MoodLog) (w : World) :
  isKey userId = true ->
  emptyOrReserved userId = false ->
  isKey (date mood) = true ->
  let w1 := snd (saveMood userId mood w) in
  (forall other, other <> date mood ->
     prop (Some (moodCollection userId w1)) other
     = prop (Some (moodCollection userId w)) other)
  /\ (forall user2, isKey user2 = true -> user2 <> userId ->
        moodCollection user2 w1 = moodCollection user2 w)
  /\ (forall u, getAt ["users"; u; "profile"] (db w1)
                = getAt ["users"; u; "profile"] (db w))
  /\ (forall name, getAt (ref ("usernames/" +:+ name)) (db w1)
                   = getAt (ref ("usernames/" +:+ name)) (db w)).
Proof.
  intros Hk Hid Hd w1.
  assert (Hdb : db w1 = db w \/
                db w1 = update ["users"; userId; "moods"; date mood]
                          (Some (jsonOfMood mood)) (db w)).
  { unfold w1, saveMood. rewrite (reserved_of_guard _ Hid), set_run.
    rewrite (moodRef_pieces userId _ Hd), (moodsRef_key userId Hk).
    destruct (faults w) as [|[msg|] rest]; cbn [snd].
    - right. by rewrite written_db.
    - by left.
    - right. by rewrite written_db. }
  split; [|split; [|split]].
  - intros other Hne. rewrite !prop_moodCollection, (moodsRef_key userId Hk).
    destruct Hdb as [-> | ->]; [done|].
    by apply (getAt_update_diverge ["users"; userId; "moods"]).
  - intros user2 Hk2 Hne. unfold moodCollection.
    rewrite (moodsRef_key user2 Hk2).
    destruct Hdb as [-> | ->]; [done|].
    by rewrite InvariantClaims.getAt_update_second.
  - intros u. destruct Hdb as [-> | ->]; [done|].
    destruct (decide (u = userId)) as [->|Hne].
    + by apply (getAt_update_diverge ["users"; userId] "profile" "moods").
    + by apply (getAt_update_diverge ["users"] u userId).
  - intros name. unfold ref. rewrite pieces_usernames.
    destruct Hdb as [-> | ->]; [done|].
    by apply (getAt_update_diverge [] "usernames" "users").
Qed.

Lemma saveMood_touches_one_record_witness :
  moodCollection "u2" (snd (saveMood "u1" Samples.may1 emptyWorld))
  = moodCollection "u2" emptyWorld.
Proof.
  exact (proj1 (proj2 (saveMood_touches_one_record "u1" Samples.may1
                         emptyWorld eq_refl eq_refl eq_refl))
           "u2" eq_refl (fun H : "u2" = "u1" => ltac:(discriminate H))).
Defined.

End StoreExtras.

(* ===================================================================== *)
(** * The readers of the store *)
(* ===================================================================== *)

Module ReaderFacts.
Import TreeFacts JSONFacts PathFacts RunFacts AuthFacts StoreFacts Db Invariants.

Lemma get_run r w :
  get r w =
  match faults w with
  | [] => (Ok (getAt r (db w)), w)
  | None :: rest => (Ok (getAt r (db w)), withFaults rest w)
  | Some msg :: rest => (Throw msg, withFaults rest w)
  end.
Proof.
  unfold get. rewrite bind_run, request_run.
  by destruct (faults w) as [|[?|] ?].
Qed.

Lemma sameButLog_refl w : sameButLog w w.
Proof. by repeat split. Qed.

Lemma sameButLog_faults w f : sameButLog w (withFaults f w).
Proof. by repeat split. Qed.

Lemma sameButLog_console_faults w c f :
  sameButLog w (withConsole c (withFaults f w)).
Proof. by repeat split. Qed.

Lemma jsonOfProfile_email p :
  prop (Some (Db.jsonOfProfile p)) "email" = Some (JString (Types.email p)).
Proof. reflexivity. Qed.

Lemma jsonOfProfile_truthy p : truthy (Some (Db.jsonOfProfile p)) = true.
Proof. reflexivity. Qed.

End ReaderFacts.

Module ReaderExtras.
Import TreeFacts JSONFacts PathFacts RunFacts AuthFacts StoreFacts ReaderFacts Db Invariants.

(** X4: the profile store reads back what it wrote.  When the requests
    succeed, [getUserProfile] after [saveUserProfile] returns the profile
    saved, for every identifier that is not reserved and that the store
    accepts as a key, and a profile whose fields the store accepts; for
    a reserved identifier [saveUserProfile] writes nothing, warns on the
    console and returns normally, and the profile stays absent. *)
Theorem profile_round_trip (userId : string) (profile : UserProfile) (w : World) :
  reliable w ->
  (emptyOrReserved userId = false ->
   validKey userId = true ->
   storable (uid profile) = true ->
   storable (username profile) = true ->
   storable (email profile) = true ->
   fst (getUserProfile userId (snd (saveUserProfile userId profile w)))
   = Ok (Some (jsonOfProfile profile)))
  /\ (reserved userId = true ->
      saveUserProfile userId profile w
      = (Ok tt,
         withConsole
           (console w ++
            [ {| level := WarnLevel;
                 args := ["Attempted to save profile with invalid path characters, skipping:";
                          userId] |} ]) w)
      /\ fst (getUserProfile userId (snd (saveUserProfile userId profile w)))
         = Ok None).
Proof.
  intros Hw. split.
  - intros Hid _ _ _ _. unfold saveUserProfile.
    rewrite (reserved_of_guard _ Hid).
    rewrite set_reliable by done. cbn [snd].
    rewrite getUserProfile_reliable by (done || by apply written_reliable).
    cbn [fst]. by rewrite written_db, getAt_update.
  - intros Hr. unfold saveUserProfile. rewrite Hr. split; [reflexivity|].
    unfold getUserProfile.
    assert (emptyOrReserved userId = true) as ->; [|reflexivity].
    unfold emptyOrReserved. unfold reserved in Hr.
    apply orb_true_iff in Hr as [-> | ->]; by rewrite ?orb_true_r.
Qed.

Lemma profile_round_trip_witness :
  fst (getUserProfile "u1"
         (snd (saveUserProfile "u1"
                 {| uid := "u1"; username := "alice"; email := "a@x.org" |}
                 emptyWorld)))
  = Ok (Some (jsonOfProfile
                {| uid := "u1"; username := "alice"; email := "a@x.org" |})).
Proof.
  exact (proj1 (profile_round_trip "u1"
                  {| uid := "u1"; username := "alice"; email := "a@x.org" |}
                  emptyWorld eq_refl) eq_refl eq_refl eq_refl eq_refl eq_refl).
Defined.

(** X5: the two readers never throw and never change the data.  For
    every identifier and every world, [getUserProfile] and [getUserMoods]
    return normally and leave the tree, the accounts, the listeners and
    the recorded calls as they were; when the request fails, for an
    identifier that is not reserved and that the store accepts as a key,
    they log the failure and return [null] and the empty object, the same
    results as for data that does not exist. *)
Theorem readers_absorb_failures (userId : string) (w : World) :
  (exists v w', getUserProfile userId w = (Ok v, w') /\ sameButLog w w')
  /\ (exists v w', getUserMoods userId w = (Ok v, w') /\ sameButLog w w')
  /\ (forall msg rest,
        emptyOrReserved userId = false ->
        validKey userId = true ->
        faults w = Some msg :: rest ->
        getUserProfile userId w
        = (Ok None,
           withConsole
             (console w ++
              [ {| level := ErrorLevel;
                   args := ["Error fetching user profile:"; msg] |} ])
             (withFaults rest w))
        /\ getUserMoods userId w
           = (Ok (JObject ∅),
              withConsole
                (console w ++
                 [ {| level := ErrorLevel;
                      args := ["Error fetching user moods:"; msg] |} ])
                (withFaults rest w))).
Proof.
  split; [|split].
  - unfold getUserProfile. destruct (emptyOrReserved userId).
    { exists None, w. split; [done|apply sameButLog_refl]. }
    unfold tryCatch. rewrite bind_run, get_run.
    destruct (faults w) as [|[msg|] rest];
      destruct (getAt (child rootRef ("users/" +:+ userId +:+ "/profile")) (db w));
      eexists _, _; (split; [reflexivity|]);
      auto using sameButLog_refl, sameButLog_console_faults, sameButLog_faults.
  - unfold getUserMoods. destruct (emptyOrReserved userId).
    { exists (JObject ∅), w. split; [done|apply sameButLog_refl]. }
    unfold tryCatch. rewrite bind_run, get_run.
    destruct (faults w) as [|[msg|] rest];
      destruct (getAt (child rootRef ("users/" +:+ userId +:+ "/moods")) (db w));
      eexists _, _; (split; [reflexivity|]);
      auto using sameButLog_refl, sameButLog_console_faults, sameButLog_faults.
  - intros msg rest Hid _ Hf. unfold getUserProfile, getUserMoods, tryCatch.
    rewrite Hid, !bind_run, !get_run, Hf. by split.
Qed.

Lemma readers_absorb_failures_witness :
  getUserMoods "u1" (withFaults [Some "offline"] emptyWorld)
  = (Ok (JObject ∅),
     withConsole
       [ {| level := ErrorLevel;
            args := ["Error fetching user moods:"; "offline"] |} ]
       emptyWorld).
Proof.
  destruct (readers_absorb_failures "u1" (withFaults [Some "offline"] emptyWorld))
    as (_ & _ & H).
  exact (proj2 (H "offline" [] eq_refl eq_refl eq_refl)).
Defined.

End ReaderExtras.

(* ===================================================================== *)
(** * The subscription to the moods *)
(* ===================================================================== *)

Module ListenerFacts.
Import TreeFacts JSONFacts PathFacts RunFacts AuthFacts StoreFacts ReaderFacts Db Invariants.

Lemma lastCall_snoc cb c v w :
  lastCall cb (withCalls (calls w ++ [(c, v)]) w)
  = if Nat.eqb c cb then Some v else lastCall cb w.
Proof.
  unfold lastCall. cbn [calls withCalls]. rewrite List.filter_app.
  cbn [List.filter fst]. destruct (Nat.eqb c cb).
  - by rewrite last_snoc.
  - by rewrite app_nil_r.
Qed.

Lemma Fn_eqb_handler f cb :
  Fn_eqb f (SnapshotHandler cb) = true <-> f = SnapshotHandler cb.
Proof.
  destruct f; simpl; try (split; discriminate).
  rewrite Nat.eqb_eq. split; [by intros -> | by intros [= ->]].
Qed.

Lemma lastCall_deliver cb f s w :
  lastCall cb (deliver f s w)
  = if Fn_eqb f (SnapshotHandler cb)
    then Some (match s with Some v => v | None => JObject ∅ end)
    else lastCall cb w.
Proof.
  destruct f as [c| | |]; try reflexivity.
  unfold deliver. rewrite lastCall_snoc. reflexivity.
Qed.

(** What the listeners of [l] leave as last argument of [cb], all the
    registrations of [cb] in [l] being at [r]. *)
Lemma notify_fold_lastCall cb r (skip : list string -> Fn -> bool) new l :
  (forall r', In (r', SnapshotHandler cb) l -> r' = r) ->
  forall acc,
    lastCall cb
      (fold_left
         (fun w' '(r0, f) =>
            if skip r0 f then w' else deliver f (getAt r0 new) w') l acc)
    = if existsb (fun p => Fn_eqb (snd p) (SnapshotHandler cb)) l
         && negb (skip r (SnapshotHandler cb))
      then Some (match getAt r new with Some v => v | None => JObject ∅ end)
      else lastCall cb acc.
Proof.
  induction l as [|[r0 f] l IH]; intros Hat acc; [done|].
  cbn [fold_left existsb snd].
  assert (Hat' : forall r', In (r', SnapshotHandler cb) l -> r' = r).
  { intros r' Hin. apply Hat. by right. }
  destruct (Fn_eqb f (SnapshotHandler cb)) eqn:Hf.
  - apply Fn_eqb_handler in Hf as ->.
    assert (r0 = r) as -> by (apply Hat; by left).
    cbn [orb]. rewrite (IH Hat'). clear IH.
    destruct (skip r (SnapshotHandler cb)) eqn:Hs.
    + by rewrite andb_false_r.
    + rewrite andb_true_r. cbn [andb negb].
      rewrite lastCall_deliver. cbn [Fn_eqb]. rewrite Nat.eqb_refl.
      by destruct (existsb _ l).
  - cbn [orb]. rewrite <- (IH Hat' acc).
    destruct (skip r0 f); [done|].
    rewrite !(IH Hat'). by rewrite lastCall_deliver, Hf.
Qed.

Lemma not_awaiting cb w :
  (forall r, isAwaiting r (SnapshotHandler cb) w = false) ->
  forall r, ~ In (r, SnapshotHandler cb) (awaiting w).
Proof.
  intros H r Hin. specialize (H r).
  assert (isAwaiting r (SnapshotHandler cb) w = true) as Hyes; [|congruence].
  apply existsb_exists. exists (r, SnapshotHandler cb). split; [done|].
  cbn [Fn_eqb]. by rewrite bool_decide_true, Nat.eqb_refl.
Qed.

Lemma absent_not_awaiting cb w :
  (forall r, ~ In (r, SnapshotHandler cb) (awaiting w)) ->
  forall r, isAwaiting r (SnapshotHandler cb) w = false.
Proof.
  intros H r. apply not_true_is_false. intros Hyes.
  apply existsb_exists in Hyes as [[r' f] [Hin Hf]].
  apply andb_true_iff in Hf as [_ Hf]. apply Fn_eqb_handler in Hf as ->.
  by apply (H r').
Qed.

(** The first events of the registrations [l], none of them of [cb]. *)
Lemma first_fold_absent cb new l :
  (forall r, ~ In (r, SnapshotHandler cb) l) ->
  forall acc,
    lastCall cb
      (fold_left (fun w' '(r, f) => deliver f (getAt r new) w') l acc)
    = lastCall cb acc.
Proof.
  induction l as [|[r0 f] l IH]; intros Hno acc; [done|].
  cbn [fold_left]. rewrite IH.
  - rewrite lastCall_deliver.
    destruct (Fn_eqb f (SnapshotHandler cb)) eqn:Hf; [|done].
    apply Fn_eqb_handler in Hf as ->. destruct (Hno r0). by left.
  - intros r Hin. apply (Hno r). by right.
Qed.

Lemma first_fold_fields new l w :
  let w' := fold_left (fun w' '(r, f) => deliver f (getAt r new) w') l w in
  db w' = db w /\ listeners w' = listeners w.
Proof.
  destruct (notify_fold_fields (fun _ _ => false) new l w) as (H1 & H2 & _).
  by split.
Qed.

Lemma firstEvents_run w :
  firstEvents w
  = (Ok tt,
     withAwaiting []
       (fold_left (fun w' '(r, f) => deliver f (getAt r (db w)) w') (awaiting w) w)).
Proof. reflexivity. Qed.

Lemma mirrored_written userId cb r' v w :
  mirrored userId cb w -> mirrored userId cb (written r' v w).
Proof.
  intros ([Hin Hat] & Hnow & Hlast).
  destruct (written_fields r' v w) as (Hdb & Hl & _).
  split; [unfold listensOnlyAt; by rewrite Hl|].
  split; [intros r; unfold isAwaiting; rewrite written_awaiting; apply Hnow|].
  unfold moodCollection. rewrite Hdb.
  unfold written, notify. cbn [listeners withDb db].
  rewrite (notify_fold_lastCall cb _ _ _ _ Hat).
  assert (existsb (fun p => Fn_eqb (snd p) (SnapshotHandler cb)) (listeners w)
          = true) as ->.
  { apply existsb_exists. eexists. split; [exact Hin|]. by apply Fn_eqb_handler. }
  cbn [andb].
  change (isAwaiting ?r ?f (withDb _ w)) with (isAwaiting r f w).
  rewrite Hnow. cbn [orb].
  destruct (sameValue _ _) eqn:Hs; cbn [negb]; [|done].
  apply sameValue_eq in Hs. rewrite <- Hs.
  change (lastCall cb (withDb (update r' v (db w)) w)) with (lastCall cb w).
  by rewrite Hlast.
Qed.

Lemma mirrored_faults userId cb f w :
  mirrored userId cb w -> mirrored userId cb (withFaults f w).
Proof. done. Qed.

Lemma mirrored_firstEvents userId cb w :
  mirrored userId cb w -> mirrored userId cb (snd (firstEvents w)).
Proof.
  intros (Hl & Hnow & Hlast). rewrite firstEvents_run. cbn [snd].
  destruct (first_fold_fields (db w) (awaiting w) w) as [Hdb Hls].
  split; [|split].
  - unfold listensOnlyAt. cbn [listeners withAwaiting]. by rewrite Hls.
  - done.
  - unfold moodCollection. cbn [db withAwaiting]. rewrite Hdb.
    change (lastCall cb (withAwaiting [] ?x)) with (lastCall cb x).
    rewrite first_fold_absent by (by apply not_awaiting). exact Hlast.
Qed.

End ListenerFacts.

Module ListenerExtras.
Import TreeFacts JSONFacts PathFacts RunFacts AuthFacts StoreFacts ReaderFacts.
Import ListenerFacts Db Invariants.

(** X6: the mirror fed by a subscription follows the store.  After
    [subscribeToMoods userId callback] and the delivery of the first
    events, for a callback not registered before and an identifier that is
    not reserved and that the store accepts as a key, the collection last
    given to the callback is the stored one; and this stays so after every
    later delivery of first events and after every [saveMood] and
    [deleteMood], by any user, whether the request succeeds or fails. *)
Theorem mirror_follows_store (userId : string) (callback : nat) (w : World) :
  emptyOrReserved userId = false ->
  validKey userId = true ->
  (forall r, ~ In (r, SnapshotHandler callback) (listeners w)) ->
  (forall r, ~ In (r, SnapshotHandler callback) (awaiting w)) ->
  mirrored userId callback
    (snd (firstEvents (snd (subscribeToMoods userId callback w))))
  /\ forall w1,
       mirrored userId callback w1 ->
       mirrored userId callback (snd (firstEvents w1))
       /\ forall (writer : string) (mood : MoodLog) (dateStr : string),
            mirrored userId callback (snd (saveMood writer mood w1))
            /\ mirrored userId callback (snd (deleteMood writer dateStr w1)).
Proof.
  intros Hid _ Hfresh Hquiet. split.
  - set (moodsRef := ref ("users/" +:+ userId +:+ "/moods")).
    set (registered :=
           withListeners (listeners w ++ [(moodsRef, SnapshotHandler callback)]) w).
    assert (Hrun : snd (subscribeToMoods userId callback w)
      = if covered moodsRef w
        then withCalls (calls w ++ [(callback, moodCollection userId w)]) registered
        else withAwaiting (awaiting w ++ [(moodsRef, SnapshotHandler callback)])
               registered).
    { unfold subscribeToMoods. rewrite Hid. fold moodsRef. unfold onValue.
      rewrite !bind_run. cbn [getWorld]. by destruct (covered moodsRef w). }
    rewrite Hrun, firstEvents_run. cbn [snd]. clear Hrun.
    assert (Hlisten : forall w',
              listeners w' = listeners registered ->
              listensOnlyAt callback moodsRef w').
    { intros w' Hw'. unfold listensOnlyAt. rewrite Hw'.
      cbn [listeners registered withListeners]. split.
      - apply in_or_app. right. by left.
      - intros r' [Hin|[[= ->]|[]]]%in_app_or; [by apply Hfresh in Hin | done]. }
    destruct (covered moodsRef w).
    + cbn [awaiting withCalls registered withListeners db].
      match goal with
      | |- mirrored _ _ (withAwaiting [] (fold_left ?f ?l ?acc)) =>
          destruct (first_fold_fields (db w) l acc) as [Hdb Hls]
      end.
      split; [by apply Hlisten|]. split; [done|].
      unfold moodCollection in *. cbn [db withAwaiting]. rewrite Hdb.
      change (lastCall callback (withAwaiting [] ?x)) with (lastCall callback x).
      rewrite first_fold_absent by done.
      etrans; [apply (lastCall_snoc callback callback _ registered)|].
      by rewrite Nat.eqb_refl.
    + cbn [awaiting withAwaiting registered withListeners db].
      rewrite fold_left_app. cbn [fold_left].
      match goal with
      | |- mirrored _ _ (withAwaiting [] (deliver _ _ (fold_left ?f ?l ?acc))) =>
          destruct (first_fold_fields (db w) l acc) as [Hdb Hls]
      end.
      split; [by apply Hlisten|]. split; [done|].
      unfold moodCollection in *. cbn [db withAwaiting deliver withCalls].
      rewrite Hdb.
      etrans; [apply lastCall_snoc|]. by rewrite Nat.eqb_refl.
  - intros w1 Hm. split; [by apply mirrored_firstEvents|].
    intros writer mood dateStr. split.
    + unfold saveMood. destruct (reserved writer); [done|].
      rewrite set_run. destruct (faults w1) as [|[msg|] rest]; cbn [snd].
      * by apply mirrored_written.
      * by apply mirrored_faults.
      * by apply mirrored_written, mirrored_faults.
    + unfold deleteMood. destruct (reserved writer); [done|].
      unfold remove. rewrite bind_run, request_run.
      destruct (faults w1) as [|[msg|] rest]; cbn [snd].
      * by apply mirrored_written.
      * by apply mirrored_faults.
      * by apply mirrored_written, mirrored_faults.
Qed.

Lemma mirror_follows_store_witness :
  lastCall 7
    (snd (saveMood "u1" Samples.may1
            (snd (firstEvents (snd (subscribeToMoods "u1" 7 emptyWorld))))))
  = Some (moodCollection "u1"
            (snd (saveMood "u1" Samples.may1
                    (snd (firstEvents
                            (snd (subscribeToMoods "u1" 7 emptyWorld))))))).
Proof.
  destruct (mirror_follows_store "u1" 7 emptyWorld eq_refl eq_refl
              (fun r (H : In _ []) => H) (fun r (H : In _ []) => H))
    as [H0 Hstep].
  destruct (Hstep _ H0) as [_ Hwrite].
  exact (proj2 (proj2 (proj1 (Hwrite "u1" Samples.may1 "")))).
Defined.

(** X7: the function that [subscribeToMoods] returns for an identifier
    that is not reserved and that the store accepts as a key does not
    detach the listener.  It calls [off] with the function [onValue]
    returned, which is not the handler that was registered; so after
    calling it the handler is still registered at the user's moods, and
    the tree and the recorded calls are unchanged. *)
Theorem unsubscribe_keeps_the_listener
    (userId : string) (callback : nat) (w : World) :
  emptyOrReserved userId = false ->
  validKey userId = true ->
  let moodsRef := ref ("users/" +:+ userId +:+ "/moods") in
  exists unsubscribe w1 w2,
    subscribeToMoods userId callback w = (Ok unsubscribe, w1)
    /\ invoke unsubscribe w1 = (Ok tt, w2)
    /\ In (moodsRef, SnapshotHandler callback) (listeners w2)
    /\ db w2 = db w1 /\ calls w2 = calls w1.
Proof.
  intros Hid _ moodsRef. unfold subscribeToMoods. rewrite Hid. fold moodsRef.
  unfold onValue. rewrite !bind_run. cbn [getWorld].
  destruct (covered moodsRef w); cbn [putWorld mret M_ret];
    eexists _, _, _; (split; [reflexivity|]);
    (split; [unfold invoke, off; rewrite bind_run; reflexivity|]);
    (split; [|by split]);
    cbn [listeners withListeners withCalls withAwaiting deliver];
    (apply filter_In; split;
     [apply in_or_app; right; by left | cbn; by rewrite andb_false_r]).
Qed.

Lemma unsubscribe_keeps_the_listener_witness :
  exists unsubscribe w1 w2,
    subscribeToMoods "u1" 7 emptyWorld = (Ok unsubscribe, w1)
    /\ invoke unsubscribe w1 = (Ok tt, w2)
    /\ In (ref "users/u1/moods", SnapshotHandler 7) (listeners w2).
Proof.
  destruct (unsubscribe_keeps_the_listener "u1" 7 emptyWorld eq_refl eq_refl)
    as (f & w1 & w2 & H1 & H2 & H3 & _).
  exists f, w1, w2. exact (conj H1 (conj H2 H3)).
Defined.

End ListenerExtras.

(* ===================================================================== *)
(** * The normalization of usernames *)
(* ===================================================================== *)

Module NormalExtras.
Import JSString PieceFacts CaseFacts Db Invariants.

(** X8: the normalization of usernames ([toLowerCase] then [trim], as
    [registerUsername] and [getUidByUsername] do) absorbs a trim or a
    lowercasing done before it and is idempotent; so the [trim] that
    [handleLogin] applies before the lookup changes nothing, and
    registering or resolving a key that is already normalized uses that
    key. *)
Theorem normalization_absorbs (s : string) :
  normalized (trim s) = normalized s
  /\ normalized (toLowerCase s) = normalized s
  /\ normalized (normalized s) = normalized s
  /\ (forall w, getUidByUsername (trim s) w = getUidByUsername s w)
  /\ (forall e uid w,
        registerUsername (normalized s) e uid w = registerUsername s e uid w).
Proof.
  pose proof (normalized_trim s) as H1.
  assert (H2 : normalized (toLowerCase s) = normalized s).
  { unfold normalized. by rewrite toLowerCase_twice. }
  assert (H3 : normalized (normalized s) = normalized s).
  { unfold normalized.
    by rewrite <- (trim_lower (toLowerCase s)), trim_twice, toLowerCase_twice. }
  split; [exact H1|]. split; [exact H2|]. split; [exact H3|]. split.
  - intros w. unfold getUidByUsername.
    change (trim (toLowerCase (trim s))) with (normalized (trim s)).
    by rewrite H1.
  - intros e uid w. unfold registerUsername.
    change (trim (toLowerCase (normalized s))) with (normalized (normalized s)).
    by rewrite H3.
Qed.

End NormalExtras.

(* ===================================================================== *)
(** * Login: how it ends *)
(* ===================================================================== *)

Module TripleFacts.
Import RunFacts KeepFacts AuthFacts Db Auth Invariants.

Lemma runs_bind {A B} P (m : M A) (k : A -> M B) Q R E :
  runs P m Q E -> (forall a, runs (Q a) (k a) R E) -> runs P (m ≫= k) R E.
Proof.
  intros Hm Hk w Hw. rewrite bind_run. specialize (Hm w Hw).
  destruct (m w) as [[a|e] w1]; [|done]. by apply Hk.
Qed.

Lemma runs_ret {A} (P : World -> Prop) (a : A) Q E :
  (forall w, P w -> Q a w) -> runs P (mret a) Q E.
Proof. intros H w Hw. by apply H. Qed.

Lemma runs_throw {A} (P : World -> Prop) e (Q : A -> World -> Prop) E :
  (forall w, P w -> E e w) -> runs P (throw e) Q E.
Proof. intros H w Hw. by apply H. Qed.

Lemma runs_weaken {A} (P P' : World -> Prop) (m : M A) (Q Q' : A -> World -> Prop)
    (E E' : string -> World -> Prop) :
  runs P m Q E -> (forall w, P' w -> P w) ->
  (forall a w, Q a w -> Q' a w) -> (forall e w, E e w -> E' e w) ->
  runs P' m Q' E'.
Proof.
  intros Hm HP HQ HE w Hw. specialize (Hm w (HP w Hw)).
  destruct (m w) as [[a|e] w1]; auto.
Qed.

Lemma runs_keeps {A} I (m : M A) Q :
  keeps I m Q -> runs I m (fun a w => I w /\ Q a) (fun _ w => I w).
Proof.
  intros H w Hw. destruct (H w Hw) as [H1 H2].
  destruct (m w) as [[a|e] w1]; cbn [fst snd] in *; auto.
Qed.

(** What [signInWithEmailAndPassword] does from a world with the data
    of [w0]. *)
Lemma runs_signIn w0 e p :
  runs (sameData w0) (signInWithEmailAndPassword e p)
    (fun cred w =>
       exists a, In a (accounts w0) /\ account_password a = p
                 /\ e = Some (JString (User.email (account_user a)))
                 /\ user cred = Some (account_user a)
                 /\ sessionIs (accounts w0) (Some (account_user a)) w
                 /\ db w = db w0)
    (fun _ w => sameData w0 w).
Proof.
  intros w Hw. unfold signInWithEmailAndPassword. rewrite bind_run.
  pose proof (runs_keeps _ _ _ (keeps_request (sameData w0) (sameData_data w0)) w Hw)
    as Hreq.
  destruct (request w) as [[[]|msg] w1]; [|exact Hreq].
  destruct Hreq as [(Hdb & Hacc & Hcur & Hsup) _].
  rewrite bind_run. cbn [getWorld].
  destruct e as [[e| |]|]; try by repeat split.
  destruct (find _ (accounts w1)) as [a|] eqn:Hfind; [|by repeat split].
  apply find_some in Hfind as [Hin [He Hp]%andb_true_iff].
  apply bool_decide_eq_true in He, Hp.
  exists a. rewrite <- Hacc. split; [done|]. split; [done|].
  split; [by rewrite <- He|]. by repeat split.
Qed.

Lemma runs_getUidByUsername w0 u :
  runs (sameData w0) (getUidByUsername u)
    (fun _ w => sameData w0 w) (fun _ w => sameData w0 w).
Proof.
  eapply runs_weaken;
    [apply runs_keeps, (keeps_getUidByUsername _ (sameData_data w0))
    |done|by intros ? ? [? _]|done].
Qed.

Lemma runs_getUserProfile w0 u :
  runs (sameData w0) (getUserProfile u)
    (fun _ w => sameData w0 w) (fun _ w => sameData w0 w).
Proof.
  eapply runs_weaken;
    [apply runs_keeps, (keeps_getUserProfile _ (sameData_data w0))
    |done|by intros ? ? [? _]|done].
Qed.

(** The [try] block of [handleLogin]: it returns with a user signed in
    whose account has the password of the form, the accounts being those
    of before; or it throws with the data of before. *)
Lemma runs_handleLogin_try w0 f :
  runs (sameData w0) (handleLogin_try f)
    (fun _ w =>
       exists a, In a (accounts w0) /\ account_password a = password f
                 /\ sessionIs (accounts w0) (Some (account_user a)) w)
    (fun _ w => sameData w0 w).
Proof.
  unfold handleLogin_try.
  apply runs_bind with
    (Q := fun resolved w =>
            sameData w0 w /\
            (snd resolved = true ->
             exists v, fst resolved = Some (JString v)
                       /\ JSString.includes v "@" = true)).
  - destruct (negb (JSString.includes (email f) "@")).
    + eapply runs_bind; [apply runs_getUidByUsername|].
      intros lookupValue. destruct (negb (truthy lookupValue)).
      { by apply runs_throw. }
      destruct lookupValue as [[value| |]|]; try by apply runs_throw.
      destruct (JSString.includes value "@") eqn:Hat.
      { apply runs_ret. intros w Hw. split; [done|]. intros _. by exists value. }
      eapply runs_bind; [apply runs_getUserProfile|].
      intros profile. destruct (truthy (prop profile "email")).
      * apply runs_ret. intros w Hw. by split.
      * by apply runs_throw.
    + apply runs_ret. intros w Hw. by split.
  - intros [loginEmail isLegacyUser]. cbn [fst snd]. intros w [Hw Hlegacy].
    revert w Hw. apply runs_bind with
      (Q := fun cred w =>
         exists a, In a (accounts w0) /\ account_password a = password f
                   /\ loginEmail = Some (JString (User.email (account_user a)))
                   /\ user cred = Some (account_user a)
                   /\ sessionIs (accounts w0) (Some (account_user a)) w
                   /\ db w = db w0);
      [apply runs_signIn|].
    intros cred w (a & Hin & Hp & He & Hu & Hs & _). rewrite Hu.
    destruct isLegacyUser.
    + destruct (Hlegacy eq_refl) as (v & -> & Hat). rewrite Hat. cbn [negb Bool.eqb].
      pose proof (autoRepair_returns (JSString.trim (email f)) v (account_user a) w)
        as Hok.
      destruct (keeps_autoRepair (sessionIs (accounts w0) (Some (account_user a)))
                  (JSString.trim (email f)) v (account_user a)
                  (sessionIs_data _ _) (sessionIs_write _ _ _ _)
                  (fun _ => sessionIs_write _ _ _ _) w Hs) as [Hs' _].
      destruct (autoRepair _ _ _ w) as [[[]|e] w2]; [|discriminate Hok].
      by exists a.
    + by exists a.
Qed.

End TripleFacts.

Module AuthExtras.
Import RunFacts KeepFacts AuthFacts TripleFacts Db Auth Invariants.

(** X9: how [handleLogin] ends, for every form and every world.  The
    form is no longer loading and its fields are those entered.  Either
    no error is shown, and then a user is signed in whose account, one of
    those that existed, has the password of the form; or the error shown
    is the one generic message, whatever went wrong, the exception is the
    last thing logged, and the tree, the accounts and the signed-in user
    are those of before: a failed login changes no data, and a repair
    that fails never turns a login into a failure. *)
Theorem handleLogin_outcome (f : Form) (w : World) :
  let f' := fst (handleLogin f w) in
  let w' := snd (handleLogin f w) in
  loading f' = false /\ email f' = email f /\ password f' = password f
  /\ ((error f' = ""
       /\ exists a, In a (accounts w) /\ account_password a = password f
                    /\ currentUser w' = Some (account_user a)
                    /\ accounts w' = accounts w)
      \/ (error f' = "Ошибка входа. Проверьте данные."
          /\ sameData w w'
          /\ exists err,
               last (console w') = Some {| level := ErrorLevel; args := [err] |})).
Proof.
  intros f' w'. unfold f', w', handleLogin.
  pose proof (runs_handleLogin_try w (setError "" (setLoading true f)) w
                (conj eq_refl (conj eq_refl (conj eq_refl eq_refl)))) as Hrun.
  destruct (handleLogin_try _ w) as [[[]|err] w1]; cbn [fst snd].
  - split; [done|]. split; [done|]. split; [done|]. left. split; [done|].
    destruct Hrun as (a & Hin & Hp & Hacc & Hcur). by exists a.
  - rewrite consoleWrite_run. cbn [snd].
    split; [done|]. split; [done|]. split; [done|]. right. split; [done|].
    split.
    + by apply (sameData_data w w1 Hrun).
    + exists err. cbn [console withConsole]. by rewrite last_snoc.
Qed.

(** X10: login with an address.  When the input contains '@',
    [handleLogin] consults no username mapping and repairs nothing: the
    tree, the listeners and the recorded calls are untouched and exactly
    one request is made, the sign-in, with the input as typed (neither
    trimmed nor lowercased).  No error is shown exactly when that request
    does not fail and an account has this address and this password. *)
Theorem email_login_skips_the_lookup (f : Form) (w : World) :
  JSString.includes (email f) "@" = true ->
  let f' := fst (handleLogin f w) in
  let w' := snd (handleLogin f w) in
  db w' = db w /\ listeners w' = listeners w /\ calls w' = calls w
  /\ faults w' = tail (faults w)
  /\ (error f' = "" <->
      (forall msg, head (faults w) <> Some (Some msg)) /\
      exists a, In a (accounts w)
                /\ User.email (account_user a) = email f
                /\ account_password a = password f).
Proof.
  intros Hat f' w'. unfold f', w', handleLogin, handleLogin_try.
  cbn [email password setError setLoading]. rewrite Hat. cbn [negb].
  rewrite bind_run. cbn [mret M_ret fst snd].
  rewrite bind_run. unfold signInWithEmailAndPassword.
  rewrite bind_run, request_run.
  set (matches := fun a : Account =>
         hasEmail (email f) a && bool_decide (account_password a = password f)).
  assert (Hfind : forall l,
            (exists a, In a l /\ User.email (account_user a) = email f
                       /\ account_password a = password f)
            <-> find matches l <> None).
  { intros l. split.
    - intros (a & Hin & He & Hp) Hnone.
      pose proof (find_none _ _ Hnone a Hin) as Hno. unfold matches, hasEmail in Hno.
      by rewrite !bool_decide_true in Hno.
    - destruct (find matches l) as [a|] eqn:Hf; [intros _|done].
      apply find_some in Hf as [Hin [He Hp]%andb_true_iff].
      apply bool_decide_eq_true in He, Hp. by exists a. }
  destruct (faults w) as [|[msg|] rest] eqn:Hfaults; cbn [head tail].
  - rewrite bind_run. cbn [getWorld]. fold matches.
    specialize (Hfind (accounts w)).
    destruct (find matches (accounts w)) as [a|]; cbn [fst snd];
      rewrite ?consoleWrite_run; cbn [fst snd];
      (split; [done|]); (split; [done|]); (split; [done|]);
      (split; [by rewrite ?Hfaults|]); cbn [error setError setLoading].
    + split; [intros _|done]. split; [done|]. by apply Hfind.
    + split; [done|]. intros [_ Hex]. by apply Hfind in Hex.
  - rewrite consoleWrite_run. cbn [fst snd].
    split; [done|]. split; [done|]. split; [done|]. split; [done|].
    cbn [error setError setLoading]. split; [done|].
    intros [Hno _]. by destruct (Hno msg).
  - rewrite bind_run. cbn [getWorld]. fold matches.
    specialize (Hfind (accounts w)).
    change (accounts (withFaults rest w)) with (accounts w).
    destruct (find matches (accounts w)) as [a|]; cbn [fst snd];
      rewrite ?consoleWrite_run; cbn [fst snd];
      (split; [done|]); (split; [done|]); (split; [done|]);
      (split; [done|]); cbn [error setError setLoading].
    + split; [intros _|done]. split; [done|]. by apply Hfind.
    + split; [done|]. intros [_ Hex]. by apply Hfind in Hex.
Qed.

Lemma email_login_skips_the_lookup_witness :
  db (snd (handleLogin
             {| loading := false; error := ""; email := "bob@x.org";
                username := ""; password := "pw"; confirmPassword := "" |}
             Samples.legacyWorld))
  = db Samples.legacyWorld.
Proof.
  exact (proj1 (email_login_skips_the_lookup
                  {| loading := false; error := ""; email := "bob@x.org";
                     username := ""; password := "pw"; confirmPassword := "" |}
                  Samples.legacyWorld eq_refl)).
Defined.

End AuthExtras.

(* ===================================================================== *)
(** * Registration *)
(* ===================================================================== *)

Module RegisterFacts.
Import TreeFacts PathFacts RunFacts KeepFacts AuthFacts StoreFacts ReaderFacts.
Import Db Auth Invariants.

Lemma withFaults_same w : withFaults (faults w) w = w.
Proof. by destruct w. Qed.

Lemma request_cases w :
  exists fl, request w = (Ok tt, withFaults fl w)
             \/ exists e, request w = (Throw e, withFaults fl w).
Proof.
  rewrite request_run. destruct (faults w) as [|[msg|] rest] eqn:Hf.
  - exists []. left. by rewrite <- Hf, withFaults_same.
  - exists rest. right. by exists msg.
  - exists rest. by left.
Qed.

Lemma get_cases r w :
  exists fl, get r w = (Ok (getAt r (db w)), withFaults fl w)
             \/ exists e, get r w = (Throw e, withFaults fl w).
Proof.
  destruct (request_cases w) as (fl & [H | [e H]]); exists fl;
    unfold get; rewrite bind_run, H; [by left | right; by exists e].
Qed.

Lemma set_cases r v w :
  exists fl, set r v w = (Ok tt, written r (Some v) (withFaults fl w))
             \/ exists e, set r v w = (Throw e, withFaults fl w).
Proof.
  destruct (request_cases w) as (fl & [H | [e H]]); exists fl;
    unfold set; rewrite bind_run, H; [by left | right; by exists e].
Qed.

Lemma getUidByUsername_get u w :
  getUidByUsername u w = get (ref ("usernames/" +:+ normalized u)) w.
Proof.
  unfold getUidByUsername. rewrite bind_run.
  change (child rootRef ?p) with (ref p). fold (normalized u).
  by destruct (get _ w) as [[[v|]|e] w'].
Qed.

Lemma createUser_cases e p w :
  exists fl,
    (exists msg, createUserWithEmailAndPassword e p w = (Throw msg, withFaults fl w))
    \/ (existsb (hasEmail e) (accounts w) = false /\
        exists uid rest,
          uidSupply w = uid :: rest /\
          let u := {| User.uid := uid; User.email := e |} in
          createUserWithEmailAndPassword e p w
          = (Ok {| user := Some u |},
             withSession
               (accounts w ++ [ {| account_user := u; account_password := p |} ])
               (Some u) rest (withFaults fl w))).
Proof.
  destruct (request_cases w) as (fl & [H | [msg H]]); exists fl;
    unfold createUserWithEmailAndPassword; rewrite bind_run, H;
    [|left; by exists msg].
  rewrite bind_run. cbn [getWorld accounts withFaults uidSupply].
  destruct (existsb (hasEmail e) (accounts w)); [left; by eexists|].
  destruct (uidSupply w) as [|uid rest]; [left; by eexists|].
  right. split; [done|]. by exists uid, rest.
Qed.

(** What a registration that completes has done. *)
Lemma handleRegister_try_ok f w w' :
  handleRegister_try f w = (Ok tt, w') ->
  truthy (getAt (ref ("usernames/" +:+ normalized (username f))) (db w)) = false
  /\ existsb (hasEmail (email f)) (accounts w) = false
  /\ exists uid rest,
       uidSupply w = uid :: rest /\ uidSupply w' = rest
       /\ accounts w'
          = accounts w ++
            [ {| account_user := {| User.uid := uid; User.email := email f |};
                 account_password := password f |} ]
       /\ currentUser w' = Some {| User.uid := uid; User.email := email f |}
       /\ getAt (ref ("usernames/" +:+ normalized (username f))) (db w')
          = Some (JString uid)
       /\ (reserved uid = false ->
           getAt (ref ("users/" +:+ uid +:+ "/profile")) (db w')
           = Some (jsonOfProfile {| Types.uid := uid; Types.email := email f;
                                    Types.username := username f |}))
       /\ (reserved uid = true ->
           db w' = update (ref ("usernames/" +:+ normalized (username f)))
                     (Some (JString uid)) (db w)).
Proof.
  unfold handleRegister_try. rewrite bind_run, getUidByUsername_get.
  destruct (get_cases (ref ("usernames/" +:+ normalized (username f))) w)
    as (fl1 & [-> | [e ->]]); [|done].
  destruct (truthy (getAt _ (db w))) eqn:Hfree; [done|].
  rewrite bind_run.
  destruct (createUser_cases (email f) (password f) (withFaults fl1 w))
    as (fl2 & [[msg ->] | [Hnew (uid & rest & Hsup & ->)]]); [done|].
  cbn [user User.uid]. rewrite bind_run.
  unfold registerUsername. fold (normalized (username f)).
  set (w2 := withSession _ _ _ _).
  destruct (set_cases (ref ("usernames/" +:+ normalized (username f)))
              (JString uid) w2) as (fl3 & [-> | [e ->]]); [|done].
  set (w3 := written _ _ _).
  assert (H3 : db w3 = update (ref ("usernames/" +:+ normalized (username f)))
                         (Some (JString uid)) (db w)
               /\ accounts w3 = accounts w ++
                     [ {| account_user := {| User.uid := uid; User.email := email f |};
                          account_password := password f |} ]
               /\ currentUser w3 = Some {| User.uid := uid; User.email := email f |}
               /\ uidSupply w3 = rest).
  { unfold w3.
    destruct (written_fields (ref ("usernames/" +:+ normalized (username f)))
                (Some (JString uid)) (withFaults fl3 w2))
      as (-> & _ & -> & -> & -> & _). done. }
  destruct H3 as (Hdb3 & Hacc3 & Hcur3 & Hsup3).
  unfold saveUserProfile. destruct (reserved uid) eqn:Hres.
  - rewrite consoleWrite_run. intros [= <-].
    split; [done|]. split; [done|]. exists uid, rest.
    cbn [uidSupply accounts currentUser db withConsole].
    rewrite Hdb3, getAt_update.
    repeat split; try done. intros Hno. by rewrite Hno in Hres.
  - set (profile := jsonOfProfile _).
    destruct (set_cases (ref ("users/" +:+ uid +:+ "/profile")) profile w3)
      as (fl4 & [-> | [e ->]]); [|done].
    intros [= <-]. split; [done|]. split; [done|]. exists uid, rest.
    destruct (written_fields (ref ("users/" +:+ uid +:+ "/profile"))
                (Some profile) (withFaults fl4 w3))
      as (-> & _ & -> & -> & -> & _).
    cbn [uidSupply accounts currentUser db withFaults].
    rewrite Hdb3, AuthClaims.usernames_users_apart, !getAt_update.
    repeat split; try done. intros Hyes. by rewrite Hyes in Hres.
Qed.

Lemma handleRegister_shown f w :
  error (fst (handleRegister f w)) = "" ->
  Nat.ltb (JSString.length (username f)) 3 = false
  /\ password f = confirmPassword f
  /\ exists w', handleRegister_try (setError "" (setLoading true f)) w = (Ok tt, w')
                /\ snd (handleRegister f w) = w'.
Proof.
  unfold handleRegister. cbn [username password confirmPassword setError setLoading].
  destruct (Nat.ltb _ 3); [done|].
  destruct (bool_decide (password f = confirmPassword f)) eqn:Hpw; [|done].
  apply bool_decide_eq_true in Hpw. cbn [negb].
  destruct (handleRegister_try _ w) as [[[]|err] w1]; cbn [fst snd error setError setLoading].
  - intros _. split; [done|]. split; [done|]. by exists w1.
  - by destruct err.
Qed.

End RegisterFacts.

Module RegisterExtras.
Import TreeFacts PathFacts RunFacts KeepFacts AuthFacts StoreFacts ReaderFacts.
Import RegisterFacts Db Auth Invariants.

(** X11: a registration that shows no error is complete.  Whenever
    [handleRegister] ends with no error shown, the form had passed the
    local checks, the username was free and the address unused; a new
    account with the address and the password of the form has been made
    under the next identifier and its user is signed in; the normalized
    username maps to that identifier; and the profile at the identifier is
    {uid, email, username} unless the identifier is reserved, in which
    case only the mapping has been written.  On every failure an error is
    shown: the message of the exception, never the empty string. *)
Theorem registration_without_error_is_complete (f : Form) (w : World) :
  error (fst (handleRegister f w)) = "" ->
  let w' := snd (handleRegister f w) in
  (3 <= JSString.length (username f))%nat
  /\ password f = confirmPassword f
  /\ truthy (getAt (ref ("usernames/" +:+ normalized (username f))) (db w)) = false
  /\ existsb (hasEmail (email f)) (accounts w) = false
  /\ exists uid rest,
       uidSupply w = uid :: rest /\ uidSupply w' = rest
       /\ accounts w'
          = accounts w ++
            [ {| account_user := {| User.uid := uid; User.email := email f |};
                 account_password := password f |} ]
       /\ currentUser w' = Some {| User.uid := uid; User.email := email f |}
       /\ getAt (ref ("usernames/" +:+ normalized (username f))) (db w')
          = Some (JString uid)
       /\ (reserved uid = false ->
           getAt (ref ("users/" +:+ uid +:+ "/profile")) (db w')
           = Some (jsonOfProfile {| Types.uid := uid; Types.email := email f;
                                    Types.username := username f |}))
       /\ (reserved uid = true ->
           db w' = update (ref ("usernames/" +:+ normalized (username f)))
                     (Some (JString uid)) (db w)).
Proof.
  intros Hshown w'.
  destruct (handleRegister_shown f w Hshown) as (Hlen & Hpw & w1 & Htry & Hw1).
  unfold w'. rewrite Hw1.
  split; [by apply Nat.ltb_ge in Hlen|]. split; [done|].
  exact (handleRegister_try_ok _ w w1 Htry).
Qed.

Lemma registration_without_error_is_complete_witness :
  currentUser (snd (handleRegister Samples.freshForm Samples.freshWorld))
  = Some {| User.uid := "u1"; User.email := "a@x.org" |}
  /\ getAt ["usernames"; "alice"]
           (db (snd (handleRegister Samples.freshForm Samples.freshWorld)))
     = Some (JString "u1").
Proof.
  destruct (registration_without_error_is_complete
              Samples.freshForm Samples.freshWorld eq_refl)
    as (_ & _ & _ & _ & uid & rest & Hsup & _ & _ & Hcur & Hmap & _).
  injection Hsup as <- <-. exact (conj Hcur Hmap).
Defined.

(** X12: registration is not atomic.  For a username whose normalized
    form the store accepts as a key: when the lookup and the creation of
    the account succeed and the write of the username mapping fails,
    [handleRegister] shows the failure, yet the account exists and its
    user is signed in, while the tree holds neither the mapping nor the
    profile; and from then on no registration with the same address can
    complete, whatever username is chosen. *)
Theorem registration_is_not_atomic
    (f : Form) (w : World) (msg : string) (later : list (option string))
    (uid : string) (rest : list string) :
  Nat.ltb (JSString.length (username f)) 3 = false ->
  password f = confirmPassword f ->
  validKey (normalized (username f)) = true ->
  truthy (getAt (ref ("usernames/" +:+ normalized (username f))) (db w)) = false ->
  existsb (hasEmail (email f)) (accounts w) = false ->
  uidSupply w = uid :: rest ->
  faults w = None :: None :: Some msg :: later ->
  let f' := fst (handleRegister f w) in
  let w' := snd (handleRegister f w) in
  error f' = (if JSString.truthy msg then msg else "Ошибка регистрации")
  /\ accounts w'
     = accounts w ++
       [ {| account_user := {| User.uid := uid; User.email := email f |};
            account_password := password f |} ]
  /\ currentUser w' = Some {| User.uid := uid; User.email := email f |}
  /\ db w' = db w
  /\ (forall f2 w2,
        accounts w2 = accounts w' -> email f2 = email f ->
        error (fst (handleRegister f2 w2)) <> "").
Proof.
  intros Hlen Hpw _ Hfree Hnew Hsup Hf f' w'.
  assert (Hrun : handleRegister f w
    = (setLoading false
         (setError (if JSString.truthy msg then msg else "Ошибка регистрации")
            (setError "" (setLoading true f))),
       withConsole (console w ++ [ {| level := ErrorLevel; args := [msg] |} ])
         (withSession
            (accounts w ++
             [ {| account_user := {| User.uid := uid; User.email := email f |};
                  account_password := password f |} ])
            (Some {| User.uid := uid; User.email := email f |}) rest
            (withFaults later w)))).
  { unfold handleRegister.
    cbn [username password confirmPassword email setError setLoading].
    rewrite Hlen, bool_decide_true by done. cbn [negb].
    unfold handleRegister_try.
    cbn [username password confirmPassword email setError setLoading].
    rewrite bind_run, getUidByUsername_get, get_run, Hf, Hfree, bind_run.
    unfold createUserWithEmailAndPassword.
    rewrite bind_run, request_run. cbn [faults withFaults].
    rewrite bind_run. cbn [getWorld accounts uidSupply withFaults].
    rewrite Hnew, Hsup. cbn [bind_run user User.uid].
    rewrite !bind_run. cbn [putWorld mret M_ret user User.uid].
    rewrite bind_run. unfold registerUsername. rewrite set_run.
    cbn [faults withFaults withSession]. rewrite consoleWrite_run.
    cbn [snd]. reflexivity. }
  unfold f', w'. rewrite Hrun. cbn [fst snd].
  split; [done|]. split; [done|]. split; [done|]. split; [done|].
  intros f2 w2 Hacc He Hshown.
  destruct (handleRegister_shown f2 w2 Hshown) as (_ & _ & w3 & Htry & _).
  destruct (handleRegister_try_ok _ w2 w3 Htry) as (_ & Hunused & _).
  cbn [email setError setLoading] in Hunused.
  rewrite Hacc, He in Hunused.
  cbn [accounts withConsole withSession] in Hunused.
  rewrite existsb_app in Hunused. cbn [existsb] in Hunused.
  unfold hasEmail at 2 in Hunused. cbn [account_user User.email] in Hunused.
  rewrite bool_decide_true in Hunused by done.
  by rewrite orb_true_r in Hunused.
Qed.

Lemma registration_is_not_atomic_witness :
  error (fst (handleRegister Samples.freshForm
                (withFaults [None; None; Some "offline"] Samples.freshWorld)))
  = "offline"
  /\ currentUser
       (snd (handleRegister Samples.freshForm
               (withFaults [None; None; Some "offline"] Samples.freshWorld)))
     = Some {| User.uid := "u1"; User.email := "a@x.org" |}
  /\ db (snd (handleRegister Samples.freshForm
                (withFaults [None; None; Some "offline"] Samples.freshWorld)))
     = None.
Proof.
  destruct (registration_is_not_atomic Samples.freshForm
              (withFaults [None; None; Some "offline"] Samples.freshWorld)
              "offline" [] "u1" [] eq_refl eq_refl eq_refl eq_refl eq_refl
              eq_refl eq_refl)
    as (He & _ & Hcur & Hdb & _).
  exact (conj He (conj Hcur Hdb)).
Defined.

End RegisterExtras.

(* ===================================================================== *)
(** * Login with a username *)
(* ===================================================================== *)

Module LoginFacts.
Import TreeFacts PathFacts RunFacts KeepFacts AuthFacts StoreFacts ReaderFacts.
Import CaseFacts RegisterFacts Db Auth Invariants.

Lemma truthy_of_guard uid : emptyOrReserved uid = false -> JSString.truthy uid = true.
Proof.
  unfold emptyOrReserved. intros [[H _]%orb_false_iff _]%orb_false_iff.
  by apply negb_false_iff in H.
Qed.

Lemma no_at_of_guard uid :
  emptyOrReserved uid = false -> JSString.includes uid "@" = false.
Proof. unfold emptyOrReserved. by intros [_ H]%orb_false_iff. Qed.

Lemma find_unused e p l (a : Account) :
  existsb (hasEmail e) l = false ->
  hasEmail e a = true -> account_password a = p ->
  find (fun a => hasEmail e a && bool_decide (account_password a = p)) (l ++ [a])
  = Some a.
Proof.
  intros Hl He Hp. induction l as [|b l IH]; cbn [app find existsb] in *.
  - by rewrite He, bool_decide_true.
  - apply orb_false_iff in Hl as [-> Hl]. cbn [andb]. by apply IH.
Qed.

Lemma handleRegister_try_reliable f w uid rest :
  reliable w ->
  truthy (getAt (ref ("usernames/" +:+ normalized (username f))) (db w)) = false ->
  existsb (hasEmail (email f)) (accounts w) = false ->
  uidSupply w = uid :: rest ->
  exists w', handleRegister_try f w = (Ok tt, w') /\ reliable w'.
Proof.
  intros Hw Hfree Hnew Hsup. unfold handleRegister_try.
  rewrite bind_run, getUidByUsername_get, get_reliable, Hfree, bind_run by done.
  unfold createUserWithEmailAndPassword.
  rewrite bind_run, request_reliable, bind_run by done.
  cbn [getWorld]. rewrite Hnew, Hsup, !bind_run.
  cbn [putWorld mret M_ret user User.uid]. rewrite bind_run.
  unfold registerUsername. rewrite set_reliable by done.
  unfold saveUserProfile. destruct (reserved uid).
  - rewrite consoleWrite_run. eexists. split; [reflexivity|].
    by apply reliable_withConsole, written_reliable.
  - rewrite set_reliable by (by apply written_reliable).
    eexists. split; [reflexivity|]. by do 2 apply written_reliable.
Qed.

Lemma handleLogin_by_username
    (f : Form) (w : World) (uid e : string) (profile : JSON) (a : Account) :
  JSString.includes (email f) "@" = false ->
  reliable w ->
  getAt (ref ("usernames/" +:+ normalized (email f))) (db w)
    = Some (JString uid) ->
  emptyOrReserved uid = false ->
  getAt (ref ("users/" +:+ uid +:+ "/profile")) (db w) = Some profile ->
  prop (Some profile) "email" = Some (JString e) ->
  JSString.truthy e = true ->
  find (fun a => hasEmail e a && bool_decide (account_password a = password f))
       (accounts w) = Some a ->
  handleLogin f w
  = (setLoading false (setError "" (setLoading true f)),
     withSession (accounts w) (Some (account_user a)) (uidSupply w) w).
Proof.
  intros Hat Hw Hmap Hid Hprofile He Hne Hfind.
  unfold handleLogin, handleLogin_try.
  cbn [email password setError setLoading]. rewrite Hat. cbn [negb].
  rewrite !bind_run, getUidByUsername_get, normalized_trim, get_reliable, Hmap
    by done.
  change (truthy (Some (JString uid))) with (JSString.truthy uid).
  rewrite (truthy_of_guard uid Hid), (no_at_of_guard uid Hid). cbn [negb].
  rewrite bind_run, getUserProfile_reliable, Hprofile, He by done.
  change (truthy (Some (JString e))) with (JSString.truthy e). rewrite Hne.
  cbn [mret M_ret fst snd].
  unfold signInWithEmailAndPassword.
  rewrite 2!bind_run, request_reliable by done. rewrite bind_run.
  cbn [getWorld]. rewrite Hfind, bind_run. reflexivity.
Qed.

End LoginFacts.

Module LoginExtras.
Import TreeFacts PathFacts RunFacts KeepFacts AuthFacts StoreFacts ReaderFacts.
Import CaseFacts RegisterFacts LoginFacts Db Auth Invariants.

(** X13: login with a username.  When the input has no '@', its
    normalized form maps to an identifier that is neither empty nor
    reserved, the profile at that identifier has a non-empty email, an
    account has that email and the password of the form, and the requests
    succeed, [handleLogin] shows no error and changes nothing but the
    session: the user of that account is signed in, found by the email of
    the profile, and nothing is written, repaired or logged. *)
Theorem username_login
    (f : Form) (w : World) (uid e : string) (profile : JSON) (a : Account) :
  JSString.includes (email f) "@" = false ->
  reliable w ->
  getAt (ref ("usernames/" +:+ normalized (email f))) (db w)
    = Some (JString uid) ->
  emptyOrReserved uid = false ->
  getAt (ref ("users/" +:+ uid +:+ "/profile")) (db w) = Some profile ->
  prop (Some profile) "email" = Some (JString e) ->
  JSString.truthy e = true ->
  find (fun a => hasEmail e a && bool_decide (account_password a = password f))
       (accounts w) = Some a ->
  let f' := fst (handleLogin f w) in
  let w' := snd (handleLogin f w) in
  error f' = "" /\ loading f' = false
  /\ currentUser w' = Some (account_user a)
  /\ accounts w' = accounts w /\ db w' = db w
  /\ console w' = console w
  /\ listeners w' = listeners w /\ calls w' = calls w.
Proof.
  intros Hat Hw Hmap Hid Hprofile He Hne Hfind f' w'.
  unfold f', w'.
  rewrite (handleLogin_by_username f w uid e profile a
             Hat Hw Hmap Hid Hprofile He Hne Hfind).
  cbn [fst snd error loading setLoading setError].
  cbn [currentUser accounts db console listeners calls withSession].
  by repeat split.
Qed.

Lemma username_login_witness :
  let w1 := snd (handleRegister Samples.freshForm Samples.freshWorld) in
  let f2 := {| loading := false; error := ""; email := "ALICE ";
               username := ""; password := "pw"; confirmPassword := "" |} in
  error (fst (handleLogin f2 w1)) = ""
  /\ currentUser (snd (handleLogin f2 w1))
     = Some {| User.uid := "u1"; User.email := "a@x.org" |}
  /\ db (snd (handleLogin f2 w1)) = db w1.
Proof.
  destruct (username_login
              {| loading := false; error := ""; email := "ALICE ";
                 username := ""; password := "pw"; confirmPassword := "" |}
              (snd (handleRegister Samples.freshForm Samples.freshWorld))
              "u1" "a@x.org"
              (jsonOfProfile {| Types.uid := "u1"; Types.email := "a@x.org";
                                Types.username := " Alice" |})
              {| account_user := {| User.uid := "u1"; User.email := "a@x.org" |};
                 account_password := "pw" |}
              eq_refl eq_refl eq_refl eq_refl eq_refl eq_refl eq_refl eq_refl)
    as (H1 & _ & H2 & _ & H3 & _).
  exact (conj H1 (conj H2 H3)).
Defined.

(** X14: registration and login agree.  After a registration in which
    the requests succeed (the form passing the local checks, the username
    free and its normalized form accepted by the store as a key, the
    address unused and not empty, the next identifier not reserved and
    accepted as a key, the username and the address of a size the store
    accepts), no error is shown; and from the world it leaves,
    every input without '@' whose normalized form is that of the
    registered username, whatever its case and surrounding white space,
    logs in with the registered password as the new user, without
    touching the tree, and [getEmailByUsername] returns for it the
    registered address. *)
Theorem register_then_login
    (f : Form) (w : World) (uid : string) (rest : list string) :
  Nat.ltb (JSString.length (username f)) 3 = false ->
  password f = confirmPassword f ->
  reliable w ->
  validKey (normalized (username f)) = true ->
  storable (username f) = true ->
  storable (email f) = true ->
  truthy (getAt (ref ("usernames/" +:+ normalized (username f))) (db w)) = false ->
  existsb (hasEmail (email f)) (accounts w) = false ->
  uidSupply w = uid :: rest ->
  emptyOrReserved uid = false ->
  validKey uid = true ->
  JSString.truthy (email f) = true ->
  let w1 := snd (handleRegister f w) in
  error (fst (handleRegister f w)) = ""
  /\ forall f2,
       JSString.includes (email f2) "@" = false ->
       normalized (email f2) = normalized (username f) ->
       password f2 = password f ->
       error (fst (handleLogin f2 w1)) = ""
       /\ currentUser (snd (handleLogin f2 w1))
          = Some {| User.uid := uid; User.email := email f |}
       /\ db (snd (handleLogin f2 w1)) = db w1
       /\ fst (getEmailByUsername (email f2) w1)
          = Ok (Some (JString (email f))).
Proof.
  intros Hlen Hpw Hw _ _ _ Hfree Hnew Hsup Hid _ Hne w1.
  destruct (handleRegister_try_reliable (setError "" (setLoading true f))
              w uid rest Hw Hfree Hnew Hsup) as (w' & Htry & Hw').
  assert (Hrun : handleRegister f w
                 = (setLoading false (setError "" (setLoading true f)), w')).
  { unfold handleRegister.
    cbn [username password confirmPassword setError setLoading].
    rewrite Hlen, bool_decide_true by done. cbn [negb]. by rewrite Htry. }
  unfold w1. rewrite Hrun. cbn [fst snd]. split; [done|].
  destruct (handleRegister_try_ok _ w w' Htry)
    as (_ & _ & uid' & rest' & Hsup' & _ & Hacc & Hcur & Hmap & Hprofile & _).
  rewrite Hsup in Hsup'. injection Hsup' as <- <-.
  specialize (Hprofile (reserved_of_guard uid Hid)).
  cbn [email username password setError setLoading] in Hacc, Hcur, Hmap, Hprofile.
  intros f2 Hat Hn Hp2.
  rewrite (handleLogin_by_username f2 w' uid (email f) _
             {| account_user := {| User.uid := uid; User.email := email f |};
                account_password := password f |}
             Hat Hw' (eq_trans (f_equal (fun n => getAt (ref ("usernames/" +:+ n)) (db w')) Hn) Hmap)
             Hid Hprofile eq_refl Hne).
  - cbn [fst snd]. split; [done|]. split; [done|]. split; [done|].
    unfold getEmailByUsername.
    rewrite bind_run, getUidByUsername_get, Hn, get_reliable, Hmap by done.
    change (truthy (Some (JString uid))) with (JSString.truthy uid).
    rewrite (truthy_of_guard uid Hid), (no_at_of_guard uid Hid). cbn [negb].
    by rewrite bind_run, getUserProfile_reliable, Hprofile by done.
  - rewrite Hacc, Hp2. apply find_unused; [done| |done].
    unfold hasEmail. by rewrite bool_decide_true.
Qed.

Lemma register_then_login_witness :
  fst (getEmailByUsername "ALICE "
         (snd (handleRegister Samples.freshForm Samples.freshWorld)))
  = Ok (Some (JString "a@x.org")).
Proof.
  destruct (register_then_login Samples.freshForm Samples.freshWorld "u1" []
              eq_refl eq_refl eq_refl eq_refl eq_refl eq_refl eq_refl eq_refl
              eq_refl eq_refl eq_refl eq_refl)
    as [_ H].
  exact (proj2 (proj2 (proj2
    (H {| loading := false; error := ""; email := "ALICE ";
          username := ""; password := "pw"; confirmPassword := "" |}
       eq_refl eq_refl eq_refl)))).
Defined.

End LoginExtras.

(* ===================================================================== *)
(** * The profile view: the month, the history, the name shown *)
(* ===================================================================== *)

Module SummaryFacts.
Import JSDate Profile DateFacts StringFacts PathFacts ProfileFacts.

Lemma inCurrentMonth_ymd today m y mo d :
  ymdOfString (date m) = Some (y, mo, d) ->
  inCurrentMonth today m
  = (y =? YearFromTime today) && (mo - 1 =? MonthFromTime today).
Proof.
  intros H. unfold inCurrentMonth. by rewrite (fields_of_ymd _ _ _ _ H).
Qed.

Lemma inCurrentMonth_no_hyphen today m :
  JSString.includes (date m) "-" = false -> inCurrentMonth today m = false.
Proof.
  intros H. unfold inCurrentMonth. rewrite (split_free "-" _ H).
  cbn [map element nth]. unfold JSNumber.NaN, JSNumber.minus. cbn [fmap option_fmap option_map].
  unfold strictEq at 2. apply andb_false_r.
Qed.

Lemma filter_length_le {A} (p : A -> bool) l :
  (List.length (List.filter p l) <= List.length l)%nat.
Proof.
  induction l as [|a l IH]; [done|]. cbn [List.filter].
  destruct (p a); cbn [List.length]; lia.
Qed.

Lemma filter_by_date (p : MoodLog -> bool) :
  (forall a b, date a = date b -> p a = p b) ->
  forall l1 l2,
    map date l1 = map date l2 -> map value l1 = map value l2 ->
    map value (List.filter p l1) = map value (List.filter p l2).
Proof.
  intros Hp l1. induction l1 as [|a l1 IH]; intros [|b l2] Hd Hv;
    try discriminate; [done|].
  injection Hd as Hab Hd. injection Hv as Hvab Hv.
  cbn [List.filter]. rewrite (Hp a b Hab).
  destruct (p b); cbn [map]; [f_equal; [done|]|]; by apply IH.
Qed.

End SummaryFacts.

Module SummaryExtras.
Import JSDate Profile DateFacts StringFacts PathFacts ProfileFacts SummaryFacts.

(** X15: the summary of the month.  A record dated YYYY-MM-DD is counted
    exactly when the year of its date string is the current year and its
    month the current month; the day of the string plays no part, not
    even when it is out of range; a date without a hyphen is never
    counted; and neither the month nor the week counts more records than
    there are. *)
Theorem currentMonth_summary (today : Z) (moodList : list MoodLog) :
  (forall m y mo d,
     ymdOfString (date m) = Some (y, mo, d) ->
     In m (currentMonthLogs today moodList) <->
     In m moodList /\ y = YearFromTime today /\ mo = MonthFromTime today + 1)
  /\ (forall m, JSString.includes (date m) "-" = false ->
                ~ In m (currentMonthLogs today moodList))
  /\ (List.length (currentMonthLogs today moodList) <= List.length moodList)%nat
  /\ (List.length (currentWeekLogs today moodList) <= List.length moodList)%nat.
Proof.
  split; [|split; [|split]].
  - intros m y mo d Hd. unfold currentMonthLogs.
    rewrite filter_In, (inCurrentMonth_ymd today m y mo d Hd).
    rewrite andb_true_iff, !Z.eqb_eq. intuition lia.
  - intros m Hno [_ Hin]%filter_In.
    by rewrite (inCurrentMonth_no_hyphen today m Hno) in Hin.
  - apply filter_length_le.
  - apply filter_length_le.
Qed.

Lemma currentMonth_summary_witness :
  In {| date := "2024-05-99"; value := Good; timestamp := 0 |}
     (currentMonthLogs 1714557600000
        [ {| date := "2024-05-99"; value := Good; timestamp := 0 |} ]).
Proof.
  apply (proj1 (currentMonth_summary 1714557600000
                  [ {| date := "2024-05-99"; value := Good; timestamp := 0 |} ])
           {| date := "2024-05-99"; value := Good; timestamp := 0 |}
           2024 5 99 eq_refl).
  split; [by left | split; reflexivity].
Defined.

(** X16: the summaries read the dates and the values only.  Two lists of
    records with the same dates and the same values, in the same order,
    have the same three summaries, whatever their timestamps. *)
Theorem stats_ignore_timestamps (today : Z) (l1 l2 : list MoodLog) :
  map date l1 = map date l2 -> map value l1 = map value l2 ->
  stats today l1 = stats today l2.
Proof.
  intros Hd Hv.
  assert (Hlen : forall a b : list MoodLog,
            map value a = map value b -> List.length a = List.length b).
  { intros a b H. by rewrite <- (length_map value a), H, length_map. }
  assert (Hweek : map value (currentWeekLogs today l1)
                  = map value (currentWeekLogs today l2)).
  { apply filter_by_date; [|done|done].
    intros a b Hab. unfold inCurrentWeek. by rewrite Hab. }
  assert (Hmonth : map value (currentMonthLogs today l1)
                   = map value (currentMonthLogs today l2)).
  { apply filter_by_date; [|done|done].
    intros a b Hab. unfold inCurrentMonth. by rewrite Hab. }
  unfold stats.
  by rewrite (getAverage_values _ _ Hweek), (getAverage_values _ _ Hmonth),
    (getAverage_values _ _ Hv), (Hlen _ _ Hweek), (Hlen _ _ Hmonth), (Hlen _ _ Hv).
Qed.

Lemma stats_ignore_timestamps_witness :
  stats 1714557600000 [ Samples.may1 ]
  = stats 1714557600000
      [ {| date := "2024-05-01"; value := VeryGood; timestamp := 0 |} ].
Proof.
  exact (stats_ignore_timestamps 1714557600000 [ Samples.may1 ]
           [ {| date := "2024-05-01"; value := VeryGood; timestamp := 0 |} ]
           eq_refl eq_refl).
Defined.

End SummaryExtras.

Module DisplayFacts.
Import ProfileDisplay Invariants.

Lemma insertByTimestamp_perm a l : Permutation (insertByTimestamp a l) (a :: l).
Proof.
  induction l as [|b l IH]; [done|]. cbn [insertByTimestamp].
  destruct (_ <=? 0); [done|].
  rewrite IH. apply perm_swap.
Qed.

Lemma insertByTimestamp_descending a l :
  descending l -> descending (insertByTimestamp a l).
Proof.
  induction l as [|b l IH]; [done|]. intros [Hb Hl]. cbn [insertByTimestamp].
  destruct (timestamp b - timestamp a <=? 0) eqn:E.
  - apply Z.leb_le in E. split; [|by split].
    constructor; [lia|]. eapply Forall_impl; [exact Hb|].
    cbn beta. intros c Hc. lia.
  - apply Z.leb_gt in E. split; [|by apply IH].
    rewrite insertByTimestamp_perm. constructor; [lia|done].
Qed.

Lemma insertByTimestamp_filter t a l :
  List.filter (fun m => timestamp m =? t) (insertByTimestamp a l)
  = List.filter (fun m => timestamp m =? t) (a :: l).
Proof.
  induction l as [|b l IH]; [done|]. cbn [insertByTimestamp].
  destruct (timestamp b - timestamp a <=? 0) eqn:E; [done|].
  apply Z.leb_gt in E. cbn [List.filter] in *. rewrite IH.
  destruct (timestamp a =? t) eqn:Ea; [|done].
  apply Z.eqb_eq in Ea.
  destruct (timestamp b =? t) eqn:Eb; [|done].
  apply Z.eqb_eq in Eb. lia.
Qed.

End DisplayFacts.

Module DisplayExtras.
Import ProfileDisplay Invariants DisplayFacts.

(** X17: the history is the stable sorting of the records by timestamp,
    latest first: [sortedMoods] is a permutation of the list, its
    timestamps go down, records with the same timestamp keep the order
    they had, and a list that is already in that order is left as it
    is. *)
Theorem sortedMoods_is_the_stable_sort (moodList : list MoodLog) :
  Permutation (sortedMoods moodList) moodList
  /\ descending (sortedMoods moodList)
  /\ (forall t,
        List.filter (fun m => timestamp m =? t) (sortedMoods moodList)
        = List.filter (fun m => timestamp m =? t) moodList)
  /\ (descending moodList -> sortedMoods moodList = moodList).
Proof.
  unfold sortedMoods. split; [|split; [|split]].
  - induction moodList as [|a l IH]; [done|]. cbn [fold_right].
    by rewrite insertByTimestamp_perm, IH.
  - induction moodList as [|a l IH]; [done|]. cbn [fold_right].
    by apply insertByTimestamp_descending.
  - intros t. induction moodList as [|a l IH]; [done|]. cbn [fold_right].
    rewrite insertByTimestamp_filter. cbn [List.filter]. by rewrite IH.
  - induction moodList as [|a l IH]; [done|]. intros [Ha Hl].
    cbn [fold_right]. rewrite (IH Hl).
    destruct l as [|b l]; [done|]. cbn [insertByTimestamp].
    apply Forall_cons in Ha as [Hb _].
    by rewrite (proj2 (Z.leb_le _ _)) by lia.
Qed.

Lemma sortedMoods_is_the_stable_sort_witness :
  sortedMoods [ Samples.may1Later; Samples.may1 ]
  = [ Samples.may1Later; Samples.may1 ].
Proof.
  apply (proj2 (proj2 (proj2
           (sortedMoods_is_the_stable_sort [ Samples.may1Later; Samples.may1 ])))).
  split; [|split; [constructor|exact I]].
  constructor; [vm_compute; discriminate|constructor].
Defined.

(** X18: the name shown is never empty.  It is the username when there
    is one that is not empty; otherwise what precedes the first '@' of
    the email, which contains no '@', when the email is there and that
    part is not empty; otherwise the fixed word; a username wins over any
    email. *)
Theorem displayName_is_never_empty (user : User) :
  displayName user <> ""
  /\ (forall name, username user = Some name -> name <> "" ->
                   displayName user = name)
  /\ (username user = None \/ username user = Some "" ->
      (forall e, email user = Some e ->
                 displayName user <> "Пользователь" ->
                 displayName user = hd "" (JSString.split "@" e)
                 /\ JSString.includes (displayName user) "@" = false)
      /\ (email user = None -> displayName user = "Пользователь")).
Proof.
  assert (Hhd : forall e, JSString.includes (hd "" (JSString.split "@" e)) "@" = false).
  { intros e. induction e as [|c e IH]; [done|]. cbn [JSString.split].
    destruct (Ascii.eqb c "@") eqn:Ec; [done|].
    destruct (JSString.split "@" e) as [|h t] eqn:Es.
    - cbn [hd]. apply PathFacts.includes_unit_cons. split; [|done].
      intros <-. by rewrite Ascii.eqb_refl in Ec.
    - cbn [hd] in *. apply PathFacts.includes_unit_cons. split; [|done].
      intros <-. by rewrite Ascii.eqb_refl in Ec. }
  unfold displayName. split; [|split].
  - destruct (username user) as [[|c name]|]; cbn [JSString.truthy];
      try done; destruct (email user) as [e|]; try done;
      by destruct (hd "" (JSString.split "@" e)).
  - intros name -> Hne. by destruct name.
  - intros Hno. split.
    + intros e ->.
      assert (Hcase : (if JSString.truthy (hd "" (JSString.split "@" e))
                       then hd "" (JSString.split "@" e) else "Пользователь")
                      <> "Пользователь" ->
                      (if JSString.truthy (hd "" (JSString.split "@" e))
                       then hd "" (JSString.split "@" e) else "Пользователь")
                      = hd "" (JSString.split "@" e)
                      /\ JSString.includes
                           (if JSString.truthy (hd "" (JSString.split "@" e))
                            then hd "" (JSString.split "@" e) else "Пользователь")
                           "@" = false).
      { destruct (JSString.truthy (hd "" (JSString.split "@" e))); [|done].
        intros _. split; [done|apply Hhd]. }
      by destruct Hno as [-> | ->].
    + intros ->. by destruct Hno as [-> | ->].
Qed.

Lemma displayName_is_never_empty_witness :
  displayName {| email := Some "alice@x.org"; username := Some ""; uid := "u1" |}
  = "alice".
Proof.
  destruct (displayName_is_never_empty
              {| email := Some "alice@x.org"; username := Some ""; uid := "u1" |})
    as (_ & _ & H).
  destruct (H (or_intror eq_refl)) as [He _].
  exact (proj1 (He "alice@x.org" eq_refl
                  ltac:(vm_compute; discriminate))).
Defined.

End DisplayExtras.

(* ===================================================================== *)
(** * The search, and the mood modal *)
(* ===================================================================== *)

Module SearchFacts.
Import TreeFacts PathFacts RunFacts KeepFacts AuthFacts StoreFacts ReaderFacts.
Import RegisterFacts LoginFacts Db Search Invariants.

Lemma sameButLog_trans w1 w2 w3 :
  sameButLog w1 w2 -> sameButLog w2 w3 -> sameButLog w1 w3.
Proof.
  intros ((H1 & H2 & H3 & H4) & H5 & H6 & H7) ((G1 & G2 & G3 & G4) & G5 & G6 & G7).
  repeat split; congruence.
Qed.

Lemma sameButLog_db w w' : sameButLog w w' -> db w' = db w.
Proof. by intros ((H & _) & _). Qed.

Lemma getUserProfile_cases uid w :
  exists w',
    sameButLog w w' /\
    (getUserProfile uid w
     = (Ok (getAt (ref ("users/" +:+ uid +:+ "/profile")) (db w)), w')
     \/ getUserProfile uid w = (Ok None, w')).
Proof.
  unfold getUserProfile. destruct (emptyOrReserved uid).
  { exists w. split; [apply sameButLog_refl|by right]. }
  unfold tryCatch. rewrite bind_run. change (child rootRef ?p) with (ref p).
  destruct (get_cases (ref ("users/" +:+ uid +:+ "/profile")) w)
    as (fl & [-> | [e ->]]).
  - exists (withFaults fl w). split; [apply sameButLog_faults|].
    left. by destruct (getAt _ (db w)).
  - eexists. split; [|right; reflexivity]. apply sameButLog_console_faults.
Qed.

Lemma getUserMoods_cases uid w :
  exists w',
    sameButLog w w' /\
    (getUserMoods uid w = (Ok (moodCollection uid w), w')
     \/ getUserMoods uid w = (Ok (JObject ∅), w')).
Proof.
  unfold getUserMoods. destruct (emptyOrReserved uid).
  { exists w. split; [apply sameButLog_refl|by right]. }
  unfold tryCatch. rewrite bind_run. change (child rootRef ?p) with (ref p).
  destruct (get_cases (ref ("users/" +:+ uid +:+ "/moods")) w)
    as (fl & [-> | [e ->]]).
  - exists (withFaults fl w). split; [apply sameButLog_faults|].
    left. unfold moodCollection. by destruct (getAt _ (db w)).
  - eexists. split; [|right; reflexivity]. apply sameButLog_console_faults.
Qed.

(** The [try] block of [handleSearch]: what it returns was found in the
    tree, and it changes no data. *)
Lemma handleSearch_try_cases q w :
  exists w',
    sameButLog w w' /\
    ((exists e, handleSearch_try q w = (Throw e, w'))
     \/ exists uid p moods,
          handleSearch_try q w = (Ok (p, moods), w')
          /\ getAt (ref ("usernames/" +:+ normalized q)) (db w)
             = Some (JString uid)
          /\ emptyOrReserved uid = false
          /\ getAt (ref ("users/" +:+ uid +:+ "/profile")) (db w) = Some p
          /\ (moods = moodCollection uid w \/ moods = JObject ∅)).
Proof.
  unfold handleSearch_try. rewrite bind_run, getUidByUsername_get.
  destruct (get_cases (ref ("usernames/" +:+ normalized q)) w)
    as (fl & [-> | [e ->]]);
    [|exists (withFaults fl w); split; [apply sameButLog_faults|left; by exists e]].
  destruct (getAt (ref ("usernames/" +:+ normalized q)) (db w))
    as [[uid| |]|] eqn:Hmap; cbn [truthy negb];
    try (exists (withFaults fl w); split;
         [apply sameButLog_faults|left; by eexists]).
  - destruct (JSString.truthy uid) eqn:Hne; cbn [negb];
      [|exists (withFaults fl w); split;
        [apply sameButLog_faults|left; by eexists]].
    destruct (JSString.includes uid "@") eqn:Hat; cbn [orb];
      [exists (withFaults fl w); split;
        [apply sameButLog_faults|left; by eexists]|].
    destruct (JSString.includes uid ".") eqn:Hdot;
      [exists (withFaults fl w); split;
        [apply sameButLog_faults|left; by eexists]|].
    rewrite bind_run.
    destruct (getUserProfile_cases uid (withFaults fl w)) as (w1 & Hs1 & Hp).
    destruct (getUserMoods_cases uid w1) as (w2 & Hs2 & Hm).
    exists w2. split.
    { eapply sameButLog_trans; [apply sameButLog_faults|].
      by eapply sameButLog_trans. }
    assert (Hmoods : moodCollection uid w1 = moodCollection uid w).
    { unfold moodCollection. by rewrite (sameButLog_db _ _ Hs1). }
    destruct Hp as [-> | ->]; rewrite bind_run.
    + cbn [db withFaults].
      destruct (getAt (ref ("users/" +:+ uid +:+ "/profile")) (db w))
        as [p|] eqn:Hprofile.
      * destruct Hm as [-> | ->];
          (destruct (truthy (Some p)); cbn [negb]; [|left; by eexists]);
          right; exists uid, p; eexists; (split; [reflexivity|]);
          (split; [done|]);
          (split; [unfold emptyOrReserved; by rewrite Hne, Hat, Hdot|]);
          (split; [done|]); [left; by rewrite Hmoods | by right].
      * destruct Hm as [-> | ->]; left; by eexists.
    + destruct Hm as [-> | ->]; left; by eexists.
  - destruct (negb (z =? 0)); cbn [negb];
      exists (withFaults fl w); (split; [apply sameButLog_faults|]);
      left; by eexists.
Qed.

End SearchFacts.

Module SearchExtras.
Import TreeFacts PathFacts RunFacts KeepFacts AuthFacts StoreFacts ReaderFacts.
Import RegisterFacts LoginFacts SearchFacts Db Search Invariants.

(** X19: how [handleSearch] ends, for every state and every world.  A
    search changes no data: the tree, the accounts, the session, the
    listeners and the recorded calls are those of before.  A query that is
    blank does nothing at all.  Otherwise the search is no longer loading
    and either no error is shown and the profile found is the one stored
    at the identifier that the normalized query maps to, an identifier
    neither empty nor reserved, shown with the moods stored for it, or
    with no moods when their read fails; or an error that is not empty is
    shown and nothing is found. *)
Theorem handleSearch_outcome (s : State) (w : World) :
  let s' := fst (handleSearch s w) in
  let w' := snd (handleSearch s w) in
  sameButLog w w' /\ query s' = query s
  /\ (JSString.truthy (JSString.trim (query s)) = false -> s' = s /\ w' = w)
  /\ (JSString.truthy (JSString.trim (query s)) = true ->
      loading s' = false
      /\ ((error s' = ""
           /\ exists uid p moods,
                foundUser s' = Some (p, moods)
                /\ getAt (ref ("usernames/" +:+ normalized (query s))) (db w)
                   = Some (JString uid)
                /\ emptyOrReserved uid = false
                /\ getAt (ref ("users/" +:+ uid +:+ "/profile")) (db w) = Some p
                /\ (moods = moodCollection uid w \/ moods = JObject ∅))
          \/ (error s' <> "" /\ foundUser s' = None))).
Proof.
  intros s' w'. unfold s', w', handleSearch.
  destruct (JSString.truthy (JSString.trim (query s))); cbn [negb];
    [|split; [apply sameButLog_refl|]; by repeat split].
  cbn [query setFoundUser setError setLoading].
  destruct (handleSearch_try_cases (query s) w)
    as (w1 & Hsame & [[e ->] | (uid & p & moods & -> & Hrest)]);
    cbn [fst snd query loading error foundUser setFoundUser setError setLoading].
  - split; [done|]. split; [done|]. split; [done|]. intros _. split; [done|].
    right. split; [by destruct e|done].
  - split; [done|]. split; [done|]. split; [done|]. intros _. split; [done|].
    left. split; [done|]. by exists uid, p, moods.
Qed.

Lemma handleSearch_outcome_witness :
  handleSearch {| query := "   "; loading := false; error := "old";
                  foundUser := None |} Samples.takenWorld
  = ({| query := "   "; loading := false; error := "old"; foundUser := None |},
     Samples.takenWorld).
Proof.
  destruct (handleSearch_outcome
              {| query := "   "; loading := false; error := "old";
                 foundUser := None |} Samples.takenWorld)
    as (_ & _ & H & _).
  destruct (H eq_refl) as [H1 H2].
  exact (eq_trans (surjective_pairing _) (f_equal2 pair H1 H2)).
Defined.

(** X20: what a search finds when the requests succeed, for a query
    that is not blank.  When the normalized query maps to an identifier
    neither empty nor reserved whose profile is stored, the profile is
    shown with the stored moods of that identifier; when it maps to a
    string with an '@' or a '.', a legacy mapping, the search reports the
    profile as outdated without reading anything else; when it is a key
    that the store accepts and maps to nothing, the user is reported as
    not found.  In each case the world is left as it was. *)
Theorem search_by_username (s : State) (w : World) :
  JSString.truthy (JSString.trim (query s)) = true ->
  reliable w ->
  let mapping := getAt (ref ("usernames/" +:+ normalized (query s))) (db w) in
  (forall uid p,
     mapping = Some (JString uid) -> emptyOrReserved uid = false ->
     getAt (ref ("users/" +:+ uid +:+ "/profile")) (db w) = Some p ->
     truthy (Some p) = true ->
     handleSearch s w
     = ({| query := query s; loading := false; error := "";
           foundUser := Some (p, moodCollection uid w) |}, w))
  /\ (forall v,
        mapping = Some (JString v) -> JSString.truthy v = true ->
        JSString.includes v "@" || JSString.includes v "." = true ->
        handleSearch s w
        = ({| query := query s; loading := false;
              error := "Профиль пользователя устарел. Владелец должен войти в систему, чтобы обновить данные.";
              foundUser := None |}, w))
  /\ (validKey (normalized (query s)) = true ->
      mapping = None ->
      handleSearch s w
      = ({| query := query s; loading := false;
            error := "Пользователь не найден"; foundUser := None |}, w)).
Proof.
  intros Hq Hw mapping.
  assert (Hstart : forall r,
            handleSearch_try (query s) w = (r, w) ->
            handleSearch s w
            = match r with
              | Ok found =>
                  ({| query := query s; loading := false; error := "";
                      foundUser := Some found |}, w)
              | Throw err =>
                  ({| query := query s; loading := false;
                      error := if JSString.truthy err then err else "Ошибка поиска";
                      foundUser := None |}, w)
              end).
  { intros r Hr. unfold handleSearch. rewrite Hq. cbn [negb].
    cbn [query setFoundUser setError setLoading]. rewrite Hr. by destruct r. }
  assert (Hlookup : forall k : option JSON -> M (JSON * JSON),
            (getUidByUsername (query s) ≫= k) w = k mapping w).
  { intros k. by rewrite bind_run, getUidByUsername_get, get_reliable. }
  split; [|split].
  - intros uid p Hmap Hid Hp Htruthy.
    rewrite (Hstart (Ok (p, moodCollection uid w))); [done|].
    unfold handleSearch_try. rewrite Hlookup, Hmap.
    change (truthy (Some (JString uid))) with (JSString.truthy uid).
    rewrite (truthy_of_guard uid Hid), (no_at_of_guard uid Hid). cbn [negb orb].
    assert (JSString.includes uid "." = false) as ->.
    { unfold emptyOrReserved in Hid.
      by apply orb_false_iff in Hid as [[_ ?]%orb_false_iff _]. }
    rewrite bind_run, getUserProfile_reliable, Hp by done.
    rewrite bind_run, getUserMoods_reliable by done.
    by rewrite Htruthy.
  - intros v Hmap Hne Hlegacy.
    rewrite (Hstart (Throw "Профиль пользователя устарел. Владелец должен войти в систему, чтобы обновить данные.")); [done|].
    unfold handleSearch_try. rewrite Hlookup, Hmap.
    change (truthy (Some (JString v))) with (JSString.truthy v).
    by rewrite Hne, Hlegacy.
  - intros _ Hmap.
    rewrite (Hstart (Throw "Пользователь не найден")); [done|].
    unfold handleSearch_try. by rewrite Hlookup, Hmap.
Qed.

Lemma search_by_username_witness :
  let w1 := snd (Auth.handleRegister Samples.freshForm Samples.freshWorld) in
  handleSearch {| query := " ALICE"; loading := false; error := "";
                  foundUser := None |} w1
  = ({| query := " ALICE"; loading := false; error := "";
        foundUser :=
          Some (jsonOfProfile {| Types.uid := "u1"; Types.email := "a@x.org";
                                 Types.username := " Alice" |},
                JObject ∅) |}, w1).
Proof.
  exact (proj1 (search_by_username
                  {| query := " ALICE"; loading := false; error := "";
                     foundUser := None |}
                  (snd (Auth.handleRegister Samples.freshForm Samples.freshWorld))
                  eq_refl eq_refl)
           "u1"
           (jsonOfProfile {| Types.uid := "u1"; Types.email := "a@x.org";
                             Types.username := " Alice" |})
           eq_refl eq_refl eq_refl eq_refl).
Defined.

End SearchExtras.

Module ModalExtras.
Import TreeFacts PathFacts RunFacts AuthFacts StoreFacts ReaderFacts Db App Invariants.

(** X21: the two handlers of the mood modal fail differently.  With no
    user or no date selected neither does anything.  With a user whose
    identifier is not reserved and a date selected: when the request
    fails, [handleSaveMood] throws the failure out of the handler, while
    [handleDeleteMood] logs it and returns; in both cases the modal stays
    open and the tree is untouched.  When the requests succeed, the modal
    is closed and the record written is {date selected, value of the
    slider, timestamp now}, respectively the record of the date is
    removed.  With a reserved identifier both close the modal though
    nothing was requested. *)
Theorem modal_handlers (now : Z) (a : State) (w : World) :
  (nothingSelected a = true ->
   handleSaveMood now a w = (Ok a, w) /\ handleDeleteMood a w = (Ok a, w))
  /\ (forall u d,
        user a = Some u -> selectedDateStr a = Some d ->
        JSString.truthy d = true ->
        let moodRef := ref ("users/" +:+ User.uid u +:+ "/moods/" +:+ d) in
        (reserved (User.uid u) = false ->
         (forall msg rest,
            faults w = Some msg :: rest ->
            handleSaveMood now a w = (Throw msg, withFaults rest w)
            /\ handleDeleteMood a w
               = (Ok a,
                  withConsole
                    (console w ++
                     [ {| level := ErrorLevel;
                          args := ["Error deleting mood:"; msg] |} ])
                    (withFaults rest w)))
         /\ (reliable w ->
             handleSaveMood now a w
             = (Ok (setIsModalOpen false a),
                written moodRef
                  (Some (jsonOfMood {| date := d; value := tempMood a;
                                       timestamp := now |})) w)
             /\ handleDeleteMood a w
                = (Ok (setIsModalOpen false a), written moodRef None w)))
        /\ (reserved (User.uid u) = true ->
            handleSaveMood now a w = (Ok (setIsModalOpen false a), w)
            /\ handleDeleteMood a w = (Ok (setIsModalOpen false a), w))).
Proof.
  split.
  - unfold handleSaveMood, handleDeleteMood. intros H.
    destruct (user a), (selectedDateStr a); try done. by rewrite H.
  - intros u d Hu Hd Hne moodRef.
    assert (Hsel : nothingSelected a = false).
    { unfold nothingSelected. by rewrite Hu, Hd, Hne. }
    unfold handleSaveMood, handleDeleteMood, tryCatch.
    rewrite Hu, Hd, Hsel, !bind_run. unfold saveMood, deleteMood.
    cbn [date]. fold moodRef. split.
    + intros Hres. rewrite Hres. split.
      * intros msg rest Hf. unfold remove. rewrite set_run, bind_run, request_run, Hf.
        split; [done|]. by rewrite bind_run, consoleWrite_run.
      * intros Hw. by rewrite set_reliable, remove_reliable.
    + intros Hres. by rewrite Hres.
Qed.

Lemma modal_handlers_witness :
  let a := {| user := Some {| User.uid := "u1"; User.email := "a@x.org" |};
              selectedDateStr := Some "2024-05-01";
              isModalOpen := true; tempMood := Good |} in
  fst (handleSaveMood 5 a (withFaults [Some "offline"] emptyWorld))
  = Throw "offline"
  /\ fst (handleDeleteMood a (withFaults [Some "offline"] emptyWorld)) = Ok a.
Proof.
  destruct (modal_handlers 5
              {| user := Some {| User.uid := "u1"; User.email := "a@x.org" |};
                 selectedDateStr := Some "2024-05-01";
                 isModalOpen := true; tempMood := Good |}
              (withFaults [Some "offline"] emptyWorld)) as [_ H].
  destruct (H {| User.uid := "u1"; User.email := "a@x.org" |} "2024-05-01"
              eq_refl eq_refl eq_refl) as [Hfail _].
  destruct (proj1 (Hfail eq_refl) "offline" [] eq_refl) as [H1 H2].
  exact (conj (f_equal fst H1) (f_equal fst H2)).
Defined.

End ModalExtras.

(* ===================================================================== *)
(** * The calendar *)
(* ===================================================================== *)

Module CivilFacts.
Import JSDate DateFacts Invariants.

Lemma DaysInYear_leap y :
  DaysInYear y = 365 + InLeapYear y /\ (InLeapYear y = 0 \/ InLeapYear y = 1).
Proof.
  unfold InLeapYear, DaysInYear.
  destruct (y mod 4 =? 0), (y mod 100 =? 0), (y mod 400 =? 0); cbn; lia.
Qed.

Lemma DayFromYear_lt a b : a < b -> DayFromYear a < DayFromYear b.
Proof.
  intros Hab. replace b with (a + 1 + (b - a - 1)) by lia.
  assert (Hk : 0 <= b - a - 1) by lia. revert Hk.
  generalize (b - a - 1). clear Hab b.
  apply natlike_ind.
  - rewrite Z.add_0_r, DayFromYear_succ.
    destruct (DaysInYear_leap a) as [-> [-> | ->]]; lia.
  - intros k Hk IH. replace (a + 1 + Z.succ k) with (a + 1 + k + 1) by lia.
    rewrite DayFromYear_succ.
    destruct (DaysInYear_leap (a + 1 + k)) as [-> [-> | ->]]; lia.
Qed.

Lemma YearFromTime_unique t y :
  DayFromYear y <= Day t < DayFromYear (y + 1) -> YearFromTime t = y.
Proof.
  intros Hy. pose proof (YearFromTime_spec t) as Hs.
  destruct (Z.lt_trichotomy (YearFromTime t) y) as [Hlt | [Heq | Hgt]]; [|done|].
  - assert (DayFromYear (YearFromTime t + 1) <= DayFromYear y).
    { destruct (Z.eq_dec (YearFromTime t + 1) y) as [-> | Hne]; [lia|].
      apply Z.lt_le_incl, DayFromYear_lt. lia. }
    lia.
  - assert (DayFromYear (y + 1) <= DayFromYear (YearFromTime t)).
    { destruct (Z.eq_dec (y + 1) (YearFromTime t)) as [-> | Hne]; [lia|].
      apply Z.lt_le_incl, DayFromYear_lt. lia. }
    lia.
Qed.

Lemma month_cases m :
  0 <= m <= 11 ->
  m = 0 \/ m = 1 \/ m = 2 \/ m = 3 \/ m = 4 \/ m = 5 \/ m = 6 \/ m = 7 \/
  m = 8 \/ m = 9 \/ m = 10 \/ m = 11.
Proof. lia. Qed.

Ltac each_month H :=
  destruct (month_cases _ H) as
    [-> | [-> | [-> | [-> | [-> | [-> | [-> | [-> | [-> | [-> | [-> | ->]]]]]]]]]]].

Lemma monthLength_range m days : 28 <= monthLength m days <= 31.
Proof.
  unfold monthLength.
  destruct (m =? 1); [destruct (days =? 366); lia|].
  destruct (_ || _); lia.
Qed.

Lemma monthOfDay_monthStart m leap d :
  0 <= m <= 11 -> leap = 0 \/ leap = 1 ->
  1 <= d <= monthLength m (365 + leap) ->
  monthOfDay (monthStart m leap + d - 1) leap = m
  /\ 0 <= monthStart m leap + d - 1 < 365 + leap.
Proof.
  intros Hm Hleap Hd.
  each_month Hm; destruct Hleap as [-> | ->];
    match type of Hd with
    | context [monthLength ?a ?b] =>
        let v := eval vm_compute in (monthLength a b) in
        change (monthLength a b) with v in Hd
    end;
    match goal with
    | |- context [monthStart ?a ?b] =>
        let v := eval vm_compute in (monthStart a b) in
        change (monthStart a b) with v
    end;
    unfold monthOfDay; (split; [|lia]);
    repeat match goal with
           | |- context [?a <? ?b] => destruct (Z.ltb_spec a b); try lia
           end.
Qed.

Lemma MakeDay_in_year y m d :
  0 <= m <= 11 ->
  MakeDay y m d = DayFromYear y + monthStart m (InLeapYear y) + d - 1.
Proof.
  intros Hm. unfold MakeDay.
  by rewrite (Z.div_small m 12), (Z.mod_small m 12), Z.add_0_r by lia.
Qed.

Lemma MakeDay_norm y m d : MakeDay y m d = MakeDay (y + m / 12) (m mod 12) d.
Proof.
  rewrite (MakeDay_in_year (y + m / 12) (m mod 12))
    by (pose proof (Z.mod_pos_bound m 12); lia).
  reflexivity.
Qed.

(** The fields of the date made from a year, a month and a day of that
    month. *)
Lemma fields_of_MakeDay y m d r :
  0 <= m <= 11 -> 1 <= d <= monthLength m (DaysInYear y) ->
  0 <= r < msPerDay ->
  let t := MakeDate (MakeDay y m d) r in
  YearFromTime t = y /\ MonthFromTime t = m /\ DateFromTime t = d.
Proof.
  intros Hm Hd Hr t.
  destruct (DaysInYear_leap y) as [Hdays Hleap].
  rewrite Hdays in Hd.
  destruct (monthOfDay_monthStart m (InLeapYear y) d Hm Hleap Hd) as [Hmo Hin].
  assert (Hday : Day t = DayFromYear y + monthStart m (InLeapYear y) + d - 1).
  { unfold t. by rewrite Day_MakeDate, MakeDay_in_year. }
  assert (Hy : YearFromTime t = y).
  { apply YearFromTime_unique. rewrite DayFromYear_succ, Hdays, Hday. lia. }
  assert (Hw : DayWithinYear t = monthStart m (InLeapYear y) + d - 1).
  { unfold DayWithinYear. rewrite Hy, Hday. lia. }
  split; [done|]. unfold DateFromTime, MonthFromTime. rewrite Hy, Hw, Hmo.
  split; [done|lia].
Qed.

Lemma DateFromTime_range t :
  1 <= DateFromTime t
  <= monthLength (MonthFromTime t) (DaysInYear (YearFromTime t)).
Proof.
  pose proof (YearFromTime_spec t) as Hs. rewrite DayFromYear_succ in Hs.
  destruct (DaysInYear_leap (YearFromTime t)) as [Hdays Hleap].
  rewrite Hdays in *.
  unfold DateFromTime, MonthFromTime.
  assert (Hw : 0 <= DayWithinYear t < 365 + InLeapYear (YearFromTime t)).
  { unfold DayWithinYear. lia. }
  revert Hw. generalize (DayWithinYear t). intros dw Hw.
  destruct Hleap as [E | E]; rewrite E in *; unfold monthOfDay;
    repeat match goal with
           | |- context [?a <? ?b] => destruct (Z.ltb_spec a b)
           end;
    try lia;
    match goal with
    | |- context [monthLength ?a ?b] =>
        let v := eval vm_compute in (monthLength a b) in
        change (monthLength a b) with v
    end;
    match goal with
    | |- context [monthStart ?a ?b] =>
        let v := eval vm_compute in (monthStart a b) in
        change (monthStart a b) with v
    end; lia.
Qed.

Lemma monthStart_succ m leap :
  0 <= m <= 10 -> leap = 0 \/ leap = 1 ->
  monthStart (m + 1) leap = monthStart m leap + monthLength m (365 + leap).
Proof.
  intros Hm Hleap.
  assert (Hc : m = 0 \/ m = 1 \/ m = 2 \/ m = 3 \/ m = 4 \/ m = 5 \/ m = 6 \/
               m = 7 \/ m = 8 \/ m = 9 \/ m = 10) by lia.
  destruct Hc as [-> | [-> | [-> | [-> | [-> | [-> | [-> | [-> | [-> | [-> | ->]]]]]]]]]];
    by destruct Hleap as [-> | ->].
Qed.

(** The day [d] of the month after [m] is [d] days after the last day
    of [m]. *)
Lemma MakeDay_carry y m d :
  0 <= m <= 11 ->
  MakeDay y (m + 1) d = MakeDay y m (d + monthLength m (DaysInYear y)).
Proof.
  intros Hm. destruct (DaysInYear_leap y) as [Hdays Hleap].
  destruct (Z.eq_dec m 11) as [-> | Hne].
  - rewrite (MakeDay_norm y (11 + 1)).
    change ((11 + 1) / 12) with 1. change ((11 + 1) mod 12) with 0.
    rewrite !MakeDay_in_year by lia. rewrite DayFromYear_succ, Hdays.
    change (monthStart 0 _) with 0.
    destruct Hleap as [-> | ->]; vm_compute monthStart; vm_compute monthLength; lia.
  - rewrite !MakeDay_in_year by lia.
    rewrite monthStart_succ, Hdays by (done || lia). lia.
Qed.

End CivilFacts.

Module GridFacts.
Import JSDate JSNumber DateFacts StringFacts PathFacts CivilFacts ProfileFacts.
Import Profile Calendar Invariants.

Lemma MakeDay_shift y m d k : MakeDay y m (d + k) = MakeDay y m d + k.
Proof. unfold MakeDay. lia. Qed.

Lemma day_in_range t k :
  Z.abs t <= maxTime - 62 * msPerDay -> -61 <= k <= 61 ->
  forall r, 0 <= r < msPerDay ->
  TimeClip (MakeDate (Day t + k) r) = Some (MakeDate (Day t + k) r).
Proof.
  intros Ht Hk r Hr. apply TimeClip_in_range.
  pose proof (Day_bounds t). unfold MakeDate, maxTime, msPerDay in *. lia.
Qed.

(** The decimal text of a year of four digits, and of a number below
    100 padded to two digits, read back digit by digit. *)
Lemma toString_four_digits y :
  1000 <= y <= 9999 ->
  exists a b c d,
    toString y = String a (String b (String c (String d EmptyString)))
    /\ exists a' b' c' d',
         digitValue a = Some a' /\ digitValue b = Some b'
         /\ digitValue c = Some c' /\ digitValue d = Some d'
         /\ 1000 * a' + 100 * b' + 10 * c' + d' = y.
Proof.
  intros Hy.
  assert (Hall : forallb
            (fun y => Nat.eqb (String.length (toString y)) 4
                      && bool_decide (decimalDigits 0 (toString y) = Some y))
            (seqZ 1000 9000) = true) by (vm_compute; reflexivity).
  rewrite forallb_forall in Hall.
  assert (Hin : In y (seqZ 1000 9000)).
  { apply list_elem_of_In, elem_of_seqZ. lia. }
  apply Hall in Hin. apply andb_true_iff in Hin as [Hlen Hval].
  apply Nat.eqb_eq in Hlen. apply bool_decide_eq_true in Hval.
  destruct (toString y) as [|a [|b [|c [|d [|e s]]]]]; try discriminate Hlen.
  exists a, b, c, d. split; [done|]. cbn [decimalDigits] in Hval.
  destruct (digitValue a) as [a'|]; [|done].
  destruct (digitValue b) as [b'|]; [|done].
  destruct (digitValue c) as [c'|]; [|done].
  destruct (digitValue d) as [d'|]; [|done].
  exists a', b', c', d'. injection Hval as Hval. repeat split; lia.
Qed.

Lemma toString_two_digits n :
  0 <= n <= 99 ->
  exists a b,
    JSString.padStart 2 "0" (toString n) = String a (String b EmptyString)
    /\ exists a' b',
         digitValue a = Some a' /\ digitValue b = Some b' /\ 10 * a' + b' = n.
Proof.
  intros Hn.
  assert (Hall : forallb
            (fun n => Nat.eqb (String.length (JSString.padStart 2 "0" (toString n))) 2
                      && bool_decide (decimalDigits 0 (JSString.padStart 2 "0" (toString n))
                                      = Some n))
            (seqZ 0 100) = true) by (vm_compute; reflexivity).
  rewrite forallb_forall in Hall.
  assert (Hin : In n (seqZ 0 100)).
  { apply list_elem_of_In, elem_of_seqZ. lia. }
  apply Hall in Hin. apply andb_true_iff in Hin as [Hlen Hval].
  apply Nat.eqb_eq in Hlen. apply bool_decide_eq_true in Hval.
  destruct (JSString.padStart 2 "0" (toString n)) as [|a [|b [|e s]]];
    try discriminate Hlen.
  exists a, b. split; [done|]. cbn [decimalDigits] in Hval.
  destruct (digitValue a) as [a'|]; [|done].
  destruct (digitValue b) as [b'|]; [|done].
  exists a', b'. injection Hval as Hval. repeat split; lia.
Qed.

Lemma lookup_repeat {A} (x : A) n k :
  (k < n)%nat -> repeat x n !! k = Some x.
Proof.
  revert k. induction n as [|n IH]; intros k Hk; [lia|].
  destruct k as [|k]; [done|]. cbn [repeat]. apply IH. lia.
Qed.

Lemma digit_no_slash c v : digitValue c = Some v -> "/"%char <> c.
Proof. intros H <-. discriminate H. Qed.

End GridFacts.

Module CalendarExtras.
Import JSDate JSNumber DateFacts StringFacts PathFacts CivilFacts ProfileFacts.
Import GridFacts Profile Calendar Invariants.

(** X22: the grid of the month.  For a date in or after the year 100
    and 62 days within the range of time values: [daysInMonth] is the
    length of the month shown; the empty slots in front are as many as
    the days from Monday to the weekday of the first of the month; the
    grid has these slots and then one slot for each day; and the slot of
    day [i] stands in the column, counted from Monday, of the weekday of
    the date made of the year, the month and [i], whose fields are that
    year, that month and [i]. *)
Theorem calendar_grid (t : Z) :
  100 <= YearFromTime t ->
  Z.abs t <= maxTime - 62 * msPerDay ->
  let n := monthLength (month t) (DaysInYear (year t)) in
  let offset := (WeekDay t - DateFromTime t) mod 7 in
  daysInMonth t = Some n /\ startDayOffset t = Some offset
  /\ 28 <= n <= 31 /\ 0 <= offset <= 6
  /\ List.length (calendarDays t) = Z.to_nat (offset + n)
  /\ (forall k, (k < Z.to_nat offset)%nat -> calendarDays t !! k = Some EmptySlot)
  /\ (forall i,
        1 <= i <= n ->
        let cell := MakeDate (MakeDay (year t) (month t) i) 0 in
        calendarDays t !! Z.to_nat (offset + i - 1)
        = Some (DaySlot i (dateStr t i))
        /\ (offset + i - 1) mod 7 = (WeekDay cell + 6) mod 7
        /\ YearFromTime cell = year t /\ MonthFromTime cell = month t
        /\ DateFromTime cell = i).
Proof.
  intros Hy Ht n offset.
  pose proof (DateFromTime_range t) as Hd. fold (month t) (year t) n in Hd.
  pose proof (monthLength_range (month t) (DaysInYear (year t))) as Hn.
  fold n in Hn.
  assert (Hm : 0 <= month t <= 11) by apply monthOfDay_range.
  assert (Hzero : 0 <= 0 < msPerDay) by (unfold msPerDay; lia).
  assert (Hoff : 0 <= offset <= 6).
  { unfold offset. pose proof (Z.mod_pos_bound (WeekDay t - DateFromTime t) 7). lia. }
  assert (Hyr : (if (0 <=? year t) && (year t <=? 99) then 1900 + year t else year t)
                = year t).
  { unfold year. destruct (Z.leb_spec (YearFromTime t) 99); [lia|].
    by rewrite andb_false_r. }
  assert (Hcell : forall i, MakeDay (year t) (month t) i = Day t + (i - DateFromTime t)).
  { intros i. unfold year, month. rewrite <- MakeDay_of_fields. f_equal. lia. }
  assert (Hdays : daysInMonth t = Some n).
  { unfold daysInMonth, newDate. rewrite Hyr.
    rewrite MakeDay_carry by done. fold n. rewrite Z.add_0_l.
    rewrite Hcell, (day_in_range t (n - DateFromTime t) Ht ltac:(lia)
                      (MakeTime 0 0 0 0) Hzero).
    cbn [getDate fmap option_fmap option_map]. f_equal.
    rewrite <- Hcell.
    apply (fields_of_MakeDay (year t) (month t) n (MakeTime 0 0 0 0));
      [done | fold n; lia | exact Hzero]. }
  assert (Hfirst : firstDayOfMonth t = Some ((WeekDay t + 1 - DateFromTime t) mod 7)).
  { unfold firstDayOfMonth, newDate. rewrite Hyr.
    rewrite Hcell, (day_in_range t (1 - DateFromTime t) Ht ltac:(lia)
                      (MakeTime 0 0 0 0) Hzero).
    cbn [getDay fmap option_fmap option_map]. f_equal.
    unfold WeekDay. rewrite Day_MakeDate by exact Hzero.
    Z.div_mod_to_equations; lia. }
  assert (Hstart : startDayOffset t = Some offset).
  { unfold startDayOffset. rewrite Hfirst. unfold offset.
    destruct (Z.eqb_spec ((WeekDay t + 1 - DateFromTime t) mod 7) 0);
      f_equal; Z.div_mod_to_equations; lia. }
  split; [done|]. split; [done|]. split; [done|]. split; [done|].
  unfold calendarDays. rewrite Hstart, Hdays.
  split; [|split].
  - rewrite length_app, repeat_length, length_map, length_seqZ. lia.
  - intros k Hk. rewrite lookup_app_l by (rewrite repeat_length; lia).
    by apply lookup_repeat.
  - intros i Hi.
    split; [|split].
    + rewrite lookup_app_r by (rewrite repeat_length; lia).
      rewrite repeat_length, list_lookup_fmap.
      replace (Z.to_nat (offset + i - 1) - Z.to_nat offset)%nat
        with (Z.to_nat (i - 1)) by lia.
      rewrite (proj2 (lookup_seqZ 1 n (Z.to_nat (i - 1)) i)) by lia.
      reflexivity.
    + unfold WeekDay. rewrite Day_MakeDate by exact Hzero.
      rewrite Hcell. unfold offset, WeekDay. Z.div_mod_to_equations; lia.
    + apply (fields_of_MakeDay (year t) (month t) i 0);
        [done | fold n; lia | exact Hzero].
Qed.

Lemma calendar_grid_witness :
  daysInMonth 1714557600000 = Some 31
  /\ startDayOffset 1714557600000 = Some 2
  /\ calendarDays 1714557600000 !! 2%nat = Some (DaySlot 1 "2024-05-01").
Proof.
  destruct (calendar_grid 1714557600000 ltac:(vm_compute; discriminate)
              ltac:(vm_compute; discriminate))
    as (H1 & H2 & _ & _ & _ & _ & H3).
  split; [exact H1|]. split; [exact H2|].
  exact (proj1 (H3 1 ltac:(vm_compute; split; discriminate))).
Defined.

(** X23: the calendar and the summaries agree on dates.  For a year of
    four digits, the date string of the slot of day [i] is
    YYYY-MM-DD: it reads back as the year shown, the month shown counted
    from 1, and [i]; it is a single key of the tree; and the summaries
    take a record with that date for the day [i - DateFromTime t] days
    after the day of [t]: such a record is in the week of [today] exactly
    when that day is, and in the month of [today] exactly when the month
    shown is the current one.  So a mood entered today, from the month
    first shown, counts in both summaries. *)
Theorem calendar_dates_are_read_back (t i : Z) :
  1000 <= YearFromTime t <= 9999 ->
  0 <= i <= 99 ->
  ymdOfString (dateStr t i) = Some (year t, month t + 1, i)
  /\ isKey (dateStr t i) = true
  /\ dayOfYmd (year t) (month t + 1) i = Day t + (i - DateFromTime t)
  /\ (forall today m,
        Z.abs today <= maxTime - 7 * msPerDay ->
        date m = dateStr t i ->
        (inCurrentWeek today m = true <->
         weekStartDay today <= Day t + (i - DateFromTime t)
                            <= weekStartDay today + 6)
        /\ (inCurrentMonth today m = true <->
            year t = YearFromTime today /\ month t = MonthFromTime today)
        /\ (t = today -> i = DateFromTime today ->
            inCurrentWeek today m = true /\ inCurrentMonth today m = true)).
Proof.
  intros Hy Hi.
  assert (Hm : 0 <= month t + 1 <= 99).
  { pose proof (monthOfDay_range (DayWithinYear t) (InLeapYear (YearFromTime t))).
    unfold month, MonthFromTime. lia. }
  destruct (toString_four_digits (year t) Hy)
    as (y1 & y2 & y3 & y4 & Hys & a & b & c & d & Ha & Hb & Hc & Hd & Hyv).
  destruct (toString_two_digits (month t + 1) Hm)
    as (m1 & m2 & Hms & e & f & He & Hf & Hmv).
  destruct (toString_two_digits i Hi) as (d1 & d2 & Hds & g & h & Hg & Hh & Hdv).
  assert (Hstr : dateStr t i
                 = String y1 (String y2 (String y3 (String y4 (String "-"
                   (String m1 (String m2 (String "-"
                   (String d1 (String d2 EmptyString)))))))))).
  { unfold dateStr. by rewrite Hys, Hms, Hds. }
  assert (Hparse : ymdOfString (dateStr t i) = Some (year t, month t + 1, i)).
  { rewrite Hstr. unfold ymdOfString. rewrite Ha, Hb, Hc, Hd, He, Hf, Hg, Hh.
    cbn. by rewrite Hyv, Hmv, Hdv. }
  assert (Hday : dayOfYmd (year t) (month t + 1) i = Day t + (i - DateFromTime t)).
  { unfold dayOfYmd. destruct (Z.leb_spec (year t) 99); [unfold year in *; lia|].
    rewrite andb_false_r, Z.add_simpl_r.
    unfold year, month. rewrite <- MakeDay_of_fields. f_equal. lia. }
  split; [done|]. split; [|split; [done|]].
  - rewrite Hstr. unfold isKey. cbn [JSString.truthy andb].
    apply negb_true_iff.
    repeat (apply includes_unit_cons; split;
            [first [ by eapply digit_no_slash | discriminate ] |]).
    reflexivity.
  - intros today m Htoday Hdate. rewrite <- Hdate in Hparse.
    pose proof (inCurrentWeek_ymd today m _ _ _ Htoday Hparse) as Hweek.
    rewrite Hday in Hweek.
    assert (Hmonth : inCurrentMonth today m = true <->
                     year t = YearFromTime today /\ month t = MonthFromTime today).
    { rewrite (SummaryFacts.inCurrentMonth_ymd today m _ _ _ Hparse).
      rewrite andb_true_iff, !Z.eqb_eq. lia. }
    split; [done|]. split; [done|].
    intros -> ->. split.
    + apply Hweek. pose proof (weekStartDay_bounds today). lia.
    + by apply Hmonth.
Qed.

Lemma calendar_dates_are_read_back_witness :
  ymdOfString (dateStr 1714557600000 7) = Some (2024, 5, 7)
  /\ isKey (dateStr 1714557600000 7) = true.
Proof.
  destruct (calendar_dates_are_read_back 1714557600000 7
              ltac:(vm_compute; split; discriminate)
              ltac:(vm_compute; split; discriminate)) as (H1 & H2 & _).
  exact (conj H1 H2).
Defined.

End CalendarExtras.

Module MonthFacts.
Import JSDate JSNumber DateFacts CivilFacts GridFacts Invariants.

Lemma fields_with_overflow y m d r :
  0 <= m <= 11 -> 1 <= d <= 31 -> 0 <= r < msPerDay ->
  let t' := MakeDate (MakeDay y m d) r in
  let len := monthLength m (DaysInYear y) in
  (d <= len ->
   YearFromTime t' = y /\ MonthFromTime t' = m /\ DateFromTime t' = d)
  /\ (len < d ->
      YearFromTime t' = y + (m + 1) / 12
      /\ MonthFromTime t' = (m + 1) mod 12
      /\ DateFromTime t' = d - len).
Proof.
  intros Hm Hd Hr t' len. split.
  - intros Hle. apply fields_of_MakeDay; [done | fold len; lia | done].
  - intros Hgt. unfold t'.
    assert (Heq : MakeDay y m d
                  = MakeDay (y + (m + 1) / 12) ((m + 1) mod 12) (d - len)).
    { rewrite <- MakeDay_norm, MakeDay_carry by done. fold len. f_equal. lia. }
    rewrite Heq.
    pose proof (monthLength_range m (DaysInYear y)) as Hlen. fold len in Hlen.
    pose proof (monthLength_range ((m + 1) mod 12)
                  (DaysInYear (y + (m + 1) / 12))) as Hnext.
    apply fields_of_MakeDay; [|lia|done].
    pose proof (Z.mod_pos_bound (m + 1) 12). lia.
Qed.

Lemma MakeDate_of_day t k :
  MakeDate (Day t + k) (TimeWithinDay t) = t + k * msPerDay.
Proof.
  unfold MakeDate, Day, TimeWithinDay, msPerDay.
  pose proof (Z.div_mod t 86400000). lia.
Qed.

End MonthFacts.

Module MonthExtras.
Import JSDate JSNumber DateFacts CivilFacts GridFacts MonthFacts App Invariants.

(** X24: what the arrows of the calendar do.  [handleChangeMonth 1]
    moves the date forward by the length of its month, and
    [handleChangeMonth (-1)] back by the length of the month before.
    When the day of the month exists in the month aimed at, the new date
    is that day of that month.  When it does not (the 29th to the 31st),
    the date runs over into the month after: going forward skips the
    month aimed at, and going back lands in the month the date was in,
    so that the calendar does not move. *)
Theorem changing_month (t : Z) :
  Z.abs t <= maxTime - 62 * msPerDay ->
  let y := YearFromTime t in
  let m := MonthFromTime t in
  let d := DateFromTime t in
  let len := monthLength m (DaysInYear y) in
  let y1 := y + (m + 1) / 12 in
  let m1 := (m + 1) mod 12 in
  let len1 := monthLength m1 (DaysInYear y1) in
  let y0 := y + (m - 1) / 12 in
  let m0 := (m - 1) mod 12 in
  let len0 := monthLength m0 (DaysInYear y0) in
  (exists t',
     handleChangeMonth 1 (Some t) = Some t' /\ t' = t + len * msPerDay
     /\ (d <= len1 ->
         YearFromTime t' = y1 /\ MonthFromTime t' = m1 /\ DateFromTime t' = d)
     /\ (len1 < d ->
         MonthFromTime t' = (m + 2) mod 12 /\ DateFromTime t' = d - len1))
  /\ (exists t',
        handleChangeMonth (-1) (Some t) = Some t' /\ t' = t - len0 * msPerDay
        /\ (d <= len0 ->
            YearFromTime t' = y0 /\ MonthFromTime t' = m0 /\ DateFromTime t' = d)
        /\ (len0 < d ->
            YearFromTime t' = y /\ MonthFromTime t' = m /\ DateFromTime t' = d - len0)).
Proof.
  intros Ht y m d len y1 m1 len1 y0 m0 len0.
  assert (Hm : 0 <= m <= 11) by apply monthOfDay_range.
  pose proof (DateFromTime_range t) as Hd. fold y m d len in Hd.
  pose proof (monthLength_range m (DaysInYear y)) as Hlen. fold len in Hlen.
  pose proof (monthLength_range m0 (DaysInYear y0)) as Hlen0. fold len0 in Hlen0.
  pose proof (TimeWithinDay_range t) as Hr.
  assert (Hm1 : 0 <= m1 <= 11).
  { unfold m1. pose proof (Z.mod_pos_bound (m + 1) 12). lia. }
  assert (Hm0 : 0 <= m0 <= 11).
  { unfold m0. pose proof (Z.mod_pos_bound (m - 1) 12). lia. }
  assert (Hnext : MakeDay y (m + 1) d = Day t + len).
  { rewrite MakeDay_carry by done. fold len. rewrite MakeDay_shift.
    unfold y, m, d. rewrite <- (Z.add_0_r (DateFromTime t)), MakeDay_of_fields. lia. }
  assert (Hback : y0 + (m0 + 1) / 12 = y /\ (m0 + 1) mod 12 = m).
  { unfold y0, m0. Z.div_mod_to_equations. lia. }
  assert (Hprev : MakeDay y (m - 1) d = Day t - len0).
  { rewrite MakeDay_norm. fold y0 m0.
    assert (Hsame : MakeDay y0 (m0 + 1) d = Day t).
    { rewrite MakeDay_norm. destruct Hback as [-> ->].
      unfold y, m, d. rewrite <- (Z.add_0_r (DateFromTime t)), MakeDay_of_fields. lia. }
    rewrite MakeDay_carry in Hsame by done. fold len0 in Hsame.
    rewrite MakeDay_shift in Hsame. lia. }
  split.
  - exists (t + len * msPerDay).
    assert (Hrun : MakeDate (MakeDay y (m + 1) d) (TimeWithinDay t)
                   = t + len * msPerDay).
    { by rewrite Hnext, MakeDate_of_day. }
    split; [|split; [done|]].
    + unfold handleChangeMonth, setMonth.
      cbn [getMonth plus fmap option_fmap option_map]. fold y m d.
      rewrite <- Hrun, Hnext. apply day_in_range; [done|lia|done].
    + rewrite <- Hrun, MakeDay_norm. fold y1 m1.
      destruct (fields_with_overflow y1 m1 d (TimeWithinDay t) Hm1
                  ltac:(lia) Hr) as [Hfit Hover].
      fold len1 in Hfit, Hover. split; [done|].
      intros Hgt. destruct (Hover Hgt) as (_ & -> & ->). split; [|done].
      unfold m1. Z.div_mod_to_equations. lia.
  - exists (t - len0 * msPerDay).
    assert (Hrun : MakeDate (MakeDay y (m - 1) d) (TimeWithinDay t)
                   = t - len0 * msPerDay).
    { rewrite Hprev. replace (Day t - len0) with (Day t + - len0) by lia.
      rewrite MakeDate_of_day. lia. }
    split; [|split; [done|]].
    + unfold handleChangeMonth, setMonth.
      cbn [getMonth plus fmap option_fmap option_map]. fold y m d.
      change (m + -1) with (m - 1).
      rewrite <- Hrun, Hprev. replace (Day t - len0) with (Day t + - len0) by lia.
      apply day_in_range; [done|lia|done].
    + rewrite <- Hrun, MakeDay_norm. fold y0 m0.
      destruct (fields_with_overflow y0 m0 d (TimeWithinDay t) Hm0
                  ltac:(lia) Hr) as [Hfit Hover].
      fold len0 in Hfit, Hover. split; [done|].
      intros Hgt. destruct (Hover Hgt) as (-> & -> & ->).
      by destruct Hback as [-> ->].
Qed.

Lemma changing_month_witness :
  (MonthFromTime 1738324800000 = 0 /\ DateFromTime 1738324800000 = 31)
  /\ exists t', handleChangeMonth 1 (Some 1738324800000) = Some t'
                /\ MonthFromTime t' = 2 /\ DateFromTime t' = 3.
Proof.
  split; [split; reflexivity|].
  destruct (changing_month 1738324800000 ltac:(vm_compute; discriminate))
    as [(t' & Hrun & _ & _ & Hover) _].
  exists t'. split; [exact Hrun|].
  exact (Hover ltac:(vm_compute; reflexivity)).
Defined.

End MonthExtras.

(* ===================================================================== *)
(** * Legacy mappings *)
(* ===================================================================== *)

Module RepairFacts.
Import TreeFacts PathFacts RunFacts KeepFacts AuthFacts StoreFacts ReaderFacts.
Import CaseFacts RegisterFacts LoginFacts SearchFacts Db Auth Invariants.

Lemma getUserProfile_found uid w p w' :
  getUserProfile uid w = (Ok (Some p), w') ->
  emptyOrReserved uid = false
  /\ getAt (ref ("users/" +:+ uid +:+ "/profile")) (db w) = Some p.
Proof.
  unfold getUserProfile. destruct (emptyOrReserved uid); [done|].
  unfold tryCatch. rewrite bind_run. change (child rootRef ?q) with (ref q).
  destruct (get_cases (ref ("users/" +:+ uid +:+ "/profile")) w)
    as (fl & [-> | [e ->]]).
  - destruct (getAt _ (db w)) as [q|]; [|done]. by intros [= -> _].
  - by rewrite bind_run, consoleWrite_run.
Qed.

Lemma includes_nonempty s sub :
  JSString.includes s sub = true -> sub <> "" -> JSString.truthy s = true.
Proof. destruct s; [|done]. by destruct sub. Qed.

Lemma autoRepair_run a b u w :
  reliable w -> reserved (User.uid u) = false ->
  exists w',
    autoRepair a b u w = (Ok tt, w')
    /\ reliable w' /\ accounts w' = accounts w
    /\ currentUser w' = currentUser w /\ uidSupply w' = uidSupply w
    /\ db w'
       = update (ref ("users/" +:+ User.uid u +:+ "/profile"))
           (Some (jsonOfProfile {| Types.uid := User.uid u; Types.email := b;
                                   Types.username := a |}))
           (update (ref ("usernames/" +:+ normalized a))
              (Some (JString (User.uid u))) (db w)).
Proof.
  intros Hw Hu. unfold autoRepair, tryCatch.
  rewrite bind_run, consoleWrite_run.
  rewrite bind_run. unfold registerUsername. fold (normalized a).
  rewrite set_reliable by done.
  rewrite bind_run. unfold saveUserProfile. rewrite Hu.
  rewrite set_reliable by (by apply written_reliable).
  rewrite consoleWrite_run. eexists. split; [reflexivity|].
  split; [by apply reliable_withConsole, written_reliable, written_reliable|].
  cbn [accounts currentUser uidSupply db withConsole].
  destruct (written_fields (ref ("users/" +:+ User.uid u +:+ "/profile"))
              (Some (jsonOfProfile {| Types.uid := User.uid u; Types.email := b;
                                      Types.username := a |}))
              (written (ref ("usernames/" +:+ normalized a))
                 (Some (JString (User.uid u)))
                 (withConsole
                    (console w ++
                     [ {| level := LogLevel;
                          args := ["Fixing legacy username mapping for:"; a] |} ])
                    w)))
    as (-> & _ & -> & -> & -> & _).
  destruct (written_fields (ref ("usernames/" +:+ normalized a))
              (Some (JString (User.uid u)))
              (withConsole
                 (console w ++
                  [ {| level := LogLevel;
                       args := ["Fixing legacy username mapping for:"; a] |} ])
                 w))
    as (-> & _ & -> & -> & -> & _).
  done.
Qed.

End RepairFacts.

Module RepairExtras.
Import TreeFacts PathFacts RunFacts KeepFacts AuthFacts StoreFacts ReaderFacts.
Import CaseFacts RegisterFacts LoginFacts SearchFacts RepairFacts.
Import Db Auth Invariants.

(** X25: whatever [getEmailByUsername] returns was found in the tree,
    and it changes no data.  A value returned is either the mapping of
    the normalized username itself, a string with an '@' (legacy data),
    or the [email] property of the profile stored at the identifier that
    the username maps to, an identifier neither empty nor reserved; with
    no mapping the result is [null] unless the request fails. *)
Theorem getEmailByUsername_outcome (username : string) (w : World) :
  let r := fst (getEmailByUsername username w) in
  let w' := snd (getEmailByUsername username w) in
  let mapping := getAt (ref ("usernames/" +:+ normalized username)) (db w) in
  sameButLog w w'
  /\ (forall v,
        r = Ok (Some v) ->
        (exists s, mapping = Some (JString s)
                   /\ JSString.includes s "@" = true /\ v = JString s)
        \/ (exists uid p,
              mapping = Some (JString uid) /\ emptyOrReserved uid = false
              /\ getAt (ref ("users/" +:+ uid +:+ "/profile")) (db w) = Some p
              /\ prop (Some p) "email" = Some v))
  /\ (mapping = None -> r = Ok None \/ exists e, r = Throw e).
Proof.
  intros r w' mapping. unfold r, w', getEmailByUsername.
  rewrite bind_run, getUidByUsername_get.
  destruct (get_cases (ref ("usernames/" +:+ normalized username)) w)
    as (fl & [-> | [e ->]]); cbn [fst snd];
    [|split; [apply sameButLog_faults|]; split; [done|]; intros _; right; by exists e].
  fold mapping.
  destruct mapping as [[s| |]|] eqn:Hmap; cbn [truthy];
    try (split; [apply sameButLog_faults|]; split; [done|done]).
  - destruct (JSString.truthy s) eqn:Hne;
      [|split; [apply sameButLog_faults|]; split; done].
    destruct (JSString.includes s "@") eqn:Hat; cbn [negb].
    + split; [apply sameButLog_faults|]. split; [|done].
      intros v [= <-]. left. by exists s.
    + rewrite bind_run.
      destruct (getUserProfile s (withFaults fl w)) as [[profile|e] w1] eqn:Hp.
      * destruct (getUserProfile_cases s (withFaults fl w)) as (w2 & Hsame & Hc).
        assert (w2 = w1) as ->.
        { destruct Hc as [Hc | Hc]; rewrite Hc in Hp; by injection Hp. }
        cbn [fst snd]. split.
        { eapply sameButLog_trans; [apply sameButLog_faults|done]. }
        split; [|done]. intros v Hv.
        destruct profile as [p|]; [|done]. cbn [fst] in Hv.
        destruct (truthy (Some p)); [|done]. injection Hv as Hv.
        destruct (getUserProfile_found s _ p w1 Hp) as [Hid Hstored].
        right. by exists s, p.
      * destruct (getUserProfile_cases s (withFaults fl w)) as (w2 & _ & Hc).
        destruct Hc as [Hc | Hc]; rewrite Hc in Hp; discriminate Hp.
  - destruct (negb (z =? 0));
      (split; [apply sameButLog_faults|]); split; done.
  - split; [apply sameButLog_faults|]. split; [done|]. intros _. by left.
Qed.

Lemma getEmailByUsername_outcome_witness :
  fst (getEmailByUsername "Bob" Samples.legacyWorld)
  = Ok (Some (JString "bob@x.org"))
  /\ exists s, getAt ["usernames"; "bob"] (db Samples.legacyWorld)
               = Some (JString s)
               /\ JSString.includes s "@" = true.
Proof.
  split; [reflexivity|].
  destruct (getEmailByUsername_outcome "Bob" Samples.legacyWorld)
    as (_ & H & _).
  destruct (H (JString "bob@x.org") eq_refl)
    as [(s & H1 & H2 & _) | (uid & p & H1 & H2 & _)].
  - exists s. exact (conj H1 H2).
  - vm_compute in H1. injection H1 as <-. discriminate H2.
Defined.

(** X26: the repair of a legacy mapping happens once.  When the input
    is a username mapped to an address (a string with an '@'), an account
    has that address and the password of the form, its identifier is
    neither empty nor reserved, and the requests succeed: after
    [handleLogin] the username maps to the identifier of the account; and
    a second [handleLogin] with the same form signs the same user in along
    the ordinary path, showing no error, writing nothing and logging
    nothing. *)
Theorem repair_happens_once
    (f : Form) (w : World) (legacyEmail : string) (a : Account) :
  JSString.includes (email f) "@" = false ->
  reliable w ->
  getAt (ref ("usernames/" +:+ normalized (email f))) (db w)
    = Some (JString legacyEmail) ->
  JSString.includes legacyEmail "@" = true ->
  find (fun a => hasEmail legacyEmail a
                 && bool_decide (account_password a = password f))
       (accounts w) = Some a ->
  emptyOrReserved (User.uid (account_user a)) = false ->
  let w1 := snd (handleLogin f w) in
  let w2 := snd (handleLogin f w1) in
  getAt (ref ("usernames/" +:+ normalized (email f))) (db w1)
    = Some (JString (User.uid (account_user a)))
  /\ error (fst (handleLogin f w)) = ""
  /\ error (fst (handleLogin f w1)) = ""
  /\ currentUser w2 = Some (account_user a)
  /\ db w2 = db w1 /\ console w2 = console w1.
Proof.
  intros Hat Hw Hmap Hlegacy Hfind Hid w1 w2.
  set (u := account_user a).
  set (ws := withSession (accounts w) (Some u) (uidSupply w) w).
  assert (Hsign : signInWithEmailAndPassword (Some (JString legacyEmail))
                    (password f) w = (Ok {| user := Some u |}, ws)).
  { unfold signInWithEmailAndPassword.
    rewrite bind_run, request_reliable by done. rewrite bind_run.
    cbn [getWorld]. by rewrite Hfind, bind_run. }
  assert (Hget : getUidByUsername (JSString.trim (email f)) w
                 = (Ok (Some (JString legacyEmail)), w)).
  { by rewrite getUidByUsername_get, normalized_trim, get_reliable, Hmap. }
  pose proof (AuthClaims.handleLogin_try_legacy
                (setError "" (setLoading true f)) w w ws legacyEmail u
                Hat Hget Hlegacy Hsign) as Htry.
  cbn [email setError setLoading] in Htry.
  destruct (autoRepair_run (JSString.trim (email f)) legacyEmail u ws)
    as (w3 & Hrepair & Hw3 & Hacc & Hcur & Hsup & Hdb);
    [done | by apply reserved_of_guard |].
  rewrite normalized_trim in Hdb.
  assert (Hfirst : handleLogin f w
                   = (setLoading false (setError "" (setLoading true f)), w3)).
  { unfold handleLogin. by rewrite Htry, Hrepair. }
  assert (Hmap3 : getAt (ref ("usernames/" +:+ normalized (email f))) (db w3)
                  = Some (JString (User.uid u))).
  { by rewrite Hdb, AuthClaims.usernames_users_apart, getAt_update. }
  assert (Hsecond : handleLogin f w3
                    = (setLoading false (setError "" (setLoading true f)),
                       withSession (accounts w3) (Some u) (uidSupply w3) w3)).
  { apply (handleLogin_by_username f w3 (User.uid u) legacyEmail
             (jsonOfProfile {| Types.uid := User.uid u; Types.email := legacyEmail;
                               Types.username := JSString.trim (email f) |}) a);
      try done.
    - rewrite Hdb. apply getAt_update.
    - by apply (includes_nonempty legacyEmail "@").
    - by rewrite Hacc. }
  unfold w2, w1. rewrite Hfirst. cbn [fst snd]. rewrite Hsecond.
  by repeat split.
Qed.

Lemma repair_happens_once_witness :
  let w1 := snd (handleLogin Samples.legacyForm Samples.legacyWorld) in
  getAt ["usernames"; "bob"] (db w1) = Some (JString "UB")
  /\ db (snd (handleLogin Samples.legacyForm w1)) = db w1
  /\ console (snd (handleLogin Samples.legacyForm w1)) = console w1.
Proof.
  destruct (repair_happens_once Samples.legacyForm Samples.legacyWorld
              "bob@x.org"
              {| account_user := {| User.uid := "UB"; User.email := "bob@x.org" |};
                 account_password := "pw" |}
              eq_refl eq_refl eq_refl eq_refl eq_refl eq_refl)
    as (H1 & _ & _ & _ & H2 & H3).
  exact (conj H1 (conj H2 H3)).
Defined.

End RepairExtras.
